(** * PSoC USBUART driver over FIFO ring buffers

    A shallow embedding of [usbuart_driver.c] / [usbuart_driver.h]: the module
    globals become one record that is threaded through every function, the
    ring-buffer and USB calls become functions on that record, and a call
    either finishes, spins in one of the driver's wait loops, or leaves the
    contract of a primitive it calls.

    The driver runs in two contexts, the foreground and the periodic
    interrupt, and brackets its accesses with [CyEnterCriticalSection] /
    [CyExitCriticalSection].  Here every public function and every tick of
    the interrupt is one step, and steps interleave; a put function that
    finds no room is a step that does not happen yet. *)

From Stdlib Require Import ZArith List Bool Lia.
From Stdlib Require Import Strings.Byte.
Import ListNotations.

Local Open Scope Z_scope.

(** ** Machine integers and bytes *)

(** Conversion of a C integer value to [uint8] and [uint16]. *)
Definition to_uint8 (z : Z) : Z := z mod 256.
Definition to_uint16 (z : Z) : Z := z mod 65536.

(** The numeric value of a byte, as C reads a [uint8]. *)
Definition byte_val (b : byte) : Z := Z.of_N (Byte.to_N b).

(** The byte holding a [uint8] value. *)
Definition byte_of (z : Z) : byte :=
  match Byte.of_N (Z.to_N (to_uint8 z)) with
  | Some b => b
  | None => x00
  end.

(** [MIN] of [sys/param.h]. *)
Definition MIN (a b : Z) : Z := if a <? b then a else b.

(** Length of a list as a C size. *)
Definition zlength {A : Type} (l : list A) : Z := Z.of_nat (length l).

(** ** Outcomes of a call *)

(** The contract violations a call can run into.  Each records the argument
    that left the contract and the size it was checked against. *)
Inductive fault : Type :=
| PeekOutside (offset used : Z)
| CopyFromShort (count used : Z)
| RemoveShort (count used : Z)
| CopyIntoOverflow (count free : Z)
| ReadPastArray (count len : Z)
| LoopBound.

(** A call finishes with a value, keeps spinning in a wait loop of the driver
    (waiting for the interrupt or the host to change the state), or stops at
    a contract violation. *)
Inductive outcome (A : Type) : Type :=
| Done (a : A)
| Waiting
| Fault (f : fault).

Arguments Done {A} a.
Arguments Waiting {A}.
Arguments Fault {A} f.

(** ** Caller-side arrays *)

(** A [uint8 *] argument: the null pointer or the array it points to. *)
Inductive uint8_ptr : Type :=
| NULL
| Buf (mem : list byte).

(** Storing [src] at the start of the array [mem]; the rest of [mem] is kept.
    The array is taken to be large enough for what the driver writes. *)
Definition store (mem src : list byte) : list byte :=
  src ++ skipn (length src) mem.

(** Reading [count] bytes from the start of an array. *)
Definition load (mem : list byte) (count : Z) : outcome (list byte) :=
  if (0 <=? count) && (count <=? zlength mem)
  then Done (firstn (Z.to_nat count) mem)
  else Fault (ReadPastArray count (zlength mem)).

(** ** Ring buffer *)

(** Modelled from the spec: [ringbuf.h] / [ringbuf.c] are not part of the
    sources at hand.  The ring is the FIFO byte queue the specification
    describes: a fixed capacity and the queued bytes, oldest (the tail, where
    bytes are read) first.  [bytes_used + bytes_free = capacity]. *)
Record ringbuf_t : Type := mkRing {
  rb_capacity : Z;
  rb_bytes : list byte
}.

(** Modelled from the spec: construct. *)
Definition ringbuf_new (capacity : Z) : ringbuf_t :=
  {| rb_capacity := capacity; rb_bytes := [] |}.

(** Modelled from the spec: reset to empty. *)
Definition ringbuf_reset (rb : ringbuf_t) : ringbuf_t :=
  {| rb_capacity := rb_capacity rb; rb_bytes := [] |}.

(** Modelled from the spec: count-used. *)
Definition ringbuf_bytes_used (rb : ringbuf_t) : Z := zlength (rb_bytes rb).

(** Modelled from the spec: count-free. *)
Definition ringbuf_bytes_free (rb : ringbuf_t) : Z :=
  rb_capacity rb - ringbuf_bytes_used rb.

(** Modelled from the spec: is-empty. *)
Definition ringbuf_is_empty (rb : ringbuf_t) : bool :=
  ringbuf_bytes_used rb =? 0.

(** Offset of the first [c] in [l], counting from [i]; [i + length l] when
    there is none. *)
Fixpoint find_from (c : byte) (l : list byte) (i : Z) : Z :=
  match l with
  | [] => i
  | b :: l' => if Byte.eqb b c then i else find_from c l' (i + 1)
  end.

(** Modelled from the spec: find-byte-from-offset.  The offset of the first
    occurrence of [c] at or after [offset], or [bytes_used] when there is
    none (this is what the driver compares the result with). *)
Definition ringbuf_findchr (rb : ringbuf_t) (c : byte) (offset : Z) : Z :=
  if (0 <=? offset) && (offset <? ringbuf_bytes_used rb)
  then find_from c (skipn (Z.to_nat offset) (rb_bytes rb)) offset
  else ringbuf_bytes_used rb.

(** Modelled from the spec: peek-at-offset.  Defined for offsets inside the
    used region only. *)
Definition ringbuf_peek (rb : ringbuf_t) (offset : Z) : outcome byte :=
  if (0 <=? offset) && (offset <? ringbuf_bytes_used rb)
  then Done (nth (Z.to_nat offset) (rb_bytes rb) x00)
  else Fault (PeekOutside offset (ringbuf_bytes_used rb)).

(** Modelled from the spec: copy-in.  Defined when the bytes fit in the free
    space; they are queued behind the bytes already there. *)
Definition ringbuf_memcpy_into (rb : ringbuf_t) (src : list byte)
  : outcome ringbuf_t :=
  if zlength src <=? ringbuf_bytes_free rb
  then Done {| rb_capacity := rb_capacity rb; rb_bytes := rb_bytes rb ++ src |}
  else Fault (CopyIntoOverflow (zlength src) (ringbuf_bytes_free rb)).

(** Modelled from the spec: copy-out.  Defined when the ring holds [count]
    bytes; the oldest [count] bytes are returned and leave the ring. *)
Definition ringbuf_memcpy_from (rb : ringbuf_t) (count : Z)
  : outcome (list byte * ringbuf_t) :=
  if (0 <=? count) && (count <=? ringbuf_bytes_used rb)
  then Done (firstn (Z.to_nat count) (rb_bytes rb),
             {| rb_capacity := rb_capacity rb;
                rb_bytes := skipn (Z.to_nat count) (rb_bytes rb) |})
  else Fault (CopyFromShort count (ringbuf_bytes_used rb)).

(** Modelled from the spec: discard-N-from-tail.  Defined when the ring holds
    [count] bytes; the oldest [count] bytes leave the ring. *)
Definition ringbuf_remove_from_tail (rb : ringbuf_t) (count : Z)
  : outcome ringbuf_t :=
  if (0 <=? count) && (count <=? ringbuf_bytes_used rb)
  then Done {| rb_capacity := rb_capacity rb;
               rb_bytes := skipn (Z.to_nat count) (rb_bytes rb) |}
  else Fault (RemoveShort count (ringbuf_bytes_used rb)).

(** ** USB CDC component *)

(** Modelled from the spec: the USBUART component is generated code outside
    the sources.  The record holds what its calls answer: the configuration
    state, the OUT endpoint (data ready and the queued bytes), the readiness
    of the IN endpoint, and the log of the IN transfers handed over so far,
    oldest first. *)
Record usb_t : Type := mkUsb {
  usb_configured : bool;
  usb_config_changed : bool;
  usb_cdc_inits : nat;
  usb_out_ready : bool;
  usb_out_fifo : list byte;
  usb_in_ready : bool;
  usb_in_sent : list (list byte)
}.

(** Modelled from the spec: starting the component changes none of the
    answers; the host configures the device afterwards. *)
Definition USBUART_Start (u : usb_t) : usb_t := u.

(** Modelled from the spec: "configuration complete?". *)
Definition USBUART_GetConfiguration (u : usb_t) : bool := usb_configured u.

(** Modelled from the spec: "configuration changed since last asked?";
    asking clears the flag. *)
Definition USBUART_IsConfigurationChanged (u : usb_t) : bool * usb_t :=
  (usb_config_changed u,
   mkUsb (usb_configured u) false (usb_cdc_inits u) (usb_out_ready u)
         (usb_out_fifo u) (usb_in_ready u) (usb_in_sent u)).

(** Modelled from the spec: "initialize CDC sub-layer". *)
Definition USBUART_CDC_Init (u : usb_t) : usb_t :=
  mkUsb (usb_configured u) (usb_config_changed u) (S (usb_cdc_inits u))
        (usb_out_ready u) (usb_out_fifo u) (usb_in_ready u) (usb_in_sent u).

(** Modelled from the spec: "is data ready?". *)
Definition USBUART_DataIsReady (u : usb_t) : bool := usb_out_ready u.

(** Modelled from the spec: "how many bytes queued?". *)
Definition USBUART_GetCount (u : usb_t) : Z := zlength (usb_out_fifo u).

(** Modelled from the spec: "drain all queued bytes"; the bytes are returned
    (their number is the C return value) and the OUT endpoint is empty
    afterwards. *)
Definition USBUART_GetAll (u : usb_t) : list byte * usb_t :=
  (usb_out_fifo u,
   mkUsb (usb_configured u) (usb_config_changed u) (usb_cdc_inits u) false []
         (usb_in_ready u) (usb_in_sent u)).

(** Modelled from the spec: "is IN endpoint ready?". *)
Definition USBUART_CDCIsReady (u : usb_t) : bool := usb_in_ready u.

(** Modelled from the spec: "queue N bytes for IN transfer"; the transfer is
    appended to the log.  Readiness of the endpoint is the host's to change. *)
Definition USBUART_PutData (u : usb_t) (pkt : list byte) : usb_t :=
  mkUsb (usb_configured u) (usb_config_changed u) (usb_cdc_inits u)
        (usb_out_ready u) (usb_out_fifo u) (usb_in_ready u)
        (usb_in_sent u ++ [pkt]).

(** ** Driver constants *)

Definition USBUART_MAX_PACKET_SIZE : Z := 64.
Definition TX_MAX_REJECT : Z := 8.
Definition RX_BUFFER_SIZE : Z := 256.
Definition TX_BUFFER_SIZE : Z := 256.
Definition USBUART_LINE_TERMINATOR : byte := x0a.

(** Modelled from the spec: [usbuart_driver_msg.h] is not part of the sources
    at hand.  The frame is [FIRST_BYTE][LENGTH][payload][LAST_BYTE]: the
    length byte follows the first byte, the header has two bytes, the footer
    one. *)
Definition MSG_LENGTH_OFFS_FROM_FIRST_BYTE : Z := 1.
Definition MSG_HEADER_LENGTH : Z := 2.
Definition MSG_FOOTER_LENGTH : Z := 1.
Definition MSG_STRUCTURE_LENGTH : Z := MSG_HEADER_LENGTH + MSG_FOOTER_LENGTH.

(** ** Driver state *)

(** The private variables of [usbuart_driver.c], together with the USBUART
    component they talk to. *)
Record state : Type := mkState {
  USBUART : usb_t;
  _tempBuffer : list byte;
  _rxBuffer : ringbuf_t;
  _txBuffer : ringbuf_t;
  _txZlpRequired : bool;
  _txReject : Z
}.

Definition set_USBUART (u : usb_t) (st : state) : state :=
  mkState u (_tempBuffer st) (_rxBuffer st) (_txBuffer st)
          (_txZlpRequired st) (_txReject st).
Definition set_tempBuffer (b : list byte) (st : state) : state :=
  mkState (USBUART st) b (_rxBuffer st) (_txBuffer st)
          (_txZlpRequired st) (_txReject st).
Definition set_rxBuffer (rb : ringbuf_t) (st : state) : state :=
  mkState (USBUART st) (_tempBuffer st) rb (_txBuffer st)
          (_txZlpRequired st) (_txReject st).
Definition set_txBuffer (rb : ringbuf_t) (st : state) : state :=
  mkState (USBUART st) (_tempBuffer st) (_rxBuffer st) rb
          (_txZlpRequired st) (_txReject st).
Definition set_txZlpRequired (b : bool) (st : state) : state :=
  mkState (USBUART st) (_tempBuffer st) (_rxBuffer st) (_txBuffer st)
          b (_txReject st).
Definition set_txReject (r : Z) (st : state) : state :=
  mkState (USBUART st) (_tempBuffer st) (_rxBuffer st) (_txBuffer st)
          (_txZlpRequired st) r.

(** ** The monad of driver calls *)

Definition M (A : Type) : Type := state -> outcome (A * state).

Definition ret {A : Type} (a : A) : M A := fun st => Done (a, st).

Definition bind {A B : Type} (m : M A) (k : A -> M B) : M B :=
  fun st =>
    match m st with
    | Done (a, st') => k a st'
    | Waiting => Waiting
    | Fault f => Fault f
    end.

Notation "x <- m ;; k" := (bind m (fun x => k))
  (at level 61, m at next level, right associativity).
Notation "m ;;; k" := (bind m (fun _ => k))
  (at level 61, right associativity).

(** Lifting an outcome that does not touch the state. *)
Definition lift {A : Type} (o : outcome A) : M A :=
  fun st =>
    match o with
    | Done a => Done (a, st)
    | Waiting => Waiting
    | Fault f => Fault f
    end.

Definition get : M state := fun st => Done (st, st).
Definition modify (f : state -> state) : M unit := fun st => Done (tt, f st).

(** Running a ring-buffer call on [_rxBuffer] or [_txBuffer]. *)
Definition on_rx {A : Type} (f : ringbuf_t -> outcome (A * ringbuf_t)) : M A :=
  fun st =>
    match f (_rxBuffer st) with
    | Done (a, rb) => Done (a, set_rxBuffer rb st)
    | Waiting => Waiting
    | Fault e => Fault e
    end.

Definition on_tx {A : Type} (f : ringbuf_t -> outcome (A * ringbuf_t)) : M A :=
  fun st =>
    match f (_txBuffer st) with
    | Done (a, rb) => Done (a, set_txBuffer rb st)
    | Waiting => Waiting
    | Fault e => Fault e
    end.

Definition upd_rx (f : ringbuf_t -> outcome ringbuf_t) : M unit :=
  fun st =>
    match f (_rxBuffer st) with
    | Done rb => Done (tt, set_rxBuffer rb st)
    | Waiting => Waiting
    | Fault e => Fault e
    end.

Definition upd_tx (f : ringbuf_t -> outcome ringbuf_t) : M unit :=
  fun st =>
    match f (_txBuffer st) with
    | Done rb => Done (tt, set_txBuffer rb st)
    | Waiting => Waiting
    | Fault e => Fault e
    end.

(** ** Private functions *)

(** [_init_cdc]: on the first call, or when the configuration has changed,
    wait for the enumeration, clear the change flag and initialise the CDC
    interface.  While the device is not configured the call spins.
    [first_init || ...] does not ask the component when [first_init] holds. *)
Definition _init_cdc (first_init : bool) : M unit :=
  fun st =>
    let '(changed, u1) :=
      if first_init then (true, USBUART st)
      else USBUART_IsConfigurationChanged (USBUART st) in
    if changed then
      if USBUART_GetConfiguration u1 then
        let '(_, u2) := USBUART_IsConfigurationChanged u1 in
        Done (tt, set_USBUART (USBUART_CDC_Init u2) st)
      else Waiting
    else Done (tt, set_USBUART u1 st).

(** [_usbuart_rx_isr]: copy all available bytes from USBUART into the RX
    ring, when they all fit.  The bytes are staged in [_tempBuffer], an array
    of [USBUART_MAX_PACKET_SIZE] = 64 bytes, and the source checks their
    number against the free space of the ring only: more than 64 bytes that
    fit the ring are written past the end of the array.  In the model the
    list [_tempBuffer] is then longer than 64 bytes; [packet_sized] below is
    the condition under which this does not happen. *)
Definition _usbuart_rx_isr : M unit :=
  st <- get ;;
  if USBUART_DataIsReady (USBUART st) then
    if USBUART_GetCount (USBUART st) <=? ringbuf_bytes_free (_rxBuffer st) then
      let '(bytes, u) := USBUART_GetAll (USBUART st) in
      let count := to_uint16 (zlength bytes) in
      modify (set_USBUART u) ;;;
      modify (set_tempBuffer (store (_tempBuffer st) bytes)) ;;;
      st1 <- get ;;
      src <- lift (load (_tempBuffer st1) count) ;;
      upd_rx (fun rb => ringbuf_memcpy_into rb src)
    else ret tt
  else ret tt.

(** [_usbuart_tx_isr]: send what is in the TX ring, up to one packet; count
    the rejections of the IN endpoint and drop the ring content after too
    many of them. *)
Definition _usbuart_tx_isr : M unit :=
  st <- get ;;
  if negb (ringbuf_is_empty (_txBuffer st)) || _txZlpRequired st then
    if USBUART_CDCIsReady (USBUART st) then
      let count :=
        to_uint16 (MIN (ringbuf_bytes_used (_txBuffer st))
                       USBUART_MAX_PACKET_SIZE) in
      bytes <- on_tx (fun rb => ringbuf_memcpy_from rb count) ;;
      modify (set_tempBuffer (store (_tempBuffer st) bytes)) ;;;
      st1 <- get ;;
      pkt <- lift (load (_tempBuffer st1) count) ;;
      modify (set_USBUART (USBUART_PutData (USBUART st1) pkt)) ;;;
      modify (set_txZlpRequired (count =? USBUART_MAX_PACKET_SIZE)) ;;;
      modify (set_txReject 0)
    else
      let reject := to_uint8 (_txReject st + 1) in
      modify (set_txReject reject) ;;;
      if reject >? TX_MAX_REJECT then
        modify (set_txBuffer (ringbuf_reset (_txBuffer st))) ;;;
        modify (set_txReject 0)
      else ret tt
  else ret tt.

(** [CY_ISR(int_usbuart_isr)]: one tick of the periodic interrupt. *)
Definition int_usbuart_isr : M unit :=
  _usbuart_rx_isr ;;; _usbuart_tx_isr.

(** ** Public functions *)

(** [usbuart_init]. *)
Definition usbuart_init : M unit :=
  modify (set_rxBuffer (ringbuf_new RX_BUFFER_SIZE)) ;;;
  modify (set_txBuffer (ringbuf_new TX_BUFFER_SIZE)) ;;;
  st <- get ;;
  modify (set_rxBuffer (ringbuf_reset (_rxBuffer st))) ;;;
  modify (set_txBuffer (ringbuf_reset (_txBuffer st))) ;;;
  modify (fun s => set_USBUART (USBUART_Start (USBUART s)) s) ;;;
  _init_cdc true.

(** [usbuart_getch]: the C return value and the array behind [data]. *)
Definition usbuart_getch (data : uint8_ptr) : M (Z * uint8_ptr) :=
  let count := 1 in
  match data with
  | NULL => ret (0, NULL)
  | Buf mem =>
    st <- get ;;
    if ringbuf_is_empty (_rxBuffer st) then ret (0, data)
    else
      _init_cdc false ;;;
      bytes <- on_rx (fun rb => ringbuf_memcpy_from rb count) ;;
      ret (count, Buf (store mem bytes))
  end.

(** The wait loop of the put functions: one pass checks the configuration
    and the free space; without enough space the pass is repeated, which
    only the interrupt can end. *)
Definition wait_tx_free (needed : Z) : M unit :=
  _init_cdc false ;;;
  st <- get ;;
  if ringbuf_bytes_free (_txBuffer st) >=? needed then ret tt
  else (fun _ => Waiting).

(** [usbuart_putch]. *)
Definition usbuart_putch (data : uint8_ptr) : M unit :=
  let count := 1 in
  match data with
  | NULL => ret tt
  | Buf mem =>
    wait_tx_free count ;;;
    src <- lift (load mem count) ;;
    upd_tx (fun rb => ringbuf_memcpy_into rb src)
  end.

(** [usbuart_getline]: the C return value and the array behind [data], for
    a call during which no interrupt is served.  The source searches the
    ring and tests the result before it disables the interrupt;
    [usbuart_getline_irq] below is the call with the interrupt served in
    between. *)
Definition usbuart_getline (data : uint8_ptr) : M (Z * uint8_ptr) :=
  match data with
  | NULL => ret (0, NULL)
  | Buf mem =>
    st <- get ;;
    if ringbuf_is_empty (_rxBuffer st) then ret (0, data)
    else
      let line_term_offs :=
        to_uint16 (ringbuf_findchr (_rxBuffer st) USBUART_LINE_TERMINATOR 0) in
      if line_term_offs =? ringbuf_bytes_used (_rxBuffer st) then ret (0, data)
      else
        _init_cdc false ;;;
        bytes <- on_rx (fun rb => ringbuf_memcpy_from rb line_term_offs) ;;
        upd_rx (fun rb => ringbuf_remove_from_tail rb 1) ;;;
        ret (to_uint8 line_term_offs, Buf (store mem bytes))
  end.

(** [usbuart_putline]; [count] is converted to [uint8] on entry. *)
Definition usbuart_putline (data : uint8_ptr) (count : Z) : M unit :=
  let count := to_uint8 count in
  match data with
  | NULL => ret tt
  | Buf mem =>
    if count <=? 0 then ret tt
    else
      wait_tx_free (count + 1) ;;;
      src <- lift (load mem count) ;;
      upd_tx (fun rb => ringbuf_memcpy_into rb src) ;;;
      let line_terminator := USBUART_LINE_TERMINATOR in
      upd_tx (fun rb => ringbuf_memcpy_into rb [line_terminator])
  end.

Section Messages.

(** The two sentinels of [usbuart_driver_msg.h], chosen by the user. *)
Variable MSG_FIRST_BYTE : byte.
Variable MSG_LAST_BYTE : byte.

(** How one pass of the search loop of [usbuart_getmsg] ends. *)
Inductive scan : Type :=
| ScanReturn0
| ScanFound (msg_length : Z)
| ScanAgain.

(** One pass through the body of [while(!message_found)]. *)
Definition getmsg_scan : M scan :=
  st <- get ;;
  let msg_first_byte_offs :=
    to_uint16 (ringbuf_findchr (_rxBuffer st) MSG_FIRST_BYTE 0) in
  if msg_first_byte_offs =? ringbuf_bytes_used (_rxBuffer st)
  then ret ScanReturn0
  else
    (if msg_first_byte_offs =? 0 then ret tt
     else upd_rx (fun rb => ringbuf_remove_from_tail rb msg_first_byte_offs)) ;;;
    st1 <- get ;;
    if ringbuf_bytes_used (_rxBuffer st1) <? MSG_HEADER_LENGTH
    then ret ScanReturn0
    else
      length_byte <-
        lift (ringbuf_peek (_rxBuffer st1) MSG_LENGTH_OFFS_FROM_FIRST_BYTE) ;;
      let msg_length := byte_val length_byte in
      if ringbuf_bytes_used (_rxBuffer st1) <? msg_length
      then ret ScanReturn0
      else
        msg_last_byte <- lift (ringbuf_peek (_rxBuffer st1) (msg_length - 1)) ;;
        if Byte.eqb msg_last_byte MSG_LAST_BYTE
        then ret (ScanFound msg_length)
        else
          upd_rx (fun rb =>
            ringbuf_remove_from_tail rb MSG_LENGTH_OFFS_FROM_FIRST_BYTE) ;;;
          ret ScanAgain.

(** The search loop, bounded by [fuel] passes. *)
Fixpoint getmsg_search (fuel : nat) : M (option Z) :=
  match fuel with
  | O => lift (Fault LoopBound)
  | S fuel' =>
    r <- getmsg_scan ;;
    match r with
    | ScanReturn0 => ret None
    | ScanFound msg_length => ret (Some msg_length)
    | ScanAgain => getmsg_search fuel'
    end
  end.

(** [usbuart_getmsg]: the C return value and the array behind [data], for
    a call during which no interrupt is served.  Every repeated pass has
    removed a byte, so one pass more than the ring holds bytes is enough.
    The source runs the search loop with the interrupt enabled;
    [usbuart_getmsg_irq] below is the call with the interrupt served during
    the search. *)
Definition usbuart_getmsg (data : uint8_ptr) : M (Z * uint8_ptr) :=
  match data with
  | NULL => ret (0, NULL)
  | Buf mem =>
    st <- get ;;
    if ringbuf_is_empty (_rxBuffer st) then ret (0, data)
    else
      found <- getmsg_search (S (length (rb_bytes (_rxBuffer st)))) ;;
      match found with
      | None => ret (0, data)
      | Some msg_length =>
        _init_cdc false ;;;
        upd_rx (fun rb => ringbuf_remove_from_tail rb MSG_HEADER_LENGTH) ;;;
        let count := to_uint8 (msg_length - MSG_STRUCTURE_LENGTH) in
        bytes <- on_rx (fun rb => ringbuf_memcpy_from rb count) ;;
        upd_rx (fun rb => ringbuf_remove_from_tail rb MSG_FOOTER_LENGTH) ;;;
        ret (count, Buf (store mem bytes))
      end
  end.

(** [usbuart_putmsg]; [count] is converted to [uint8] on entry, and
    [msg_length] is a [uint8]. *)
Definition usbuart_putmsg (data : uint8_ptr) (count : Z) : M unit :=
  let count := to_uint8 count in
  match data with
  | NULL => ret tt
  | Buf mem =>
    if count <=? 0 then ret tt
    else
      let msg_length := to_uint8 (count + MSG_STRUCTURE_LENGTH) in
      wait_tx_free msg_length ;;;
      let msg_header := [MSG_FIRST_BYTE; byte_of msg_length] in
      upd_tx (fun rb => ringbuf_memcpy_into rb msg_header) ;;;
      src <- lift (load mem count) ;;
      upd_tx (fun rb => ringbuf_memcpy_into rb src) ;;;
      let msg_footer := [MSG_LAST_BYTE] in
      upd_tx (fun rb => ringbuf_memcpy_into rb msg_footer)
  end.

End Messages.

(** ** Well-formed states *)

(** The rings as [usbuart_init] allocates them, never over-full. *)
Definition ring_ok (capacity : Z) (rb : ringbuf_t) : Prop :=
  rb_capacity rb = capacity /\ ringbuf_bytes_used rb <= capacity.

Definition state_ok (st : state) : Prop :=
  ring_ok RX_BUFFER_SIZE (_rxBuffer st) /\
  ring_ok TX_BUFFER_SIZE (_txBuffer st).

(** The configuration check of a call returns: either the configuration has
    not changed, or the host has configured the device again. *)
Definition cdc_ready (st : state) : Prop :=
  usb_config_changed (USBUART st) = false \/
  usb_configured (USBUART st) = true.

(** The USBUART component after a configuration check that returns. *)
Definition cdc_checked (u : usb_t) : usb_t :=
  if usb_config_changed u
  then USBUART_CDC_Init
         (snd (USBUART_IsConfigurationChanged
                 (snd (USBUART_IsConfigurationChanged u))))
  else snd (USBUART_IsConfigurationChanged u).

(** The part of [usbuart_getmsg] after the search loop. *)
Definition getmsg_extract (mem : list byte) (msg_length : Z)
  : M (Z * uint8_ptr) :=
  _init_cdc false ;;;
  upd_rx (fun rb => ringbuf_remove_from_tail rb MSG_HEADER_LENGTH) ;;;
  let count := to_uint8 (msg_length - MSG_STRUCTURE_LENGTH) in
  bytes <- on_rx (fun rb => ringbuf_memcpy_from rb count) ;;
  upd_rx (fun rb => ringbuf_remove_from_tail rb MSG_FOOTER_LENGTH) ;;;
  ret (count, Buf (store mem bytes)).

(** ** The system around the driver *)

(** The host and the USB hardware change what the component answers, but not
    the log of the transfers the driver has handed over. *)
Definition host_step (st st' : state) : Prop :=
  exists u,
    st' = set_USBUART u st /\
    usb_in_sent u = usb_in_sent (USBUART st).

(** The variables as the C initialisers leave them: no ring allocated yet
    (a ring of capacity 0 stands for it), the flag clear, the counter 0. *)
Definition power_on (u : usb_t) : state :=
  mkState u (repeat x00 (Z.to_nat USBUART_MAX_PACKET_SIZE))
          (ringbuf_new 0) (ringbuf_new 0) false 0.

(** The transmit branch of [_usbuart_tx_isr] is taken. *)
Definition transmits (st : state) : Prop :=
  (ringbuf_is_empty (_txBuffer st) = false \/ _txZlpRequired st = true) /\
  USBUART_CDCIsReady (USBUART st) = true.

(** The most recent IN transfer carried a full packet. *)
Definition last_transfer_full (st : state) : Prop :=
  exists older pkt,
    usb_in_sent (USBUART st) = older ++ [pkt] /\
    zlength pkt = USBUART_MAX_PACKET_SIZE.

(** [n] consecutive ticks, the host acting before each of them, with the IN
    endpoint not ready at any of them. *)
Inductive stalled_ticks : nat -> state -> state -> Prop :=
| stalled_none (st : state) : stalled_ticks O st st
| stalled_more (n : nat) (st st1 st2 st3 : state) :
    stalled_ticks n st st1 ->
    host_step st1 st2 ->
    USBUART_CDCIsReady (USBUART st2) = false ->
    int_usbuart_isr st2 = Done (tt, st3) ->
    stalled_ticks (S n) st st3.

(** What no call of the public interface changes: the flag, the reject
    counter and the log of IN transfers. *)
Definition tx_side_kept (st st' : state) : Prop :=
  _txZlpRequired st' = _txZlpRequired st /\
  _txReject st' = _txReject st /\
  usb_in_sent (USBUART st') = usb_in_sent (USBUART st).

Definition keeps {A : Type} (m : M A) : Prop :=
  forall (st : state) (a : A) (st' : state),
    m st = Done (a, st') -> tx_side_kept st st'.

Section System.

(** The sentinels the system is built with. *)
Variable MSG_FIRST_BYTE : byte.
Variable MSG_LAST_BYTE : byte.

(** What a pass that finishes has done to the ring: it removed [removed]
    from the front, and nothing else changed. *)
Definition scan_post (st : state) (r : scan) (st' : state) : Prop :=
  exists removed,
    rb_bytes (_rxBuffer st) = removed ++ rb_bytes (_rxBuffer st') /\
    st' = set_rxBuffer (mkRing (rb_capacity (_rxBuffer st))
                               (rb_bytes (_rxBuffer st'))) st /\
    match r with
    | ScanReturn0 => ~ In MSG_FIRST_BYTE removed
    | ScanFound msg_length =>
        ~ In MSG_FIRST_BYTE removed /\
        exists length_byte rest,
          rb_bytes (_rxBuffer st') = MSG_FIRST_BYTE :: length_byte :: rest /\
          msg_length = byte_val length_byte /\
          1 <= msg_length <= zlength rest + 2 /\
          nth (Z.to_nat (msg_length - 1)) (rb_bytes (_rxBuffer st')) x00
            = MSG_LAST_BYTE
    | ScanAgain => removed <> []
    end.

(** What a search that finishes has done to the ring. *)
Definition search_post (st : state) (found : option Z) (st' : state) : Prop :=
  exists removed,
    rb_bytes (_rxBuffer st) = removed ++ rb_bytes (_rxBuffer st') /\
    st' = set_rxBuffer (mkRing (rb_capacity (_rxBuffer st))
                               (rb_bytes (_rxBuffer st'))) st /\
    match found with
    | None => True
    | Some msg_length =>
        exists length_byte rest,
          rb_bytes (_rxBuffer st') = MSG_FIRST_BYTE :: length_byte :: rest /\
          msg_length = byte_val length_byte /\
          1 <= msg_length <= zlength rest + 2 /\
          nth (Z.to_nat (msg_length - 1)) (rb_bytes (_rxBuffer st')) x00
            = MSG_LAST_BYTE
    end.

(** The calls of the public interface. *)
Inductive api_call : Type :=
| Call_init
| Call_getch (data : uint8_ptr)
| Call_putch (data : uint8_ptr)
| Call_getline (data : uint8_ptr)
| Call_putline (data : uint8_ptr) (count : Z)
| Call_getmsg (data : uint8_ptr)
| Call_putmsg (data : uint8_ptr) (count : Z).

(** The state a call leaves behind. *)
Definition final {A : Type} (o : outcome (A * state)) : outcome state :=
  match o with
  | Done (_, st) => Done st
  | Waiting => Waiting
  | Fault f => Fault f
  end.

Definition run_call (c : api_call) (st : state) : outcome state :=
  match c with
  | Call_init => final (usbuart_init st)
  | Call_getch data => final (usbuart_getch data st)
  | Call_putch data => final (usbuart_putch data st)
  | Call_getline data => final (usbuart_getline data st)
  | Call_putline data count => final (usbuart_putline data count st)
  | Call_getmsg data =>
    final (usbuart_getmsg MSG_FIRST_BYTE MSG_LAST_BYTE data st)
  | Call_putmsg data count =>
    final (usbuart_putmsg MSG_FIRST_BYTE MSG_LAST_BYTE data count st)
  end.

(** One step of the system: a call of the public interface that returns, a
    tick of the interrupt, or an action of the host. *)
Inductive step (st st' : state) : Prop :=
| step_call (c : api_call) (Hcall : run_call c st = Done st')
| step_tick (Htick : int_usbuart_isr st = Done (tt, st'))
| step_host (Hhost : host_step st st').

(** The states the system can be in, from power-on with no transfer issued. *)
Inductive reachable : state -> Prop :=
| reach_power_on (u : usb_t) :
    usb_in_sent u = [] -> reachable (power_on u)
| reach_step (st st' : state) :
    reachable st -> step st st' -> reachable st'.

(** Steps that hand no transfer to the USB layer, any number of them. *)
Inductive quiet_steps (st : state) : state -> Prop :=
| quiet_none : quiet_steps st st
| quiet_more (st1 st2 : state) :
    quiet_steps st st1 ->
    step st1 st2 ->
    usb_in_sent (USBUART st2) = usb_in_sent (USBUART st1) ->
    quiet_steps st st2.

End System.

(** ** Loopback *)

(** The loopback of the round-trip laws, in the words of the specification:
    all the bytes queued in the TX ring are transferred into an empty RX
    ring. *)
Definition loopback : M unit :=
  st <- get ;;
  upd_rx (fun rb =>
    ringbuf_memcpy_into (ringbuf_reset rb) (rb_bytes (_txBuffer st))) ;;;
  modify (fun s => set_txBuffer (ringbuf_reset (_txBuffer s)) s).

(** The host of a real loopback: what a tick has handed to the IN endpoint
    comes back at the OUT endpoint, behind what is still waiting there, and
    the IN endpoint is ready again. *)
Definition echo_host (before st : state) : state :=
  let u := USBUART st in
  let echoed :=
    usb_out_fifo u
    ++ concat (skipn (length (usb_in_sent (USBUART before))) (usb_in_sent u)) in
  set_USBUART
    (mkUsb (usb_configured u) (usb_config_changed u) (usb_cdc_inits u)
           (match echoed with [] => false | _ :: _ => true end)
           echoed true (usb_in_sent u))
    st.

(** A tick followed by the echo of the host. *)
Definition echo_tick : M unit :=
  fun st =>
    match int_usbuart_isr st with
    | Done (_, st') => Done (tt, echo_host st st')
    | Waiting => Waiting
    | Fault f => Fault f
    end.

(** [n] times the same step. *)
Fixpoint times (n : nat) (m : M unit) : M unit :=
  match n with
  | O => ret tt
  | S n' => m ;;; times n' m
  end.

(** The OUT endpoint holds at most one packet: what [USBUART_GetAll] writes
    fits the 64 bytes of [_tempBuffer]. *)
Definition packet_sized (u : usb_t) : Prop :=
  USBUART_GetCount u <= USBUART_MAX_PACKET_SIZE.

(** The loopback under way: the bytes [content] are spread, in this order,
    over the RX ring, the OUT endpoint (at most one packet) and the TX
    ring. *)
Definition in_flight (content : list byte) (st : state) : Prop :=
  state_ok st /\
  rb_bytes (_rxBuffer st) ++ usb_out_fifo (USBUART st)
    ++ rb_bytes (_txBuffer st) = content /\
  usb_out_ready (USBUART st)
  = match usb_out_fifo (USBUART st) with [] => false | _ :: _ => true end /\
  usb_in_ready (USBUART st) = true /\
  usb_config_changed (USBUART st) = false /\
  zlength content <= RX_BUFFER_SIZE /\
  packet_sized (USBUART st).

(** [n] consecutive ticks with no call of the public interface in between:
    the host acts before each of them, and at each of them the IN endpoint is
    ready and the OUT endpoint holds at most one packet. *)
Inductive ready_ticks : nat -> state -> state -> Prop :=
| ready_none (st : state) : ready_ticks O st st
| ready_more (n : nat) (st st1 st2 st3 : state) :
    host_step st st1 ->
    USBUART_CDCIsReady (USBUART st1) = true ->
    packet_sized (USBUART st1) ->
    int_usbuart_isr st1 = Done (tt, st2) ->
    ready_ticks n st2 st3 ->
    ready_ticks (S n) st st3.

(** ** The interrupt during a call *)

(** The public functions run with the interrupt enabled except inside their
    critical sections.  What can happen between two of their statements: the
    host or the USB hardware changes what the component answers (never the
    log of the transfers handed over), or the periodic interrupt is
    served. *)
Inductive irq_event : Type :=
| Host (u : usb_t)
| Tick.

(** The host sets what the component answers; the log is the driver's. *)
Definition host_sets (u : usb_t) (st : state) : state :=
  set_USBUART
    (mkUsb (usb_configured u) (usb_config_changed u) (usb_cdc_inits u)
           (usb_out_ready u) (usb_out_fifo u) (usb_in_ready u)
           (usb_in_sent (USBUART st)))
    st.

Definition serve_event (e : irq_event) : M unit :=
  match e with
  | Host u => modify (host_sets u)
  | Tick => int_usbuart_isr
  end.

(** A window between two statements: the events served in it, in order. *)
Fixpoint serve (w : list irq_event) : M unit :=
  match w with
  | [] => ret tt
  | e :: w' => serve_event e ;;; serve w'
  end.

(** Every packet the host delivers in the window fits [_tempBuffer]. *)
Definition window_ok (w : list irq_event) : Prop :=
  forall u, In (Host u) w -> packet_sized u.

(** No interrupt and no host action, at any point of a call or of a
    search. *)
Definition quiet : nat -> list irq_event := fun _ => [].
Definition quiet_search : nat -> nat -> list irq_event := fun _ _ => [].

(** [usbuart_getline] as the source runs it: [w 0], [w 1] and [w 2] are the
    windows before the search (line 212), between the search and the test of
    its result (line 213), and between the test and
    [CyEnterCriticalSection] (line 217).  [usbuart_getline] above is the call
    with no event in any window. *)
Definition usbuart_getline_irq (w : nat -> list irq_event) (data : uint8_ptr)
  : M (Z * uint8_ptr) :=
  match data with
  | NULL => ret (0, NULL)
  | Buf mem =>
    st <- get ;;
    if ringbuf_is_empty (_rxBuffer st) then ret (0, data)
    else
      serve (w 0%nat) ;;;
      st1 <- get ;;
      let line_term_offs :=
        to_uint16 (ringbuf_findchr (_rxBuffer st1) USBUART_LINE_TERMINATOR 0) in
      serve (w 1%nat) ;;;
      st2 <- get ;;
      if line_term_offs =? ringbuf_bytes_used (_rxBuffer st2) then ret (0, data)
      else
        serve (w 2%nat) ;;;
        _init_cdc false ;;;
        bytes <- on_rx (fun rb => ringbuf_memcpy_from rb line_term_offs) ;;
        upd_rx (fun rb => ringbuf_remove_from_tail rb 1) ;;;
        ret (to_uint8 line_term_offs, Buf (store mem bytes))
  end.

(** The critical section of [usbuart_getline]. *)
Definition getline_extract (mem : list byte) (line_term_offs : Z)
  : M (Z * uint8_ptr) :=
  _init_cdc false ;;;
  bytes <- on_rx (fun rb => ringbuf_memcpy_from rb line_term_offs) ;;
  upd_rx (fun rb => ringbuf_remove_from_tail rb 1) ;;;
  ret (to_uint8 line_term_offs, Buf (store mem bytes)).

Section MessagesIrq.

Variable MSG_FIRST_BYTE : byte.
Variable MSG_LAST_BYTE : byte.

(** One pass through the body of [while(!message_found)] as the source runs
    it, with a window before each of its statements: [w 1] is the window
    between the search for the first byte (line 315) and the test of its
    result (line 316). *)
Definition getmsg_scan_irq (w : nat -> list irq_event) : M scan :=
  serve (w 0%nat) ;;;
  st <- get ;;
  let msg_first_byte_offs :=
    to_uint16 (ringbuf_findchr (_rxBuffer st) MSG_FIRST_BYTE 0) in
  serve (w 1%nat) ;;;
  st0 <- get ;;
  if msg_first_byte_offs =? ringbuf_bytes_used (_rxBuffer st0)
  then ret ScanReturn0
  else
    serve (w 2%nat) ;;;
    (if msg_first_byte_offs =? 0 then ret tt
     else upd_rx (fun rb => ringbuf_remove_from_tail rb msg_first_byte_offs)) ;;;
    serve (w 3%nat) ;;;
    st1 <- get ;;
    if ringbuf_bytes_used (_rxBuffer st1) <? MSG_HEADER_LENGTH
    then ret ScanReturn0
    else
      serve (w 4%nat) ;;;
      st2 <- get ;;
      length_byte <-
        lift (ringbuf_peek (_rxBuffer st2) MSG_LENGTH_OFFS_FROM_FIRST_BYTE) ;;
      let msg_length := byte_val length_byte in
      serve (w 5%nat) ;;;
      st3 <- get ;;
      if ringbuf_bytes_used (_rxBuffer st3) <? msg_length
      then ret ScanReturn0
      else
        serve (w 6%nat) ;;;
        st4 <- get ;;
        msg_last_byte <- lift (ringbuf_peek (_rxBuffer st4) (msg_length - 1)) ;;
        if Byte.eqb msg_last_byte MSG_LAST_BYTE
        then ret (ScanFound msg_length)
        else
          serve (w 7%nat) ;;;
          upd_rx (fun rb =>
            ringbuf_remove_from_tail rb MSG_LENGTH_OFFS_FROM_FIRST_BYTE) ;;;
          ret ScanAgain.

(** The search loop, followed for at most [fuel] passes; [sched p] gives the
    windows of pass [p].  Bytes can arrive as fast as the passes discard
    them, so no number of passes is enough for every schedule. *)
Fixpoint getmsg_search_irq (fuel : nat) (sched : nat -> nat -> list irq_event)
         (pass : nat) : M (option Z) :=
  match fuel with
  | O => lift (Fault LoopBound)
  | S fuel' =>
    r <- getmsg_scan_irq (sched pass) ;;
    match r with
    | ScanReturn0 => ret None
    | ScanFound msg_length => ret (Some msg_length)
    | ScanAgain => getmsg_search_irq fuel' sched (S pass)
    end
  end.

(** [usbuart_getmsg] as the source runs it: the search with the interrupt
    enabled, the window [enter] before [CyEnterCriticalSection] (line 343),
    and the critical section.  [usbuart_getmsg] above is the call with no
    event in any window. *)
Definition usbuart_getmsg_irq (fuel : nat)
           (sched : nat -> nat -> list irq_event) (enter : list irq_event)
           (data : uint8_ptr) : M (Z * uint8_ptr) :=
  match data with
  | NULL => ret (0, NULL)
  | Buf mem =>
    st <- get ;;
    if ringbuf_is_empty (_rxBuffer st) then ret (0, data)
    else
      found <- getmsg_search_irq fuel sched 0 ;;
      match found with
      | None => ret (0, data)
      | Some msg_length =>
        serve enter ;;;
        _init_cdc false ;;;
        upd_rx (fun rb => ringbuf_remove_from_tail rb MSG_HEADER_LENGTH) ;;;
        let count := to_uint8 (msg_length - MSG_STRUCTURE_LENGTH) in
        bytes <- on_rx (fun rb => ringbuf_memcpy_from rb count) ;;
        upd_rx (fun rb => ringbuf_remove_from_tail rb MSG_FOOTER_LENGTH) ;;;
        ret (count, Buf (store mem bytes))
      end
  end.

(** How a pass ends, in terms of the bytes [stream] the ring held at its
    start followed by those that arrived during it. *)
Inductive pass_outcome (stream : list byte)
  : outcome (scan * state) -> Prop :=
| pass_absent (st' : state) :
    ~ In MSG_FIRST_BYTE stream ->
    rb_bytes (_rxBuffer st') = stream ->
    state_ok st' ->
    pass_outcome stream (Done (ScanReturn0, st'))
| pass_header (st' : state) (junk : list byte) :
    stream = junk ++ [MSG_FIRST_BYTE] ->
    ~ In MSG_FIRST_BYTE junk ->
    rb_bytes (_rxBuffer st') = [MSG_FIRST_BYTE] ->
    state_ok st' ->
    pass_outcome stream (Done (ScanReturn0, st'))
| pass_incomplete (st' : state) (junk : list byte) (length_byte : byte)
                  (rest : list byte) :
    stream = junk ++ MSG_FIRST_BYTE :: length_byte :: rest ->
    ~ In MSG_FIRST_BYTE junk ->
    zlength rest + 2 < byte_val length_byte ->
    rb_bytes (_rxBuffer st') = MSG_FIRST_BYTE :: length_byte :: rest ->
    state_ok st' ->
    pass_outcome stream (Done (ScanReturn0, st'))
| pass_zero (junk : list byte) (length_byte : byte) (rest : list byte)
            (used : Z) :
    stream = junk ++ MSG_FIRST_BYTE :: length_byte :: rest ->
    ~ In MSG_FIRST_BYTE junk ->
    byte_val length_byte = 0 ->
    pass_outcome stream (Fault (PeekOutside (-1) used))
| pass_found (st' : state) (junk : list byte) (length_byte : byte)
             (rest : list byte) :
    stream = junk ++ MSG_FIRST_BYTE :: length_byte :: rest ->
    ~ In MSG_FIRST_BYTE junk ->
    1 <= byte_val length_byte <= zlength rest + 2 ->
    nth (Z.to_nat (byte_val length_byte - 1))
        (MSG_FIRST_BYTE :: length_byte :: rest) x00 = MSG_LAST_BYTE ->
    rb_bytes (_rxBuffer st') = MSG_FIRST_BYTE :: length_byte :: rest ->
    state_ok st' ->
    pass_outcome stream (Done (ScanFound (byte_val length_byte), st'))
| pass_again (st' : state) (junk : list byte) (length_byte : byte)
             (rest : list byte) :
    stream = junk ++ MSG_FIRST_BYTE :: length_byte :: rest ->
    ~ In MSG_FIRST_BYTE junk ->
    1 <= byte_val length_byte <= zlength rest + 2 ->
    nth (Z.to_nat (byte_val length_byte - 1))
        (MSG_FIRST_BYTE :: length_byte :: rest) x00 <> MSG_LAST_BYTE ->
    rb_bytes (_rxBuffer st') = length_byte :: rest ->
    state_ok st' ->
    pass_outcome stream (Done (ScanAgain, st')).

(** [discards stream kept]: [kept] is what is left of [stream] after
    removing, from its front, bytes that stand before a first byte and first
    bytes whose candidate frame is complete in length and does not end in
    the last byte. *)
Inductive discards : list byte -> list byte -> Prop :=
| discards_none (stream : list byte) : discards stream stream
| discards_junk (junk rest kept : list byte) :
    ~ In MSG_FIRST_BYTE junk ->
    discards (MSG_FIRST_BYTE :: rest) kept ->
    discards (junk ++ MSG_FIRST_BYTE :: rest) kept
| discards_refuted (length_byte : byte) (rest kept : list byte) :
    1 <= byte_val length_byte <= zlength rest + 2 ->
    nth (Z.to_nat (byte_val length_byte - 1))
        (MSG_FIRST_BYTE :: length_byte :: rest) x00 <> MSG_LAST_BYTE ->
    discards (length_byte :: rest) kept ->
    discards (MSG_FIRST_BYTE :: length_byte :: rest) kept.

(** No frame can be located yet in [kept]: it holds no first byte, or it
    starts with a first byte whose frame is not complete. *)
Definition unlocated (kept : list byte) : Prop :=
  ~ In MSG_FIRST_BYTE kept \/
  kept = [MSG_FIRST_BYTE] \/
  exists length_byte rest,
    kept = MSG_FIRST_BYTE :: length_byte :: rest /\
    zlength rest + 2 < byte_val length_byte.

(** How a search of at most [passes] passes ends, in terms of the bytes
    [stream] the ring held at its start followed by those that arrived
    during it.  The bound on the passes is reached only when each of them
    has discarded a first byte. *)
Inductive search_outcome (passes : nat) (stream : list byte)
  : outcome (option Z * state) -> Prop :=
| search_none (st' : state) (kept : list byte) :
    discards stream kept ->
    unlocated kept ->
    rb_bytes (_rxBuffer st') = kept ->
    state_ok st' ->
    search_outcome passes stream (Done (None, st'))
| search_some (st' : state) (length_byte : byte) (rest : list byte) :
    discards stream (MSG_FIRST_BYTE :: length_byte :: rest) ->
    1 <= byte_val length_byte <= zlength rest + 2 ->
    nth (Z.to_nat (byte_val length_byte - 1))
        (MSG_FIRST_BYTE :: length_byte :: rest) x00 = MSG_LAST_BYTE ->
    rb_bytes (_rxBuffer st') = MSG_FIRST_BYTE :: length_byte :: rest ->
    state_ok st' ->
    search_outcome passes stream (Done (Some (byte_val length_byte), st'))
| search_zero (length_byte : byte) (rest : list byte) (used : Z) :
    discards stream (MSG_FIRST_BYTE :: length_byte :: rest) ->
    byte_val length_byte = 0 ->
    search_outcome passes stream (Fault (PeekOutside (-1) used))
| search_bound (kept : list byte) :
    discards stream kept ->
    (length kept + passes <= length stream)%nat ->
    search_outcome passes stream (Fault LoopBound).

(** How a call of [usbuart_getmsg] whose search is followed for at most
    [passes] passes ends, in terms of the bytes [stream] the ring held at
    its start followed by those that arrived during the call: nothing
    located and 0 returned; a frame located and its payload delivered; a
    frame located and the configuration check not returning; a candidate
    with a length byte below the three bytes of header and footer, on which
    the call leaves the contract of the ring buffer; or the bound on the
    passes reached. *)
Inductive getmsg_outcome (passes : nat) (mem stream : list byte)
  : outcome ((Z * uint8_ptr) * state) -> Prop :=
| got_nothing (st' : state) (kept : list byte) :
    discards stream kept ->
    unlocated kept ->
    rb_bytes (_rxBuffer st') = kept ->
    getmsg_outcome passes mem stream (Done ((0, Buf mem), st'))
| got_frame (st' : state) (length_byte : byte) (payload rest : list byte) :
    discards stream
      (MSG_FIRST_BYTE :: length_byte :: payload ++ MSG_LAST_BYTE :: rest) ->
    byte_val length_byte = zlength payload + MSG_STRUCTURE_LENGTH ->
    rb_bytes (_rxBuffer st') = rest ->
    getmsg_outcome passes mem stream
      (Done ((zlength payload, Buf (store mem payload)), st'))
| got_waiting (length_byte : byte) (rest : list byte) :
    discards stream (MSG_FIRST_BYTE :: length_byte :: rest) ->
    1 <= byte_val length_byte <= zlength rest + 2 ->
    nth (Z.to_nat (byte_val length_byte - 1))
        (MSG_FIRST_BYTE :: length_byte :: rest) x00 = MSG_LAST_BYTE ->
    getmsg_outcome passes mem stream Waiting
| got_short (length_byte : byte) (rest : list byte) (f : fault) :
    discards stream (MSG_FIRST_BYTE :: length_byte :: rest) ->
    byte_val length_byte < MSG_STRUCTURE_LENGTH ->
    byte_val length_byte = 0 \/
    nth (Z.to_nat (byte_val length_byte - 1))
        (MSG_FIRST_BYTE :: length_byte :: rest) x00 = MSG_LAST_BYTE ->
    f <> LoopBound ->
    getmsg_outcome passes mem stream (Fault f)
| got_bound (kept : list byte) :
    discards stream kept ->
    (length kept + passes <= length stream)%nat ->
    getmsg_outcome passes mem stream (Fault LoopBound).

End MessagesIrq.

(** How a call of [usbuart_getline] ends, in the same terms. *)
Inductive getline_outcome (mem stream : list byte)
  : outcome ((Z * uint8_ptr) * state) -> Prop :=
| line_nothing (st' : state) :
    ~ In USBUART_LINE_TERMINATOR stream ->
    rb_bytes (_rxBuffer st') = stream ->
    getline_outcome mem stream (Done ((0, Buf mem), st'))
| line_taken (st' : state) (pre post : list byte) :
    stream = pre ++ USBUART_LINE_TERMINATOR :: post ->
    ~ In USBUART_LINE_TERMINATOR pre ->
    rb_bytes (_rxBuffer st') = post ->
    getline_outcome mem stream
      (Done ((zlength pre, Buf (store mem pre)), st'))
| line_waiting (pre post : list byte) :
    stream = pre ++ USBUART_LINE_TERMINATOR :: post ->
    ~ In USBUART_LINE_TERMINATOR pre ->
    getline_outcome mem stream Waiting.

(** ** Sequences of single-byte calls *)

(** [usbuart_putch] for each byte of [bs] in turn. *)
Fixpoint put_bytes (bs : list byte) : M unit :=
  match bs with
  | [] => ret tt
  | b :: bs' => usbuart_putch (Buf [b]) ;;; put_bytes bs'
  end.

(** Up to [n] calls of [usbuart_getch], stopping at the first that returns
    0; the bytes delivered, in the order of the calls. *)
Fixpoint get_bytes (n : nat) : M (list byte) :=
  match n with
  | O => ret []
  | S n' =>
    r <- usbuart_getch (Buf [x00]) ;;
    match r with
    | (count, Buf (b :: _)) =>
      if count =? 0 then ret []
      else rest <- get_bytes n' ;; ret (b :: rest)
    | _ => ret []
    end
  end.

(** ** Packets *)

(** The transfers that [n] ticks with a ready IN endpoint are expected to
    hand over, from the flag and the content of the TX ring: nothing while
    the ring is empty and no zero-length packet is owed; otherwise the next
    (up to) 64 bytes, a full packet leaving a zero-length packet owed. *)
Fixpoint pump_packets (n : nat) (zlp : bool) (tx : list byte)
  : list (list byte) :=
  match n with
  | O => []
  | S n' =>
    match tx, zlp with
    | [], false => pump_packets n' false []
    | _, _ =>
      firstn 64 tx :: pump_packets n' (64 <=? length tx)%nat (skipn 64 tx)
    end
  end.

(** ** The log of IN transfers *)

(** A log in which no transfer exceeds a packet and every zero-length
    transfer directly follows a transfer of a full packet. *)
Definition log_ok (sent : list (list byte)) : Prop :=
  forall older pkt newer,
    sent = older ++ pkt :: newer ->
    zlength pkt <= USBUART_MAX_PACKET_SIZE /\
    (pkt = [] ->
     exists before full,
       older = before ++ [full] /\
       zlength full = USBUART_MAX_PACKET_SIZE).

(** ** Scenarios *)

(** A configured device with nothing received and nothing sent; the IN
    endpoint ready or not. *)
Definition usb_idle : usb_t := mkUsb true false 0 false [] true [].
Definition usb_stalled : usb_t := mkUsb true false 0 false [] false [].

(** A driver state after [usbuart_init], with the given ring contents. *)
Definition scenario (u : usb_t) (rx tx : list byte) (zlp : bool) (reject : Z)
  : state :=
  mkState u (repeat x00 (Z.to_nat USBUART_MAX_PACKET_SIZE))
          (mkRing RX_BUFFER_SIZE rx) (mkRing TX_BUFFER_SIZE tx) zlp reject.

(** S1: a line of 63 bytes, 64 with its terminator, and the state after
    [usbuart_init], [usbuart_putline] and one tick. *)
Definition line63 : list byte := repeat x61 63.
Definition s1_sent : state :=
  mkState (mkUsb true false 1 false [] true [line63 ++ [x0a]])
          (line63 ++ [x0a])
          (mkRing RX_BUFFER_SIZE []) (mkRing TX_BUFFER_SIZE []) true 0.

(** S2: [Hello\nW] in the RX ring. *)
Definition s2_line : state :=
  scenario usb_idle [x48; x65; x6c; x6c; x6f; x0a; x57] [] false 0.

(** S3 and S4 with [MSG_FIRST_BYTE] = 0x02 and [MSG_LAST_BYTE] = 0x03. *)
Definition s3_garbage : state :=
  scenario usb_idle [xff; xff; x02; x06; x41; x42; x43; x03] [] false 0.
Definition s4_false_first : state :=
  scenario usb_idle [x02; x05; x58; x59; x5a; x02; x05; x41; x42; x03]
           [] false 0.

(** S5: 100 bytes in the TX ring, the IN endpoint not ready. *)
Definition s5_stalled : state :=
  scenario usb_stalled [] (repeat x55 100) false 0.

(** S6: the RX ring full, 10 bytes ready at the OUT endpoint. *)
Definition s6_full : state :=
  scenario (mkUsb true false 0 true (repeat x31 10) true [])
           (repeat x30 256) [] false 0.

(** Garbage before a first byte that has no length byte yet. *)
Definition garbage_then_first : state :=
  scenario usb_idle [x41; x02] [] false 0.

(** A first byte followed by a byte that looks like a first byte and starts
    the frame [0x02 0x04 A 0x03]. *)
Definition doubled_first : state :=
  scenario usb_idle [x02; x02; x04; x41; x03] [] false 0.

(** A frame header with the length byte 1, where first and last byte are
    both 0x02. *)
Definition short_length : state :=
  scenario usb_idle [x02; x01; x41] [] false 0.

(** An empty line before [W]. *)
Definition empty_line : state :=
  scenario usb_idle [x0a; x57] [] false 0.

(** A full packet was sent, three bytes are queued, and the IN endpoint has
    rejected the pump 8 times. *)
Definition zlp_owed_stalled : state :=
  mkState (mkUsb true false 1 false [] false [line63 ++ [x0a]])
          (line63 ++ [x0a])
          (mkRing RX_BUFFER_SIZE []) (mkRing TX_BUFFER_SIZE [x61; x62; x63])
          true 8.

(** The line [A] and its terminator already queued in the TX ring. *)
Definition queued_line : state :=
  scenario usb_idle [] [x41; x0a] false 0.

(** S1 after the second tick: the zero-length packet has been sent. *)
Definition s1_closed : state :=
  mkState (mkUsb true false 1 false [] true [line63 ++ [x0a]; []])
          (line63 ++ [x0a])
          (mkRing RX_BUFFER_SIZE []) (mkRing TX_BUFFER_SIZE []) false 0.

(** The TX ring full, the IN endpoint not ready. *)
Definition tx_full_stalled : state :=
  scenario usb_stalled [] (repeat x55 256) false 0.

(** The host has changed the configuration since the last CDC
    initialisation; one byte waits in the RX ring. *)
Definition reconfigured : state :=
  scenario (mkUsb true true 1 false [] true []) [x41] [] false 0.

(** Two full packets queued, the IN endpoint ready. *)
Definition two_packets : state :=
  scenario usb_idle [] (repeat x61 128) false 0.

(** The race of [usbuart_getline]: [ab] in the RX ring, [cd] waiting at the
    OUT endpoint, and the interrupt served between the search and the
    test. *)
Definition race_line : state :=
  scenario (mkUsb true false 0 true [x63; x64] true []) [x61; x62] [] false 0.

Definition tick_before_test (i : nat) : list irq_event :=
  match i with
  | 1%nat => [Tick]
  | _ => []
  end.

(** The first byte of the frame [0x02 0x04 B 0x03] behind [A] in the RX
    ring, the rest of the frame waiting at the OUT endpoint, and the
    interrupt served during the first pass of the search, after the removal
    of [A]. *)
Definition frame_arriving : state :=
  scenario (mkUsb true false 0 true [x04; x42; x03] true [])
           [x41; x02] [] false 0.

Definition tick_in_search (pass i : nat) : list irq_event :=
  match pass, i with
  | O, 3%nat => [Tick]
  | _, _ => []
  end.

(** [A] alone in the RX ring, [X 0x04 B 0x03] waiting at the OUT endpoint,
    and the interrupt served between the first search for the first byte
    and its test. *)
Definition unframed_arriving : state :=
  scenario (mkUsb true false 0 true [x58; x04; x42; x03] true [])
           [x41] [] false 0.

Definition tick_before_first_test (pass i : nat) : list irq_event :=
  match pass, i with
  | O, 1%nat => [Tick]
  | _, _ => []
  end.

(** * Verification *)

(** ** Facts about bytes and lists *)

Lemma byte_val_range (b : byte) : 0 <= byte_val b < 256.
Proof.
  unfold byte_val. pose proof (Byte.to_N_bounded b). lia.
Qed.

Lemma byte_eqb_refl (b : byte) : Byte.eqb b b = true.
Proof. now apply Byte.byte_dec_lb. Qed.

Lemma byte_eqb_neq (a b : byte) : a <> b -> Byte.eqb a b = false.
Proof.
  intros Hne. destruct (Byte.eqb a b) eqn:E; [|reflexivity].
  apply Byte.byte_dec_bl in E. contradiction.
Qed.

Lemma zlength_nonneg {A : Type} (l : list A) : 0 <= zlength l.
Proof. unfold zlength. lia. Qed.

Lemma zlength_app {A : Type} (l1 l2 : list A) :
  zlength (l1 ++ l2) = zlength l1 + zlength l2.
Proof. unfold zlength. rewrite length_app. lia. Qed.

Lemma zlength_cons {A : Type} (a : A) (l : list A) :
  zlength (a :: l) = zlength l + 1.
Proof. unfold zlength. simpl length. lia. Qed.

Lemma zlength_nil {A : Type} : zlength (@nil A) = 0.
Proof. reflexivity. Qed.

Lemma to_nat_zlength {A : Type} (l : list A) : Z.to_nat (zlength l) = length l.
Proof. unfold zlength. lia. Qed.

Lemma firstn_zlength_app {A : Type} (l1 l2 : list A) :
  firstn (Z.to_nat (zlength l1)) (l1 ++ l2) = l1.
Proof.
  rewrite to_nat_zlength, firstn_app, Nat.sub_diag, firstn_all. simpl.
  apply app_nil_r.
Qed.

Lemma skipn_zlength_app {A : Type} (l1 l2 : list A) :
  skipn (Z.to_nat (zlength l1)) (l1 ++ l2) = l2.
Proof.
  rewrite to_nat_zlength, skipn_app, Nat.sub_diag, skipn_all. reflexivity.
Qed.

Lemma to_uint8_small (z : Z) : 0 <= z < 256 -> to_uint8 z = z.
Proof. intros. unfold to_uint8. now apply Z.mod_small. Qed.

Lemma to_uint16_small (z : Z) : 0 <= z < 65536 -> to_uint16 z = z.
Proof. intros. unfold to_uint16. now apply Z.mod_small. Qed.

Lemma MIN_le_l (a b : Z) : MIN a b <= a.
Proof. unfold MIN. destruct (Z.ltb_spec a b); lia. Qed.

Lemma MIN_le_r (a b : Z) : MIN a b <= b.
Proof. unfold MIN. destruct (Z.ltb_spec a b); lia. Qed.

Lemma MIN_nonneg (a b : Z) : 0 <= a -> 0 <= b -> 0 <= MIN a b.
Proof. unfold MIN. destruct (Z.ltb_spec a b); lia. Qed.

(** [find_from] stops at the first occurrence. *)
Lemma find_from_first (c : byte) (pre post : list byte) (i : Z) :
  ~ In c pre ->
  find_from c (pre ++ c :: post) i = i + zlength pre.
Proof.
  revert i. induction pre as [|b pre IH]; intros i Hnot; simpl.
  - rewrite byte_eqb_refl, zlength_nil. lia.
  - rewrite byte_eqb_neq by (intros ->; apply Hnot; now left).
    rewrite IH by (intros Hin; apply Hnot; now right).
    rewrite zlength_cons. lia.
Qed.

(** [find_from] runs to the end when there is no occurrence. *)
Lemma find_from_absent (c : byte) (l : list byte) (i : Z) :
  ~ In c l -> find_from c l i = i + zlength l.
Proof.
  revert i. induction l as [|b l IH]; intros i Hnot; simpl.
  - rewrite zlength_nil. lia.
  - rewrite byte_eqb_neq by (intros ->; apply Hnot; now left).
    rewrite IH by (intros Hin; apply Hnot; now right).
    rewrite zlength_cons. lia.
Qed.

(** Every list either lacks [c] or splits at its first occurrence. *)
Lemma first_occurrence (c : byte) (l : list byte) :
  ~ In c l \/ exists pre post, l = pre ++ c :: post /\ ~ In c pre.
Proof.
  induction l as [|b l IH].
  - left. intros [].
  - destruct (Byte.byte_eq_dec b c) as [->|Hne].
    + right. exists [], l. split; [reflexivity | intros []].
    + destruct IH as [Hnot | (pre & post & -> & Hpre)].
      * left. intros [H|H]; [now apply Hne | now apply Hnot].
      * right. exists (b :: pre), post. split; [reflexivity|].
        intros [H|H]; [now apply Hne | now apply Hpre].
Qed.

Lemma findchr_first (c : byte) (cap : Z) (pre post : list byte) :
  ~ In c pre ->
  ringbuf_findchr (mkRing cap (pre ++ c :: post)) c 0 = zlength pre.
Proof.
  intros Hnot. unfold ringbuf_findchr, ringbuf_bytes_used. simpl rb_bytes.
  rewrite zlength_app, zlength_cons.
  pose proof (zlength_nonneg pre). pose proof (zlength_nonneg post).
  replace (0 <? zlength pre + (zlength post + 1)) with true
    by (symmetry; apply Z.ltb_lt; lia).
  simpl. now rewrite find_from_first.
Qed.

Lemma findchr_absent (c : byte) (rb : ringbuf_t) :
  ~ In c (rb_bytes rb) ->
  ringbuf_findchr rb c 0 = ringbuf_bytes_used rb.
Proof.
  intros Hnot. unfold ringbuf_findchr, ringbuf_bytes_used.
  destruct ((0 <=? 0) && (0 <? zlength (rb_bytes rb))); [|reflexivity].
  simpl. now rewrite find_from_absent.
Qed.

(** ** Facts about the ring primitives inside their contract *)

Lemma memcpy_from_ok (rb : ringbuf_t) (count : Z) :
  0 <= count <= ringbuf_bytes_used rb ->
  ringbuf_memcpy_from rb count =
  Done (firstn (Z.to_nat count) (rb_bytes rb),
        mkRing (rb_capacity rb) (skipn (Z.to_nat count) (rb_bytes rb))).
Proof.
  intros H. unfold ringbuf_memcpy_from.
  replace (0 <=? count) with true by (symmetry; apply Z.leb_le; lia).
  replace (count <=? ringbuf_bytes_used rb) with true
    by (symmetry; apply Z.leb_le; lia).
  reflexivity.
Qed.

Lemma remove_from_tail_ok (rb : ringbuf_t) (count : Z) :
  0 <= count <= ringbuf_bytes_used rb ->
  ringbuf_remove_from_tail rb count =
  Done (mkRing (rb_capacity rb) (skipn (Z.to_nat count) (rb_bytes rb))).
Proof.
  intros H. unfold ringbuf_remove_from_tail.
  replace (0 <=? count) with true by (symmetry; apply Z.leb_le; lia).
  replace (count <=? ringbuf_bytes_used rb) with true
    by (symmetry; apply Z.leb_le; lia).
  reflexivity.
Qed.

Lemma peek_ok (rb : ringbuf_t) (offset : Z) :
  0 <= offset < ringbuf_bytes_used rb ->
  ringbuf_peek rb offset = Done (nth (Z.to_nat offset) (rb_bytes rb) x00).
Proof.
  intros H. unfold ringbuf_peek.
  replace (0 <=? offset) with true by (symmetry; apply Z.leb_le; lia).
  replace (offset <? ringbuf_bytes_used rb) with true
    by (symmetry; apply Z.ltb_lt; lia).
  reflexivity.
Qed.

Lemma peek_outside (rb : ringbuf_t) (offset : Z) :
  offset < 0 \/ ringbuf_bytes_used rb <= offset ->
  ringbuf_peek rb offset = Fault (PeekOutside offset (ringbuf_bytes_used rb)).
Proof.
  intros H. unfold ringbuf_peek.
  destruct (Z.leb_spec 0 offset), (Z.ltb_spec offset (ringbuf_bytes_used rb));
    simpl; try reflexivity; lia.
Qed.

Lemma memcpy_into_ok (rb : ringbuf_t) (src : list byte) :
  zlength src <= ringbuf_bytes_free rb ->
  ringbuf_memcpy_into rb src =
  Done (mkRing (rb_capacity rb) (rb_bytes rb ++ src)).
Proof.
  intros H. unfold ringbuf_memcpy_into.
  replace (zlength src <=? ringbuf_bytes_free rb) with true
    by (symmetry; apply Z.leb_le; lia).
  reflexivity.
Qed.

Lemma load_ok (mem : list byte) (count : Z) :
  0 <= count <= zlength mem ->
  load mem count = Done (firstn (Z.to_nat count) mem).
Proof.
  intros H. unfold load.
  replace (0 <=? count) with true by (symmetry; apply Z.leb_le; lia).
  replace (count <=? zlength mem) with true by (symmetry; apply Z.leb_le; lia).
  reflexivity.
Qed.

Lemma load_store (mem src : list byte) :
  load (store mem src) (zlength src) = Done src.
Proof.
  unfold store. rewrite load_ok.
  - now rewrite firstn_zlength_app.
  - rewrite zlength_app. pose proof (zlength_nonneg src).
    pose proof (zlength_nonneg (skipn (length src) mem)). lia.
Qed.

(** ** The configuration check *)

Lemma init_cdc_checked (st : state) :
  cdc_ready st ->
  _init_cdc false st = Done (tt, set_USBUART (cdc_checked (USBUART st)) st).
Proof.
  unfold cdc_ready, _init_cdc, cdc_checked. intros H.
  destruct (USBUART st) as [conf chg inits oready fifo iready sent].
  simpl in *. destruct chg; simpl; [|reflexivity].
  destruct H as [H|H]; [discriminate|]. subst conf. reflexivity.
Qed.

Lemma cdc_checked_in_sent (u : usb_t) :
  usb_in_sent (cdc_checked u) = usb_in_sent u.
Proof. unfold cdc_checked. destruct (usb_config_changed u); reflexivity. Qed.

Lemma init_cdc_frame (first : bool) (st st' : state) :
  _init_cdc first st = Done (tt, st') ->
  exists u, st' = set_USBUART u st /\ usb_in_sent u = usb_in_sent (USBUART st).
Proof.
  unfold _init_cdc.
  destruct (USBUART st) as [conf chg inits oready fifo iready sent] eqn:EU.
  destruct first; simpl.
  - destruct conf; simpl; [|discriminate].
    intros H. injection H as <-. eexists. split; [reflexivity|]. reflexivity.
  - destruct chg; simpl.
    + destruct conf; simpl; [|discriminate].
      intros H. injection H as <-. eexists. split; [reflexivity|]. reflexivity.
    + intros H. injection H as <-. eexists. split; [reflexivity|]. reflexivity.
Qed.

(** ** Reading a line *)

Ltac unfold_monad :=
  unfold bind, ret, get, modify, lift, on_rx, on_tx, upd_rx, upd_tx.

Lemma used_app_cons (cap : Z) (pre post : list byte) (c : byte) :
  ringbuf_bytes_used (mkRing cap (pre ++ c :: post)) =
  zlength pre + zlength post + 1.
Proof.
  unfold ringbuf_bytes_used. simpl rb_bytes.
  rewrite zlength_app, zlength_cons. lia.
Qed.

(** Without a terminator in the ring the call returns 0 and changes nothing. *)
Lemma getline_no_terminator (mem : list byte) (st : state) :
  state_ok st ->
  ~ In USBUART_LINE_TERMINATOR (rb_bytes (_rxBuffer st)) ->
  usbuart_getline (Buf mem) st = Done ((0, Buf mem), st).
Proof.
  intros [[Hcap Hused] _] Hnot. unfold usbuart_getline. unfold_monad.
  destruct (ringbuf_is_empty (_rxBuffer st)); [reflexivity|].
  rewrite findchr_absent by assumption.
  rewrite to_uint16_small.
  - now rewrite Z.eqb_refl.
  - unfold RX_BUFFER_SIZE in *.
    pose proof (zlength_nonneg (rb_bytes (_rxBuffer st))).
    unfold ringbuf_bytes_used in *. lia.
Qed.

(** With the first terminator at offset [zlength pre], the call delivers
    [pre], removes [pre] and the terminator, and returns [zlength pre]. *)
Lemma getline_first_line (mem pre post : list byte) (st : state) :
  state_ok st ->
  cdc_ready st ->
  rb_bytes (_rxBuffer st) = pre ++ USBUART_LINE_TERMINATOR :: post ->
  ~ In USBUART_LINE_TERMINATOR pre ->
  usbuart_getline (Buf mem) st =
  Done ((zlength pre, Buf (store mem pre)),
        set_rxBuffer (mkRing (rb_capacity (_rxBuffer st)) post)
          (set_USBUART (cdc_checked (USBUART st)) st)).
Proof.
  intros [[Hcap Hused] _] Hcdc Hbytes Hnot.
  unfold usbuart_getline. unfold_monad.
  destruct (_rxBuffer st) as [cap bytes] eqn:Erx. simpl in Hbytes, Hcap. subst bytes.
  rewrite used_app_cons in Hused. unfold RX_BUFFER_SIZE in *.
  pose proof (zlength_nonneg pre) as Hpre.
  pose proof (zlength_nonneg post) as Hpost.
  unfold ringbuf_is_empty. rewrite used_app_cons.
  destruct (Z.eqb_spec (zlength pre + zlength post + 1) 0) as [E|_]; [lia|].
  rewrite findchr_first by assumption.
  rewrite to_uint16_small by lia.
  destruct (Z.eqb_spec (zlength pre) (zlength pre + zlength post + 1)) as [E|_]; [lia|].
  rewrite init_cdc_checked by assumption.
  simpl _rxBuffer. rewrite Erx.
  rewrite memcpy_from_ok by (rewrite used_app_cons; lia).
  simpl rb_bytes. rewrite firstn_zlength_app, skipn_zlength_app.
  simpl _rxBuffer.
  rewrite remove_from_tail_ok
    by (unfold ringbuf_bytes_used; simpl rb_bytes; rewrite zlength_cons; lia).
  simpl. rewrite to_uint8_small by lia. reflexivity.
Qed.

(** ** Searching a message *)

Section MessageSearch.

Variable MSG_FIRST_BYTE : byte.
Variable MSG_LAST_BYTE : byte.

Local Abbreviation scan_pass := (getmsg_scan MSG_FIRST_BYTE MSG_LAST_BYTE).
Local Abbreviation search := (getmsg_search MSG_FIRST_BYTE MSG_LAST_BYTE).
Local Abbreviation getmsg := (usbuart_getmsg MSG_FIRST_BYTE MSG_LAST_BYTE).

Lemma set_rxBuffer_same (st : state) : set_rxBuffer (_rxBuffer st) st = st.
Proof. now destruct st. Qed.

Lemma rx_set_rxBuffer (rb : ringbuf_t) (st : state) :
  _rxBuffer (set_rxBuffer rb st) = rb.
Proof. reflexivity. Qed.

Lemma findchr_front (c : byte) (cap : Z) (post : list byte) :
  ringbuf_findchr (mkRing cap (c :: post)) c 0 = 0.
Proof. apply (findchr_first c cap [] post). intros []. Qed.

Lemma ring_eta (rb : ringbuf_t) : mkRing (rb_capacity rb) (rb_bytes rb) = rb.
Proof. now destruct rb. Qed.

(** A ring without the first byte makes the pass return 0 at once. *)
Lemma scan_absent (st : state) :
  state_ok st ->
  ~ In MSG_FIRST_BYTE (rb_bytes (_rxBuffer st)) ->
  scan_pass st = Done (ScanReturn0, st).
Proof.
  intros [[Hcap Hused] _] Hnot. unfold getmsg_scan. unfold_monad.
  rewrite findchr_absent by assumption.
  rewrite to_uint16_small.
  - now rewrite Z.eqb_refl.
  - unfold RX_BUFFER_SIZE in *.
    pose proof (zlength_nonneg (rb_bytes (_rxBuffer st))).
    unfold ringbuf_bytes_used in *. lia.
Qed.

(** The bytes before the first byte are removed, and the pass goes on as if
    they had never been there. *)
Lemma scan_skips_junk (junk rest : list byte) (st : state) :
  state_ok st ->
  rb_bytes (_rxBuffer st) = junk ++ MSG_FIRST_BYTE :: rest ->
  ~ In MSG_FIRST_BYTE junk ->
  scan_pass st =
  scan_pass (set_rxBuffer (mkRing (rb_capacity (_rxBuffer st))
                                  (MSG_FIRST_BYTE :: rest)) st).
Proof.
  intros [[Hcap Hused] _] Hbytes Hnot.
  destruct junk as [|j junk].
  - simpl in Hbytes. rewrite <- Hbytes, ring_eta, set_rxBuffer_same. reflexivity.
  - unfold getmsg_scan. unfold_monad.
    destruct (_rxBuffer st) as [cap bytes] eqn:Erx. cbn [rb_bytes] in Hbytes.
    cbn [rb_capacity] in Hcap.
    subst bytes. rewrite !rx_set_rxBuffer. cbn [rb_capacity].
    rewrite used_app_cons in *. unfold RX_BUFFER_SIZE in *.
    pose proof (zlength_nonneg junk) as Hjunk.
    pose proof (zlength_nonneg rest) as Hrest.
    rewrite zlength_cons in *.
    rewrite findchr_first by assumption.
    rewrite findchr_front.
    rewrite zlength_cons.
    rewrite to_uint16_small by lia.
    change (to_uint16 0) with 0.
    replace (ringbuf_bytes_used (mkRing cap (MSG_FIRST_BYTE :: rest)))
      with (zlength rest + 1)
      by (unfold ringbuf_bytes_used; simpl rb_bytes; now rewrite zlength_cons).
    destruct (Z.eqb_spec (zlength junk + 1) (zlength junk + 1 + zlength rest + 1));
      [lia|].
    destruct (Z.eqb_spec 0 (zlength rest + 1)); [lia|].
    destruct (Z.eqb_spec (zlength junk + 1) 0); [lia|].
    rewrite Erx.
    rewrite remove_from_tail_ok by (rewrite used_app_cons, zlength_cons; lia).
    cbn [rb_bytes rb_capacity].
    replace (zlength junk + 1) with (zlength (j :: junk))
      by (now rewrite zlength_cons).
    rewrite skipn_zlength_app. simpl. reflexivity.
Qed.

(** The first byte alone is not a header: return 0, nothing removed. *)
Lemma scan_front_short (st : state) :
  state_ok st ->
  rb_bytes (_rxBuffer st) = [MSG_FIRST_BYTE] ->
  scan_pass st = Done (ScanReturn0, st).
Proof.
  intros _ Hbytes. unfold getmsg_scan. unfold_monad.
  destruct (_rxBuffer st) as [cap bytes] eqn:Erx. simpl in Hbytes. subst bytes.
  rewrite findchr_front.
  simpl. rewrite Erx. reflexivity.
Qed.

Section Front.

Variables (length_byte : byte) (rest : list byte) (st : state).
Hypothesis Hok : state_ok st.
Hypothesis Hbytes :
  rb_bytes (_rxBuffer st) = MSG_FIRST_BYTE :: length_byte :: rest.

Lemma front_used : ringbuf_bytes_used (_rxBuffer st) = zlength rest + 2.
Proof.
  unfold ringbuf_bytes_used. rewrite Hbytes, !zlength_cons. lia.
Qed.

(** What the pass does once the first byte is at the front and the length
    byte is in the ring: it reaches the check of the frame length. *)
Lemma scan_front_unfold :
  scan_pass st =
  (let msg_length := byte_val length_byte in
   if ringbuf_bytes_used (_rxBuffer st) <? msg_length
   then ret ScanReturn0
   else
     msg_last_byte <- lift (ringbuf_peek (_rxBuffer st) (msg_length - 1)) ;;
     if Byte.eqb msg_last_byte MSG_LAST_BYTE
     then ret (ScanFound msg_length)
     else
       upd_rx (fun rb =>
         ringbuf_remove_from_tail rb MSG_LENGTH_OFFS_FROM_FIRST_BYTE) ;;;
       ret ScanAgain) st.
Proof.
  pose proof front_used as Hused.
  unfold getmsg_scan at 1. unfold bind at 1. unfold get at 1.
  destruct (_rxBuffer st) as [cap bytes] eqn:Erx. simpl in Hbytes. subst bytes.
  rewrite findchr_front. change (to_uint16 0) with 0.
  pose proof (zlength_nonneg rest) as Hrest.
  rewrite Hused.
  destruct (Z.eqb_spec 0 (zlength rest + 2)); [lia|].
  simpl (0 =? 0). cbv iota.
  unfold bind at 1. unfold ret at 1.
  unfold bind at 1. unfold get at 1.
  rewrite Erx, Hused. unfold MSG_HEADER_LENGTH.
  destruct (Z.ltb_spec (zlength rest + 2) 2); [lia|].
  unfold bind at 1. unfold lift at 1.
  rewrite peek_ok by (rewrite Hused; unfold MSG_LENGTH_OFFS_FROM_FIRST_BYTE; lia).
  reflexivity.
Qed.

(** Fewer bytes than the length byte announces: return 0, nothing removed. *)
Lemma scan_front_incomplete :
  ringbuf_bytes_used (_rxBuffer st) < byte_val length_byte ->
  scan_pass st = Done (ScanReturn0, st).
Proof.
  intros Hlt. rewrite scan_front_unfold. cbv zeta.
  destruct (Z.ltb_spec (ringbuf_bytes_used (_rxBuffer st)) (byte_val length_byte));
    [reflexivity | lia].
Qed.

(** A length byte of 0 makes the pass peek at offset -1. *)
Lemma scan_front_zero :
  byte_val length_byte = 0 ->
  scan_pass st = Fault (PeekOutside (-1) (ringbuf_bytes_used (_rxBuffer st))).
Proof.
  intros Hz. rewrite scan_front_unfold. cbv zeta. rewrite Hz.
  pose proof front_used. pose proof (zlength_nonneg rest).
  destruct (Z.ltb_spec (ringbuf_bytes_used (_rxBuffer st)) 0); [lia|].
  unfold_monad. rewrite peek_outside by lia. reflexivity.
Qed.

(** The footer is where the length byte says: the frame is found, nothing
    removed yet. *)
Lemma scan_front_found :
  1 <= byte_val length_byte <= ringbuf_bytes_used (_rxBuffer st) ->
  nth (Z.to_nat (byte_val length_byte - 1)) (rb_bytes (_rxBuffer st)) x00
    = MSG_LAST_BYTE ->
  scan_pass st = Done (ScanFound (byte_val length_byte), st).
Proof.
  intros Hlen Hlast. rewrite scan_front_unfold. cbv zeta.
  destruct (Z.ltb_spec (ringbuf_bytes_used (_rxBuffer st)) (byte_val length_byte));
    [lia|].
  unfold_monad. rewrite peek_ok by lia. rewrite Hlast, byte_eqb_refl.
  reflexivity.
Qed.

(** The footer is not where the length byte says: exactly the first byte is
    removed, the length byte stays. *)
Lemma scan_front_mismatch :
  1 <= byte_val length_byte <= ringbuf_bytes_used (_rxBuffer st) ->
  nth (Z.to_nat (byte_val length_byte - 1)) (rb_bytes (_rxBuffer st)) x00
    <> MSG_LAST_BYTE ->
  scan_pass st =
  Done (ScanAgain,
        set_rxBuffer (mkRing (rb_capacity (_rxBuffer st)) (length_byte :: rest))
                     st).
Proof.
  intros Hlen Hlast. rewrite scan_front_unfold. cbv zeta.
  destruct (Z.ltb_spec (ringbuf_bytes_used (_rxBuffer st)) (byte_val length_byte));
    [lia|].
  unfold_monad. rewrite peek_ok by lia. rewrite byte_eqb_neq by assumption.
  pose proof front_used. pose proof (zlength_nonneg rest).
  rewrite remove_from_tail_ok by (unfold MSG_LENGTH_OFFS_FROM_FIRST_BYTE; lia).
  rewrite Hbytes. reflexivity.
Qed.

End Front.


(** Replacing the RX ring content keeps a state well formed when the new
    content is not longer. *)
Lemma state_ok_shrink (st : state) (bytes : list byte) :
  state_ok st ->
  zlength bytes <= ringbuf_bytes_used (_rxBuffer st) ->
  state_ok (set_rxBuffer (mkRing (rb_capacity (_rxBuffer st)) bytes) st).
Proof.
  intros [[Hcap Hused] Htx] Hle. split; [|exact Htx].
  split; [exact Hcap|]. unfold ringbuf_bytes_used in *. simpl. lia.
Qed.


Lemma scan_pass_post (st : state) (r : scan) (st' : state) :
  state_ok st ->
  scan_pass st = Done (r, st') ->
  scan_post MSG_FIRST_BYTE MSG_LAST_BYTE st r st'.
Proof.
  intros Hok Hrun.
  destruct (first_occurrence MSG_FIRST_BYTE (rb_bytes (_rxBuffer st)))
    as [Habs | (junk & rest & Hb & Hnot)].
  - rewrite scan_absent in Hrun by assumption. injection Hrun as <- <-.
    exists []. split; [reflexivity|]. split; [|intros []].
    now rewrite ring_eta, set_rxBuffer_same.
  - rewrite (scan_skips_junk junk rest st Hok Hb Hnot) in Hrun.
    set (st1 := set_rxBuffer (mkRing (rb_capacity (_rxBuffer st))
                                     (MSG_FIRST_BYTE :: rest)) st) in *.
    assert (Hok1 : state_ok st1).
    { apply state_ok_shrink; [assumption|].
      unfold ringbuf_bytes_used. rewrite Hb, zlength_app.
      pose proof (zlength_nonneg junk). lia. }
    destruct rest as [|length_byte rest].
    + rewrite scan_front_short in Hrun by (assumption || reflexivity).
      injection Hrun as <- <-. exists junk. split; [exact Hb|].
      split; [reflexivity | assumption].
    + assert (Hb1 : rb_bytes (_rxBuffer st1)
                    = MSG_FIRST_BYTE :: length_byte :: rest) by reflexivity.
      pose proof (front_used length_byte rest st1 Hb1) as Hused1.
      pose proof (byte_val_range length_byte) as Hrange.
      destruct (Z.lt_ge_cases (ringbuf_bytes_used (_rxBuffer st1))
                              (byte_val length_byte)) as [Hshort | Hfits].
      { rewrite (scan_front_incomplete length_byte rest st1 Hb1) in Hrun
          by assumption.
        injection Hrun as <- <-. exists junk. split; [exact Hb|].
        split; [reflexivity | assumption]. }
      destruct (Z.eq_dec (byte_val length_byte) 0) as [Hzero | Hpos].
      { rewrite (scan_front_zero length_byte rest st1 Hb1) in Hrun
          by assumption.
        discriminate. }
      destruct (Byte.byte_eq_dec
                  (nth (Z.to_nat (byte_val length_byte - 1))
                       (rb_bytes (_rxBuffer st1)) x00)
                  MSG_LAST_BYTE) as [Hlast | Hlast].
      { rewrite (scan_front_found length_byte rest st1 Hb1) in Hrun
          by (assumption || lia).
        injection Hrun as <- <-. exists junk. split; [exact Hb|].
        split; [reflexivity|]. split; [assumption|].
        exists length_byte, rest. repeat split; try assumption; lia. }
      { rewrite (scan_front_mismatch length_byte rest st1 Hb1) in Hrun
          by (assumption || lia).
        injection Hrun as <- <-. exists (junk ++ [MSG_FIRST_BYTE]).
        split; [|split].
        - rewrite Hb, <- app_assoc. reflexivity.
        - reflexivity.
        - intros E. apply app_eq_nil in E. destruct E as [_ E]. discriminate. }
Qed.

(** A pass never leaves the loop bound. *)
Lemma scan_pass_no_bound (st : state) :
  state_ok st -> scan_pass st <> Fault LoopBound.
Proof.
  intros Hok.
  destruct (first_occurrence MSG_FIRST_BYTE (rb_bytes (_rxBuffer st)))
    as [Habs | (junk & rest & Hb & Hnot)].
  - rewrite scan_absent by assumption. discriminate.
  - rewrite (scan_skips_junk junk rest st Hok Hb Hnot).
    set (st1 := set_rxBuffer (mkRing (rb_capacity (_rxBuffer st))
                                     (MSG_FIRST_BYTE :: rest)) st) in *.
    assert (Hok1 : state_ok st1).
    { apply state_ok_shrink; [assumption|].
      unfold ringbuf_bytes_used. rewrite Hb, zlength_app.
      pose proof (zlength_nonneg junk). lia. }
    destruct rest as [|length_byte rest].
    + rewrite scan_front_short by (assumption || reflexivity). discriminate.
    + assert (Hb1 : rb_bytes (_rxBuffer st1)
                    = MSG_FIRST_BYTE :: length_byte :: rest) by reflexivity.
      destruct (Z.lt_ge_cases (ringbuf_bytes_used (_rxBuffer st1))
                              (byte_val length_byte)) as [Hshort | Hfits].
      { rewrite (scan_front_incomplete length_byte rest st1 Hb1) by assumption.
        discriminate. }
      destruct (Z.eq_dec (byte_val length_byte) 0) as [Hzero | Hpos].
      { rewrite (scan_front_zero length_byte rest st1 Hb1) by assumption.
        discriminate. }
      pose proof (byte_val_range length_byte) as Hrange.
      destruct (Byte.byte_eq_dec
                  (nth (Z.to_nat (byte_val length_byte - 1))
                       (rb_bytes (_rxBuffer st1)) x00)
                  MSG_LAST_BYTE) as [Hlast | Hlast].
      { rewrite (scan_front_found length_byte rest st1 Hb1)
          by (assumption || lia).
        discriminate. }
      { rewrite (scan_front_mismatch length_byte rest st1 Hb1)
          by (assumption || lia).
        discriminate. }
Qed.



Lemma search_unfold (fuel : nat) (st : state) :
  search (S fuel) st =
  match scan_pass st with
  | Done (ScanReturn0, st') => Done (None, st')
  | Done (ScanFound msg_length, st') => Done (Some msg_length, st')
  | Done (ScanAgain, st') => search fuel st'
  | Waiting => Waiting
  | Fault f => Fault f
  end.
Proof.
  simpl. unfold bind at 1.
  destruct (scan_pass st) as [[[| |] st']| |]; reflexivity.
Qed.

Lemma search_done_post (fuel : nat) :
  forall (st : state) (found : option Z) (st' : state),
    state_ok st ->
    search fuel st = Done (found, st') ->
    search_post MSG_FIRST_BYTE MSG_LAST_BYTE st found st'.
Proof.
  induction fuel as [|fuel IH]; intros st found st' Hok Hrun.
  - discriminate.
  - rewrite search_unfold in Hrun.
    destruct (scan_pass st) as [[r st0]| |] eqn:Escan; try discriminate.
    apply scan_pass_post in Escan; [|assumption].
    destruct Escan as (removed & Hsplit & Hst0 & Hr).
    destruct r.
    + injection Hrun as <- <-. exists removed. auto.
    + injection Hrun as <- <-. exists removed. destruct Hr as [_ Hr]. auto.
    + assert (Hok0 : state_ok st0).
      { rewrite Hst0. apply state_ok_shrink; [assumption|].
        unfold ringbuf_bytes_used. rewrite Hsplit, zlength_app.
        pose proof (zlength_nonneg removed). lia. }
      destruct (IH st0 found st' Hok0 Hrun) as (removed' & Hsplit' & Hst' & Hf).
      exists (removed ++ removed'). split; [|split].
      * rewrite Hsplit, Hsplit', app_assoc. reflexivity.
      * rewrite Hst' at 1. rewrite Hst0. reflexivity.
      * exact Hf.
Qed.

(** One pass more than the ring holds bytes is always enough. *)
Lemma search_fuel_enough (fuel : nat) :
  forall st : state,
    state_ok st ->
    (length (rb_bytes (_rxBuffer st)) < fuel)%nat ->
    search fuel st <> Fault LoopBound.
Proof.
  induction fuel as [|fuel IH]; intros st Hok Hfuel; [lia|].
  rewrite search_unfold.
  destruct (scan_pass st) as [[r st0]| |] eqn:Escan.
  - pose proof (scan_pass_post st r st0 Hok Escan) as (removed & Hsplit & Hst0 & Hr).
    destruct r; try discriminate.
    apply IH.
    + rewrite Hst0. apply state_ok_shrink; [assumption|].
      unfold ringbuf_bytes_used. rewrite Hsplit, zlength_app.
      pose proof (zlength_nonneg removed). lia.
    + rewrite Hsplit, length_app in Hfuel.
      destruct removed; [contradiction|]. simpl in Hfuel. lia.
  - discriminate.
  - intros E. injection E as ->. now apply (scan_pass_no_bound st Hok).
Qed.

(** A ring without the first byte: the search returns at once. *)
Lemma search_absent (fuel : nat) (st : state) :
  state_ok st ->
  ~ In MSG_FIRST_BYTE (rb_bytes (_rxBuffer st)) ->
  search (S fuel) st = Done (None, st).
Proof.
  intros Hok Habs. rewrite search_unfold, scan_absent by assumption.
  reflexivity.
Qed.


Lemma getmsg_unfold (mem : list byte) (st : state) :
  getmsg (Buf mem) st =
  if ringbuf_is_empty (_rxBuffer st) then Done ((0, Buf mem), st)
  else
    match search (S (length (rb_bytes (_rxBuffer st)))) st with
    | Done (None, st') => Done ((0, Buf mem), st')
    | Done (Some msg_length, st') => getmsg_extract mem msg_length st'
    | Waiting => Waiting
    | Fault f => Fault f
    end.
Proof.
  unfold usbuart_getmsg. unfold bind at 1. unfold get at 1.
  destruct (ringbuf_is_empty (_rxBuffer st)); [reflexivity|].
  unfold bind at 1.
  destruct (search _ st) as [[[l|] st']| |]; reflexivity.
Qed.

(** The extraction on a ring that starts with a frame header.  [u] is the
    USBUART component after the configuration check. *)
Lemma extract_unfold (mem : list byte) (msg_length : Z)
      (first length_byte : byte) (rest : list byte) (st : state) :
  cdc_ready st ->
  rb_bytes (_rxBuffer st) = first :: length_byte :: rest ->
  getmsg_extract mem msg_length st =
  (let count := to_uint8 (msg_length - MSG_STRUCTURE_LENGTH) in
   bytes <- on_rx (fun rb => ringbuf_memcpy_from rb count) ;;
   upd_rx (fun rb => ringbuf_remove_from_tail rb MSG_FOOTER_LENGTH) ;;;
   ret (count, Buf (store mem bytes)))
    (set_rxBuffer (mkRing (rb_capacity (_rxBuffer st)) rest)
                  (set_USBUART (cdc_checked (USBUART st)) st)).
Proof.
  intros Hcdc Hb. unfold getmsg_extract.
  unfold bind at 1. rewrite init_cdc_checked by assumption.
  unfold bind at 1. unfold upd_rx at 1.
  rewrite remove_from_tail_ok.
  - cbn [_rxBuffer set_USBUART]. rewrite Hb. reflexivity.
  - cbn [_rxBuffer set_USBUART]. unfold ringbuf_bytes_used. rewrite Hb.
    rewrite !zlength_cons. pose proof (zlength_nonneg rest).
    unfold MSG_HEADER_LENGTH. lia.
Qed.

Lemma extract_waits (mem : list byte) (msg_length : Z) (st : state) :
  ~ cdc_ready st -> getmsg_extract mem msg_length st = Waiting.
Proof.
  intros Hn. unfold getmsg_extract. unfold bind at 1. unfold _init_cdc.
  unfold cdc_ready in Hn.
  destruct (USBUART st) as [conf chg inits oready fifo iready sent].
  simpl in *. destruct chg; [|tauto]. destruct conf; [tauto|]. reflexivity.
Qed.

Lemma cdc_ready_dec (st : state) : cdc_ready st \/ ~ cdc_ready st.
Proof.
  unfold cdc_ready.
  destruct (usb_config_changed (USBUART st)), (usb_configured (USBUART st));
    intuition congruence.
Qed.


Lemma split_at_nth (l : list byte) :
  forall n : nat,
    (n < length l)%nat ->
    l = firstn n l ++ nth n l x00 :: skipn 1 (skipn n l).
Proof.
  induction l as [|b l IH]; intros n Hn; simpl in Hn; [lia|].
  destruct n as [|n]; [reflexivity|].
  simpl. f_equal. apply IH. lia.
Qed.

Lemma zlength_firstn (l : list byte) (n : Z) :
  0 <= n <= zlength l -> zlength (firstn (Z.to_nat n) l) = n.
Proof.
  unfold zlength. intros H. rewrite length_firstn. lia.
Qed.

Lemma zlength_skipn (l : list byte) (n : Z) :
  0 <= n <= zlength l -> zlength (skipn (Z.to_nat n) l) = zlength l - n.
Proof.
  unfold zlength. intros H. rewrite length_skipn. lia.
Qed.

(** The extraction of a frame whose length byte covers header and footer:
    the payload is delivered, header, payload and footer leave the ring. *)
Lemma extract_frame (mem : list byte) (msg_length : Z)
      (first length_byte : byte) (rest : list byte) (st : state) :
  cdc_ready st ->
  rb_bytes (_rxBuffer st) = first :: length_byte :: rest ->
  MSG_STRUCTURE_LENGTH <= msg_length <= zlength rest + 2 ->
  msg_length < 256 ->
  getmsg_extract mem msg_length st =
  Done ((msg_length - MSG_STRUCTURE_LENGTH,
         Buf (store mem
                (firstn (Z.to_nat (msg_length - MSG_STRUCTURE_LENGTH)) rest))),
        set_rxBuffer
          (mkRing (rb_capacity (_rxBuffer st))
             (skipn 1
                (skipn (Z.to_nat (msg_length - MSG_STRUCTURE_LENGTH)) rest)))
          (set_USBUART (cdc_checked (USBUART st)) st)).
Proof.
  intros Hcdc Hb Hlen Hbyte.
  rewrite (extract_unfold mem msg_length first length_byte rest st Hcdc Hb).
  cbv zeta. unfold MSG_STRUCTURE_LENGTH, MSG_HEADER_LENGTH, MSG_FOOTER_LENGTH in *.
  rewrite to_uint8_small by lia.
  unfold bind at 1. unfold on_rx at 1. rewrite rx_set_rxBuffer.
  rewrite memcpy_from_ok by (unfold ringbuf_bytes_used; simpl rb_bytes; lia).
  cbn [rb_bytes rb_capacity].
  unfold bind at 1. unfold upd_rx at 1.
  cbn [_rxBuffer set_rxBuffer].
  rewrite remove_from_tail_ok.
  - reflexivity.
  - unfold ringbuf_bytes_used. cbn [rb_bytes].
    rewrite zlength_skipn by lia. lia.
Qed.

(** The extraction with a length byte of 1 or 2: the payload count wraps to
    [msg_length + 253], and the copy is asked for with that count. *)
Lemma extract_wrapped (mem : list byte) (msg_length : Z)
      (first length_byte : byte) (rest : list byte) (st : state) :
  state_ok st ->
  cdc_ready st ->
  rb_bytes (_rxBuffer st) = first :: length_byte :: rest ->
  1 <= msg_length < MSG_STRUCTURE_LENGTH ->
  getmsg_extract mem msg_length st =
  if zlength rest <? msg_length + 253
  then Fault (CopyFromShort (msg_length + 253) (zlength rest))
  else Fault (RemoveShort MSG_FOOTER_LENGTH 0).
Proof.
  intros [[Hcap Hused] _] Hcdc Hb Hlen.
  rewrite (extract_unfold mem msg_length first length_byte rest st Hcdc Hb).
  cbv zeta. unfold MSG_STRUCTURE_LENGTH, MSG_HEADER_LENGTH, MSG_FOOTER_LENGTH in *.
  replace (to_uint8 (msg_length - (2 + 1))) with (msg_length + 253)
    by (unfold to_uint8;
        replace (msg_length - (2 + 1)) with (msg_length + 253 + (-1) * 256) by lia;
        rewrite Z.mod_add by lia; symmetry; apply Z.mod_small; lia).
  unfold ringbuf_bytes_used, RX_BUFFER_SIZE in Hused. rewrite Hb in Hused.
  rewrite !zlength_cons in Hused. pose proof (zlength_nonneg rest) as Hrest.
  unfold bind at 1. unfold on_rx at 1. rewrite rx_set_rxBuffer.
  destruct (Z.ltb_spec (zlength rest) (msg_length + 253)) as [Hshort | Hfull].
  - unfold ringbuf_memcpy_from, ringbuf_bytes_used. cbn [rb_bytes].
    destruct (Z.leb_spec (msg_length + 253) (zlength rest)); [lia|].
    rewrite andb_false_r. reflexivity.
  - rewrite memcpy_from_ok by (unfold ringbuf_bytes_used; simpl rb_bytes; lia).
    cbn [rb_bytes rb_capacity].
    unfold bind at 1. unfold upd_rx at 1. cbn [_rxBuffer set_rxBuffer].
    unfold ringbuf_remove_from_tail, ringbuf_bytes_used. cbn [rb_bytes].
    rewrite zlength_skipn by lia.
    replace (zlength rest - (msg_length + 253)) with 0 by lia.
    reflexivity.
Qed.

(** Without the first byte in the ring the call returns 0 and changes
    nothing. *)
Lemma getmsg_absent (mem : list byte) (st : state) :
  state_ok st ->
  ~ In MSG_FIRST_BYTE (rb_bytes (_rxBuffer st)) ->
  getmsg (Buf mem) st = Done ((0, Buf mem), st).
Proof.
  intros Hok Habs. rewrite getmsg_unfold.
  destruct (ringbuf_is_empty (_rxBuffer st)); [reflexivity|].
  now rewrite search_absent.
Qed.

(** The call never stops at the loop bound. *)
Lemma getmsg_no_bound (mem : list byte) (st : state) :
  state_ok st -> getmsg (Buf mem) st <> Fault LoopBound.
Proof.
  intros Hok. rewrite getmsg_unfold.
  destruct (ringbuf_is_empty (_rxBuffer st)); [discriminate|].
  destruct (search _ st) as [[[l|] st']| |] eqn:Esearch; try discriminate.
  - unfold getmsg_extract, _init_cdc. unfold_monad.
    destruct (USBUART st') as [conf chg inits oready fifo iready sent].
    unfold ringbuf_remove_from_tail, ringbuf_memcpy_from.
    cbn [USBUART_IsConfigurationChanged USBUART_GetConfiguration fst snd
         usb_config_changed usb_configured].
    repeat match goal with
           | |- context [if ?c then _ else _] => destruct c
           end; discriminate.
  - intros E. injection E as ->.
    apply (search_fuel_enough (S (length (rb_bytes (_rxBuffer st)))) st Hok);
      [lia | assumption].
Qed.

(** What a call that returns has done: it removed bytes from the front of the
    ring only, and a non-zero result is the payload of a well-formed frame
    that was in the ring. *)
Lemma getmsg_done (mem : list byte) (st : state)
      (r : Z) (out : uint8_ptr) (st' : state) :
  state_ok st ->
  getmsg (Buf mem) st = Done ((r, out), st') ->
  (exists removed,
      rb_bytes (_rxBuffer st) = removed ++ rb_bytes (_rxBuffer st')) /\
  (r <> 0 ->
   exists junk length_byte payload,
     rb_bytes (_rxBuffer st) =
       junk ++ MSG_FIRST_BYTE :: length_byte :: payload
            ++ MSG_LAST_BYTE :: rb_bytes (_rxBuffer st') /\
     byte_val length_byte = zlength payload + MSG_STRUCTURE_LENGTH /\
     r = zlength payload /\
     out = Buf (store mem payload)).
Proof.
  intros Hok Hrun. rewrite getmsg_unfold in Hrun.
  destruct (ringbuf_is_empty (_rxBuffer st)).
  { injection Hrun as <- <- <-. split; [now exists [] | congruence]. }
  destruct (search _ st) as [[[l|] st1]| |] eqn:Esearch; try discriminate.
  2:{ injection Hrun as <- <- <-.
      apply search_done_post in Esearch; [|assumption].
      destruct Esearch as (removed & Hsplit & _ & _).
      split; [now exists removed | congruence]. }
  apply search_done_post in Esearch; [|assumption].
  destruct Esearch
    as (removed & Hsplit & Hst1 & lb & rest & Hb1 & Hl & Hlen & Hlast).
  assert (Hok1 : state_ok st1).
  { rewrite Hst1. apply state_ok_shrink; [assumption|].
    unfold ringbuf_bytes_used. rewrite Hsplit, zlength_app.
    pose proof (zlength_nonneg removed). lia. }
  destruct (cdc_ready_dec st1) as [Hcdc | Hcdc];
    [|rewrite extract_waits in Hrun by assumption; discriminate].
  pose proof (byte_val_range lb) as Hrange.
  pose proof (zlength_nonneg rest) as Hrest.
  destruct (Z_lt_ge_dec l MSG_STRUCTURE_LENGTH) as [Hsmall | Hbig].
  { rewrite (extract_wrapped mem l MSG_FIRST_BYTE lb rest st1 Hok1 Hcdc Hb1)
      in Hrun by lia.
    destruct (zlength rest <? l + 253); discriminate. }
  rewrite (extract_frame mem l MSG_FIRST_BYTE lb rest st1 Hcdc Hb1) in Hrun
    by lia.
  injection Hrun as <- <- <-. cbn [_rxBuffer set_rxBuffer rb_bytes].
  unfold MSG_STRUCTURE_LENGTH, MSG_HEADER_LENGTH, MSG_FOOTER_LENGTH in *.
  assert (Hnth : nth (Z.to_nat (l - (2 + 1))) rest x00 = MSG_LAST_BYTE).
  { rewrite Hb1 in Hlast.
    replace (Z.to_nat (l - 1)) with (S (S (Z.to_nat (l - (2 + 1))))) in Hlast
      by lia.
    exact Hlast. }
  assert (Hrest_split :
            rest = firstn (Z.to_nat (l - (2 + 1))) rest
                   ++ MSG_LAST_BYTE
                   :: skipn 1 (skipn (Z.to_nat (l - (2 + 1))) rest)).
  { rewrite <- Hnth. apply split_at_nth. unfold zlength in *. lia. }
  split.
  - exists (removed ++ MSG_FIRST_BYTE :: lb
                    :: firstn (Z.to_nat (l - (2 + 1))) rest ++ [MSG_LAST_BYTE]).
    rewrite Hsplit, Hb1. rewrite Hrest_split at 1.
    rewrite <- !app_assoc. simpl. rewrite <- !app_assoc. reflexivity.
  - intros _. exists removed, lb, (firstn (Z.to_nat (l - (2 + 1))) rest).
    rewrite zlength_firstn by lia.
    split; [|split; [lia | split; reflexivity]].
    rewrite Hsplit, Hb1. rewrite Hrest_split at 1. reflexivity.
Qed.

End MessageSearch.

(** ** The interrupt *)

(** Nothing to receive, or no room for it: the receive pump does nothing. *)
Lemma rx_isr_idle (st : state) :
  USBUART_DataIsReady (USBUART st) = false \/
  ringbuf_bytes_free (_rxBuffer st) < USBUART_GetCount (USBUART st) ->
  _usbuart_rx_isr st = Done (tt, st).
Proof.
  intros H. unfold _usbuart_rx_isr. unfold_monad.
  destruct (USBUART_DataIsReady (USBUART st)); [|reflexivity].
  destruct H as [H|H]; [discriminate|].
  destruct (Z.leb_spec (USBUART_GetCount (USBUART st))
                       (ringbuf_bytes_free (_rxBuffer st))); [lia|].
  reflexivity.
Qed.

(** Data is ready and the ring has room: the receive pump drains the OUT
    endpoint through the scratch buffer into the ring. *)
Lemma rx_isr_drain (st : state) :
  USBUART_DataIsReady (USBUART st) = true ->
  USBUART_GetCount (USBUART st) <= ringbuf_bytes_free (_rxBuffer st) ->
  USBUART_GetCount (USBUART st) < 65536 ->
  _usbuart_rx_isr st =
  Done (tt,
        set_rxBuffer
          (mkRing (rb_capacity (_rxBuffer st))
                  (rb_bytes (_rxBuffer st) ++ usb_out_fifo (USBUART st)))
          (set_tempBuffer (store (_tempBuffer st) (usb_out_fifo (USBUART st)))
             (set_USBUART (snd (USBUART_GetAll (USBUART st))) st))).
Proof.
  intros Hready Hfits Hsmall. unfold _usbuart_rx_isr. unfold_monad.
  rewrite Hready.
  destruct (Z.leb_spec (USBUART_GetCount (USBUART st))
                       (ringbuf_bytes_free (_rxBuffer st))); [|lia].
  unfold USBUART_GetCount in *. cbn [USBUART_GetAll fst snd].
  pose proof (zlength_nonneg (usb_out_fifo (USBUART st))).
  rewrite to_uint16_small by lia.
  cbn [_tempBuffer set_tempBuffer set_USBUART]. rewrite load_store.
  cbn [_rxBuffer set_tempBuffer set_USBUART].
  rewrite memcpy_into_ok by assumption. reflexivity.
Qed.

(** The receive pump always finishes, and it leaves the transmit side and
    the log of IN transfers alone. *)
Lemma rx_isr_total (st : state) :
  exists st',
    _usbuart_rx_isr st = Done (tt, st') /\
    _txBuffer st' = _txBuffer st /\
    _txZlpRequired st' = _txZlpRequired st /\
    _txReject st' = _txReject st /\
    usb_in_sent (USBUART st') = usb_in_sent (USBUART st) /\
    usb_in_ready (USBUART st') = usb_in_ready (USBUART st).
Proof.
  unfold _usbuart_rx_isr. unfold_monad.
  destruct (USBUART_DataIsReady (USBUART st));
    [|exists st; repeat split; reflexivity].
  destruct (Z.leb_spec (USBUART_GetCount (USBUART st))
                       (ringbuf_bytes_free (_rxBuffer st))) as [Hfits|];
    [|exists st; repeat split; reflexivity].
  unfold USBUART_GetCount in *. cbn [USBUART_GetAll fst snd].
  set (fifo := usb_out_fifo (USBUART st)) in *.
  set (count := to_uint16 (zlength fifo)).
  assert (Hcount : 0 <= count <= zlength fifo).
  { unfold count, to_uint16. pose proof (zlength_nonneg fifo).
    pose proof (Z.mod_pos_bound (zlength fifo) 65536).
    pose proof (Z.mod_le (zlength fifo) 65536). lia. }
  cbn [_tempBuffer set_tempBuffer set_USBUART].
  rewrite load_ok.
  2:{ unfold store. rewrite zlength_app.
      pose proof (zlength_nonneg (skipn (length fifo) (_tempBuffer st))). lia. }
  cbn [_rxBuffer set_tempBuffer set_USBUART].
  rewrite memcpy_into_ok.
  2:{ unfold zlength. rewrite length_firstn. unfold zlength in *. lia. }
  eexists. split; [reflexivity|]. repeat split; reflexivity.
Qed.

(** Nothing queued and no zero-length packet owed: the transmit pump does
    nothing. *)
Lemma tx_isr_idle (st : state) :
  ringbuf_is_empty (_txBuffer st) = true ->
  _txZlpRequired st = false ->
  _usbuart_tx_isr st = Done (tt, st).
Proof.
  intros He Hz. unfold _usbuart_tx_isr. unfold_monad.
  rewrite He, Hz. reflexivity.
Qed.

(** The transmit branch: [N = MIN(bytes_used, 64)] bytes leave the ring and
    are handed over as the next IN transfer, the flag becomes [N == 64], the
    reject counter 0. *)
Lemma tx_isr_send (st : state) :
  transmits st ->
  _usbuart_tx_isr st =
  let count := MIN (ringbuf_bytes_used (_txBuffer st)) USBUART_MAX_PACKET_SIZE in
  let pkt := firstn (Z.to_nat count) (rb_bytes (_txBuffer st)) in
  Done (tt,
        set_txReject 0
          (set_txZlpRequired (count =? USBUART_MAX_PACKET_SIZE)
             (set_USBUART (USBUART_PutData (USBUART st) pkt)
                (set_tempBuffer (store (_tempBuffer st) pkt)
                   (set_txBuffer
                      (mkRing (rb_capacity (_txBuffer st))
                              (skipn (Z.to_nat count) (rb_bytes (_txBuffer st))))
                      st))))).
Proof.
  intros [Hwork Hready]. unfold _usbuart_tx_isr. unfold_monad.
  replace (negb (ringbuf_is_empty (_txBuffer st)) || _txZlpRequired st)
    with true
    by (destruct Hwork as [-> | ->]; [reflexivity | now rewrite orb_true_r]).
  rewrite Hready.
  pose proof (zlength_nonneg (rb_bytes (_txBuffer st))) as Hused.
  fold (ringbuf_bytes_used (_txBuffer st)) in Hused.
  pose proof (MIN_le_l (ringbuf_bytes_used (_txBuffer st))
                       USBUART_MAX_PACKET_SIZE) as Hl.
  pose proof (MIN_le_r (ringbuf_bytes_used (_txBuffer st))
                       USBUART_MAX_PACKET_SIZE) as Hr.
  assert (Hn : 0 <= MIN (ringbuf_bytes_used (_txBuffer st))
                        USBUART_MAX_PACKET_SIZE)
    by (apply MIN_nonneg; [assumption | unfold USBUART_MAX_PACKET_SIZE; lia]).
  set (count := MIN (ringbuf_bytes_used (_txBuffer st))
                    USBUART_MAX_PACKET_SIZE) in *.
  assert (Hr' : count <= 64) by exact Hr.
  rewrite to_uint16_small by lia.
  rewrite memcpy_from_ok by lia.
  cbn [_tempBuffer set_tempBuffer set_txBuffer].
  set (pkt := firstn (Z.to_nat count) (rb_bytes (_txBuffer st))).
  assert (Hpkt : zlength pkt = count).
  { unfold pkt, zlength. rewrite length_firstn.
    unfold ringbuf_bytes_used, zlength in *. lia. }
  rewrite <- Hpkt at 1. rewrite load_store. reflexivity.
Qed.

(** The reject branch: the counter goes up by one; past [TX_MAX_REJECT] the
    ring is reset and the counter cleared.  The flag is not written. *)
Lemma tx_isr_reject (st : state) :
  ringbuf_is_empty (_txBuffer st) = false \/ _txZlpRequired st = true ->
  USBUART_CDCIsReady (USBUART st) = false ->
  _usbuart_tx_isr st =
  let reject := to_uint8 (_txReject st + 1) in
  Done (tt,
        if reject >? TX_MAX_REJECT
        then set_txReject 0
               (set_txBuffer (ringbuf_reset (_txBuffer st))
                  (set_txReject reject st))
        else set_txReject reject st).
Proof.
  intros Hwork Hready. unfold _usbuart_tx_isr. unfold_monad.
  replace (negb (ringbuf_is_empty (_txBuffer st)) || _txZlpRequired st)
    with true
    by (destruct Hwork as [-> | ->]; [reflexivity | now rewrite orb_true_r]).
  rewrite Hready. cbv zeta.
  destruct (to_uint8 (_txReject st + 1) >? TX_MAX_REJECT); reflexivity.
Qed.

(** The transmit pump always finishes and leaves the receive side alone. *)
Lemma tx_isr_total (st : state) :
  exists st',
    _usbuart_tx_isr st = Done (tt, st') /\
    _rxBuffer st' = _rxBuffer st /\
    usb_out_ready (USBUART st') = usb_out_ready (USBUART st) /\
    usb_out_fifo (USBUART st') = usb_out_fifo (USBUART st).
Proof.
  destruct (ringbuf_is_empty (_txBuffer st)) eqn:He,
           (_txZlpRequired st) eqn:Hz,
           (USBUART_CDCIsReady (USBUART st)) eqn:Hr;
    try (rewrite tx_isr_idle by assumption;
         exists st; repeat split; reflexivity);
    try (rewrite tx_isr_send by (split; [auto | assumption]);
         eexists; split; [reflexivity|]; repeat split; reflexivity);
    (rewrite tx_isr_reject by auto; cbv zeta;
     destruct (to_uint8 (_txReject st + 1) >? TX_MAX_REJECT);
     eexists; split; try reflexivity; repeat split; reflexivity).
Qed.

Lemma isr_unfold (st : state) :
  int_usbuart_isr st =
  match _usbuart_rx_isr st with
  | Done (_, st1) => _usbuart_tx_isr st1
  | Waiting => Waiting
  | Fault f => Fault f
  end.
Proof. reflexivity. Qed.

(** A tick always finishes. *)
Lemma isr_total (st : state) :
  exists st', int_usbuart_isr st = Done (tt, st').
Proof.
  rewrite isr_unfold.
  destruct (rx_isr_total st) as (st1 & -> & _).
  destruct (tx_isr_total st1) as (st2 & -> & _).
  now exists st2.
Qed.

(** ** What the public interface leaves alone *)

Lemma tx_side_kept_refl (st : state) : tx_side_kept st st.
Proof. repeat split. Qed.

Lemma tx_side_kept_trans (st1 st2 st3 : state) :
  tx_side_kept st1 st2 -> tx_side_kept st2 st3 -> tx_side_kept st1 st3.
Proof.
  unfold tx_side_kept. intros (H1 & H2 & H3) (H4 & H5 & H6).
  repeat split; congruence.
Qed.

Lemma keeps_ret {A : Type} (a : A) : keeps (ret a).
Proof.
  intros st a' st' H. injection H as <- <-. apply tx_side_kept_refl.
Qed.

Lemma keeps_get : keeps get.
Proof.
  intros st a' st' H. injection H as <- <-. apply tx_side_kept_refl.
Qed.

Lemma keeps_bind {A B : Type} (m : M A) (k : A -> M B) :
  keeps m -> (forall a, keeps (k a)) -> keeps (bind m k).
Proof.
  intros Hm Hk st b st' H. unfold bind in H.
  destruct (m st) as [[a st1]| |] eqn:E; try discriminate.
  eapply tx_side_kept_trans; [eapply Hm | eapply Hk]; eassumption.
Qed.

Lemma keeps_lift {A : Type} (o : outcome A) : keeps (lift o).
Proof.
  intros st a st' H. unfold lift in H. destruct o; try discriminate.
  injection H as <- <-. apply tx_side_kept_refl.
Qed.

Lemma keeps_waiting {A : Type} : keeps (fun _ : state => @Waiting (A * state)).
Proof. intros st a st' H. discriminate. Qed.

Lemma keeps_on_rx {A : Type} (f : ringbuf_t -> outcome (A * ringbuf_t)) :
  keeps (on_rx f).
Proof.
  intros st a st' H. unfold on_rx in H.
  destruct (f (_rxBuffer st)) as [[a' rb]| |]; try discriminate.
  injection H as <- <-. repeat split.
Qed.

Lemma keeps_upd_rx (f : ringbuf_t -> outcome ringbuf_t) : keeps (upd_rx f).
Proof.
  intros st [] st' H. unfold upd_rx in H.
  destruct (f (_rxBuffer st)) as [rb| |]; try discriminate.
  injection H as <-. repeat split.
Qed.

Lemma keeps_upd_tx (f : ringbuf_t -> outcome ringbuf_t) : keeps (upd_tx f).
Proof.
  intros st [] st' H. unfold upd_tx in H.
  destruct (f (_txBuffer st)) as [rb| |]; try discriminate.
  injection H as <-. repeat split.
Qed.

Lemma keeps_set_rxBuffer (rb : ringbuf_t) : keeps (modify (set_rxBuffer rb)).
Proof. intros st [] st' H. injection H as <-. repeat split. Qed.

Lemma keeps_set_txBuffer (rb : ringbuf_t) : keeps (modify (set_txBuffer rb)).
Proof. intros st [] st' H. injection H as <-. repeat split. Qed.

Lemma keeps_USBUART_Start :
  keeps (modify (fun s => set_USBUART (USBUART_Start (USBUART s)) s)).
Proof. intros st [] st' H. injection H as <-. repeat split. Qed.

Lemma keeps_init_cdc (first_init : bool) : keeps (_init_cdc first_init).
Proof.
  intros st [] st' H. apply init_cdc_frame in H.
  destruct H as (u & -> & Hsent). repeat split. exact Hsent.
Qed.

Lemma keeps_wait_tx_free (needed : Z) : keeps (wait_tx_free needed).
Proof.
  unfold wait_tx_free. apply keeps_bind; [apply keeps_init_cdc | intros _].
  apply keeps_bind; [apply keeps_get | intros st].
  destruct (ringbuf_bytes_free (_txBuffer st) >=? needed);
    [apply keeps_ret | apply keeps_waiting].
Qed.

Create HintDb keeps.

#[local] Hint Resolve keeps_ret keeps_get keeps_lift keeps_on_rx keeps_upd_rx
  keeps_upd_tx keeps_set_rxBuffer keeps_set_txBuffer keeps_init_cdc
  keeps_USBUART_Start
  keeps_wait_tx_free : keeps.

(** Splitting a sequence of driver steps into its steps. *)
Ltac keeps_steps :=
  repeat first
    [ solve [auto with keeps]
    | apply keeps_bind; [|intros ?]
    | match goal with
      | |- keeps (if ?c then _ else _) => destruct c
      | |- keeps (match ?d with _ => _ end) => destruct d
      end ].

Lemma keeps_usbuart_init : keeps usbuart_init.
Proof.
  unfold usbuart_init. keeps_steps.
Qed.

Lemma keeps_usbuart_getch (data : uint8_ptr) : keeps (usbuart_getch data).
Proof. unfold usbuart_getch. keeps_steps. Qed.

Lemma keeps_usbuart_putch (data : uint8_ptr) : keeps (usbuart_putch data).
Proof. unfold usbuart_putch. keeps_steps. Qed.

Lemma keeps_usbuart_getline (data : uint8_ptr) : keeps (usbuart_getline data).
Proof. unfold usbuart_getline. keeps_steps. Qed.

Lemma keeps_usbuart_putline (data : uint8_ptr) (count : Z) :
  keeps (usbuart_putline data count).
Proof. unfold usbuart_putline. keeps_steps. Qed.

Section MessageFrame.

Variable MSG_FIRST_BYTE : byte.
Variable MSG_LAST_BYTE : byte.

Lemma keeps_getmsg_scan : keeps (getmsg_scan MSG_FIRST_BYTE MSG_LAST_BYTE).
Proof. unfold getmsg_scan. keeps_steps. Qed.

Lemma keeps_getmsg_search (fuel : nat) :
  keeps (getmsg_search MSG_FIRST_BYTE MSG_LAST_BYTE fuel).
Proof.
  induction fuel as [|fuel IH]; simpl.
  - apply keeps_lift.
  - apply keeps_bind; [apply keeps_getmsg_scan | intros r].
    destruct r; auto with keeps.
Qed.

Lemma keeps_usbuart_getmsg (data : uint8_ptr) :
  keeps (usbuart_getmsg MSG_FIRST_BYTE MSG_LAST_BYTE data).
Proof.
  pose proof keeps_getmsg_search.
  unfold usbuart_getmsg. keeps_steps.
Qed.

Lemma keeps_usbuart_putmsg (data : uint8_ptr) (count : Z) :
  keeps (usbuart_putmsg MSG_FIRST_BYTE MSG_LAST_BYTE data count).
Proof. unfold usbuart_putmsg. keeps_steps. Qed.

(** No call of the public interface writes the flag, the reject counter or
    the log of IN transfers. *)
Lemma run_call_keeps (c : api_call) (st st' : state) :
  run_call MSG_FIRST_BYTE MSG_LAST_BYTE c st = Done st' ->
  tx_side_kept st st'.
Proof.
  destruct c; simpl; unfold final;
    match goal with
    | |- match ?call st with _ => _ end = _ -> _ =>
        destruct (call st) as [[a st1]| |] eqn:E; try discriminate;
        intros H; injection H as <-
    end.
  - eapply keeps_usbuart_init; eassumption.
  - eapply keeps_usbuart_getch; eassumption.
  - eapply keeps_usbuart_putch; eassumption.
  - eapply keeps_usbuart_getline; eassumption.
  - eapply keeps_usbuart_putline; eassumption.
  - eapply keeps_usbuart_getmsg; eassumption.
  - eapply keeps_usbuart_putmsg; eassumption.
Qed.

End MessageFrame.

(** ** Lines *)

Lemma getline_waits (mem pre post : list byte) (st : state) :
  state_ok st ->
  ~ cdc_ready st ->
  rb_bytes (_rxBuffer st) = pre ++ USBUART_LINE_TERMINATOR :: post ->
  ~ In USBUART_LINE_TERMINATOR pre ->
  usbuart_getline (Buf mem) st = Waiting.
Proof.
  intros [[Hcap Hused] _] Hcdc Hbytes Hnot.
  unfold usbuart_getline. unfold_monad.
  destruct (_rxBuffer st) as [cap bytes] eqn:Erx. simpl in Hbytes, Hcap.
  subst bytes. rewrite used_app_cons in Hused. unfold RX_BUFFER_SIZE in *.
  pose proof (zlength_nonneg pre) as Hpre.
  pose proof (zlength_nonneg post) as Hpost.
  unfold ringbuf_is_empty. rewrite used_app_cons.
  destruct (Z.eqb_spec (zlength pre + zlength post + 1) 0) as [E|_]; [lia|].
  rewrite findchr_first by assumption.
  rewrite to_uint16_small by lia.
  destruct (Z.eqb_spec (zlength pre) (zlength pre + zlength post + 1)) as [E|_];
    [lia|].
  unfold _init_cdc. unfold cdc_ready in Hcdc.
  destruct (USBUART st) as [conf chg inits oready fifo iready sent].
  simpl in *. destruct chg; [|tauto]. destruct conf; [tauto|]. reflexivity.
Qed.

(** C9 -- empty-line edge case.  For a non-null [data], when the first byte
    of the RX ring is the line terminator, [usbuart_getline] returns 0 -- as
    it does without any terminator -- writes nothing to [data], and yet
    removes that terminator byte: the ring is one byte shorter, so the state
    is not the one before the call. *)
Theorem usbuart_getline_empty_line (mem post : list byte) (st : state) :
  state_ok st ->
  cdc_ready st ->
  rb_bytes (_rxBuffer st) = USBUART_LINE_TERMINATOR :: post ->
  exists st',
    usbuart_getline (Buf mem) st = Done ((0, Buf mem), st') /\
    rb_bytes (_rxBuffer st') = post /\
    ringbuf_bytes_used (_rxBuffer st')
    = ringbuf_bytes_used (_rxBuffer st) - 1 /\
    st' <> st.
Proof.
  intros Hok Hcdc Hb.
  rewrite (getline_first_line mem [] post st Hok Hcdc Hb) by (intros []).
  eexists. split; [reflexivity|]. cbn [_rxBuffer set_rxBuffer rb_bytes].
  split; [reflexivity|]. split.
  - unfold ringbuf_bytes_used. cbn [rb_bytes]. rewrite Hb, zlength_cons. lia.
  - intros E. apply (f_equal (fun s => length (rb_bytes (_rxBuffer s)))) in E.
    cbn [_rxBuffer set_rxBuffer rb_bytes] in E. rewrite Hb in E.
    simpl in E. lia.
Qed.

(** What [usbuart_putline] does when the configuration check returns and
    the ring has room: the line and the terminator are queued. *)
Lemma putline_enqueues (s rest : list byte) (st : state) :
  cdc_ready st ->
  1 <= zlength s < 256 ->
  zlength s + 1 <= ringbuf_bytes_free (_txBuffer st) ->
  usbuart_putline (Buf (s ++ rest)) (zlength s) st =
  Done (tt,
        set_txBuffer
          (mkRing (rb_capacity (_txBuffer st))
                  (rb_bytes (_txBuffer st) ++ s ++ [USBUART_LINE_TERMINATOR]))
          (set_USBUART (cdc_checked (USBUART st)) st)).
Proof.
  intros Hcdc Hlen Hfree. unfold usbuart_putline.
  rewrite to_uint8_small by lia.
  destruct (Z.leb_spec (zlength s) 0); [lia|].
  unfold wait_tx_free. unfold_monad.
  rewrite init_cdc_checked by assumption.
  cbn [_txBuffer set_USBUART].
  destruct (Z.geb_spec (ringbuf_bytes_free (_txBuffer st)) (zlength s + 1));
    [|lia].
  rewrite load_ok by (rewrite zlength_app; pose proof (zlength_nonneg rest); lia).
  rewrite firstn_zlength_app.
  cbn [_txBuffer set_USBUART].
  rewrite memcpy_into_ok by lia.
  cbn [_txBuffer set_txBuffer].
  rewrite memcpy_into_ok.
  - cbn [rb_bytes rb_capacity]. rewrite <- app_assoc. reflexivity.
  - unfold ringbuf_bytes_free, ringbuf_bytes_used in *. cbn [rb_bytes rb_capacity].
    rewrite zlength_app. change (zlength [USBUART_LINE_TERMINATOR]) with 1. lia.
Qed.

(** What the loopback does in a well-formed state. *)
Lemma loopback_moves (st : state) :
  state_ok st ->
  loopback st =
  Done (tt,
        set_txBuffer (mkRing (rb_capacity (_txBuffer st)) [])
          (set_rxBuffer (mkRing (rb_capacity (_rxBuffer st))
                                (rb_bytes (_txBuffer st))) st)).
Proof.
  intros [[Hrcap _] [_ Htused]]. unfold loopback. unfold_monad.
  rewrite memcpy_into_ok.
  - reflexivity.
  - unfold ringbuf_bytes_free, ringbuf_bytes_used, ringbuf_reset in *.
    cbn [rb_bytes rb_capacity]. rewrite Hrcap.
    unfold RX_BUFFER_SIZE, TX_BUFFER_SIZE in *. rewrite zlength_nil. lia.
Qed.

(** C5, as amended -- line round trip.  For every line [s] of at least one
    byte, none of them the terminator, with [len(s) + 1] bytes free in the TX
    ring: [usbuart_putline(s, len(s))] returns, having queued [s] and the
    terminator behind what the TX ring held; the loopback brings all the
    bytes of the TX ring into an empty RX ring; and [usbuart_getline] then
    delivers the first line of these bytes.  With the TX ring empty before
    the call this is exactly [s], with the return value [len(s)].  With
    bytes queued before the call it is another line: those bytes followed by
    [s] when none of them is a terminator, and otherwise the bytes before
    their first terminator, [s] staying in the RX ring.  The loopback stands
    for the servicer and the host, so no interrupt is served during the
    calls. *)
Theorem putline_getline_roundtrip (s mem : list byte) (st : state) :
  state_ok st ->
  cdc_ready st ->
  1 <= zlength s ->
  zlength s + 1 <= ringbuf_bytes_free (_txBuffer st) ->
  ~ In USBUART_LINE_TERMINATOR s ->
  exists st1 st2,
    usbuart_putline (Buf s) (zlength s) st = Done (tt, st1) /\
    rb_bytes (_txBuffer st1)
    = rb_bytes (_txBuffer st) ++ s ++ [USBUART_LINE_TERMINATOR] /\
    loopback st1 = Done (tt, st2) /\
    rb_bytes (_rxBuffer st2) = rb_bytes (_txBuffer st1) /\
    rb_bytes (_txBuffer st2) = [] /\
    (rb_bytes (_txBuffer st) = [] ->
     exists st3,
       usbuart_getline (Buf mem) st2
       = Done ((zlength s, Buf (s ++ skipn (length s) mem)), st3) /\
       rb_bytes (_rxBuffer st3) = []) /\
    (~ In USBUART_LINE_TERMINATOR (rb_bytes (_txBuffer st)) ->
     exists st3,
       usbuart_getline (Buf mem) st2
       = Done ((zlength (rb_bytes (_txBuffer st)) + zlength s,
                Buf (store mem (rb_bytes (_txBuffer st) ++ s))), st3) /\
       rb_bytes (_rxBuffer st3) = []) /\
    (forall pre post,
        rb_bytes (_txBuffer st) = pre ++ USBUART_LINE_TERMINATOR :: post ->
        ~ In USBUART_LINE_TERMINATOR pre ->
        exists st3,
          usbuart_getline (Buf mem) st2
          = Done ((zlength pre, Buf (store mem pre)), st3) /\
          rb_bytes (_rxBuffer st3)
          = post ++ s ++ [USBUART_LINE_TERMINATOR]).
Proof.
  intros Hok Hcdc Hlen Hfree Hnot.
  pose proof Hok as [[Hrcap Hrused] [Htcap Htused]].
  set (q := rb_bytes (_txBuffer st)) in *.
  pose proof (zlength_nonneg q) as Hq.
  assert (Hs : zlength s < 256).
  { unfold ringbuf_bytes_free, ringbuf_bytes_used, TX_BUFFER_SIZE in *.
    fold q in Hfree. lia. }
  pose proof (putline_enqueues s [] st Hcdc (conj Hlen Hs) Hfree) as Hput.
  rewrite app_nil_r in Hput. fold q in Hput.
  set (st1 := set_txBuffer _ _) in Hput.
  assert (Hsize : zlength (q ++ s ++ [USBUART_LINE_TERMINATOR]) <= 256).
  { rewrite !zlength_app. change (zlength [USBUART_LINE_TERMINATOR]) with 1.
    unfold ringbuf_bytes_free, ringbuf_bytes_used, TX_BUFFER_SIZE in *.
    fold q in Hfree. lia. }
  assert (Hok1 : state_ok st1).
  { subst st1. split; split;
      cbn [_rxBuffer _txBuffer set_txBuffer set_USBUART rb_capacity rb_bytes];
      assumption. }
  pose proof (loopback_moves st1 Hok1) as Hloop.
  set (st2 := set_txBuffer _ _) in Hloop.
  assert (Hrx2 : rb_bytes (_rxBuffer st2)
                 = q ++ s ++ [USBUART_LINE_TERMINATOR]) by reflexivity.
  assert (Hok2 : state_ok st2).
  { subst st2 st1. split; split;
      cbn [_rxBuffer _txBuffer set_rxBuffer set_txBuffer set_USBUART
           rb_capacity rb_bytes]; try assumption.
    unfold ringbuf_bytes_used, TX_BUFFER_SIZE. cbn [rb_bytes].
    rewrite zlength_nil. lia. }
  assert (Hcdc2 : cdc_ready st2).
  { left. subst st2 st1.
    cbn [USBUART set_rxBuffer set_txBuffer set_USBUART].
    unfold cdc_checked. destruct (usb_config_changed (USBUART st)); reflexivity. }
  assert (Hall : ~ In USBUART_LINE_TERMINATOR q ->
     exists st3,
       usbuart_getline (Buf mem) st2
       = Done ((zlength q + zlength s, Buf (store mem (q ++ s))), st3) /\
       rb_bytes (_rxBuffer st3) = []).
  { intros Hnq.
    assert (Hb : rb_bytes (_rxBuffer st2)
                 = (q ++ s) ++ USBUART_LINE_TERMINATOR :: [])
      by (rewrite Hrx2, <- app_assoc; reflexivity).
    rewrite (getline_first_line mem (q ++ s) [] st2 Hok2 Hcdc2 Hb).
    - rewrite zlength_app. eexists. split; reflexivity.
    - intros Hin. apply in_app_or in Hin. tauto. }
  exists st1, st2.
  split; [exact Hput|]. split; [reflexivity|]. split; [exact Hloop|].
  split; [reflexivity|]. split; [reflexivity|].
  split; [|split; [exact Hall|]].
  - intros Hempty. destruct Hall as (st3 & Hget & Hrx3).
    { rewrite Hempty. intros []. }
    exists st3. rewrite Hempty in Hget. cbn [app] in Hget.
    rewrite zlength_nil, Z.add_0_l in Hget. split; assumption.
  - intros pre post Hqsplit Hpre.
    assert (Hb : rb_bytes (_rxBuffer st2)
                 = pre ++ USBUART_LINE_TERMINATOR
                       :: (post ++ s ++ [USBUART_LINE_TERMINATOR])).
    { rewrite Hrx2, Hqsplit, <- app_assoc. reflexivity. }
    rewrite (getline_first_line mem pre _ st2 Hok2 Hcdc2 Hb Hpre).
    eexists. split; reflexivity.
Qed.

(** ** Messages *)

Section MessageClaims.

Variable MSG_FIRST_BYTE : byte.
Variable MSG_LAST_BYTE : byte.

Local Abbreviation scan_pass := (getmsg_scan MSG_FIRST_BYTE MSG_LAST_BYTE).
Local Abbreviation search := (getmsg_search MSG_FIRST_BYTE MSG_LAST_BYTE).
Local Abbreviation getmsg := (usbuart_getmsg MSG_FIRST_BYTE MSG_LAST_BYTE).


(** C8 -- malformed length byte.  With [MSG_FIRST_BYTE] at the front of the
    RX ring followed by a length byte [L < MSG_STRUCTURE_LENGTH]: the payload
    count [L - 3] wraps on [uint8] to [L + 253]; for [L = 0] the footer check
    peeks at offset [-1], outside the used region; for [L = 1] and [L = 2]
    with [MSG_LAST_BYTE] at offset [L - 1] the frame counts as found and the
    copy to [data] is asked for with the wrapped count -- more than the ring
    holds after the header, unless [L = 1] and the ring was full, when the
    254 bytes are copied and the removal of the footer finds the ring empty.
    No check stops the call before. *)
Theorem getmsg_short_length_byte (mem : list byte) (st : state)
        (length_byte : byte) (rest : list byte) :
  state_ok st ->
  cdc_ready st ->
  rb_bytes (_rxBuffer st) = MSG_FIRST_BYTE :: length_byte :: rest ->
  byte_val length_byte < MSG_STRUCTURE_LENGTH ->
  to_uint8 (byte_val length_byte - MSG_STRUCTURE_LENGTH)
  = byte_val length_byte + 253 /\
  (byte_val length_byte = 0 ->
   getmsg (Buf mem) st
   = Fault (PeekOutside (-1) (ringbuf_bytes_used (_rxBuffer st)))) /\
  (1 <= byte_val length_byte ->
   nth (Z.to_nat (byte_val length_byte - 1)) (rb_bytes (_rxBuffer st)) x00
     = MSG_LAST_BYTE ->
   scan_pass st = Done (ScanFound (byte_val length_byte), st) /\
   getmsg (Buf mem) st
   = (if zlength rest <? byte_val length_byte + 253
      then Fault (CopyFromShort (byte_val length_byte + 253) (zlength rest))
      else Fault (RemoveShort MSG_FOOTER_LENGTH 0)) /\
   (byte_val length_byte + 253 <= zlength rest ->
    ringbuf_memcpy_from (mkRing (rb_capacity (_rxBuffer st)) rest)
                        (byte_val length_byte + 253)
    = Done (rest, mkRing (rb_capacity (_rxBuffer st)) []))).
Proof.
  intros Hok Hcdc Hb Hsmall.
  pose proof (byte_val_range length_byte) as Hrange.
  pose proof (zlength_nonneg rest) as Hrest.
  pose proof (front_used MSG_FIRST_BYTE length_byte rest st Hb) as Hused.
  unfold MSG_STRUCTURE_LENGTH, MSG_HEADER_LENGTH, MSG_FOOTER_LENGTH in *.
  assert (Hne : ringbuf_is_empty (_rxBuffer st) = false)
    by (unfold ringbuf_is_empty; apply Z.eqb_neq; lia).
  split; [|split].
  - unfold to_uint8.
    replace (byte_val length_byte - (2 + 1))
      with (byte_val length_byte + 253 + (-1) * 256) by lia.
    rewrite Z.mod_add by lia. apply Z.mod_small. lia.
  - intros Hzero. rewrite getmsg_unfold, Hne, search_unfold.
    rewrite (scan_front_zero MSG_FIRST_BYTE MSG_LAST_BYTE
               length_byte rest st Hb Hzero).
    reflexivity.
  - intros Hpos Hlast.
    pose proof (scan_front_found MSG_FIRST_BYTE MSG_LAST_BYTE
                  length_byte rest st Hb ltac:(lia) Hlast) as Hscan.
    split; [exact Hscan|]. split.
    + rewrite getmsg_unfold, Hne, search_unfold, Hscan.
      apply (extract_wrapped mem (byte_val length_byte) MSG_FIRST_BYTE
               length_byte rest st Hok Hcdc Hb).
      unfold MSG_STRUCTURE_LENGTH, MSG_HEADER_LENGTH, MSG_FOOTER_LENGTH. lia.
    + intros Hfull. destruct Hok as [[Hcap Hle] _].
      unfold RX_BUFFER_SIZE in Hle.
      rewrite memcpy_from_ok
        by (unfold ringbuf_bytes_used; cbn [rb_bytes]; lia).
      cbn [rb_bytes rb_capacity].
      replace (Z.to_nat (byte_val length_byte + 253)) with (length rest)
        by (unfold zlength in *; lia).
      rewrite firstn_all, skipn_all. reflexivity.
Qed.

End MessageClaims.

(** ** The servicer *)

(** What one transmit pump does to the flag and the log: nothing, or one
    transfer is appended and the flag says whether it was a full packet. *)
Lemma tx_isr_flag (st : state) :
  exists st',
    _usbuart_tx_isr st = Done (tt, st') /\
    ((_txZlpRequired st' = _txZlpRequired st /\
      usb_in_sent (USBUART st') = usb_in_sent (USBUART st)) \/
     (transmits st /\
      exists pkt,
        usb_in_sent (USBUART st') = usb_in_sent (USBUART st) ++ [pkt] /\
        _txZlpRequired st' = (zlength pkt =? USBUART_MAX_PACKET_SIZE))).
Proof.
  destruct (ringbuf_is_empty (_txBuffer st)) eqn:He,
           (_txZlpRequired st) eqn:Hz,
           (USBUART_CDCIsReady (USBUART st)) eqn:Hr;
    try (rewrite tx_isr_idle by assumption;
         exists st; split; [reflexivity | left; split; [assumption|reflexivity]]);
    try (rewrite tx_isr_reject by auto; cbv zeta;
         destruct (to_uint8 (_txReject st + 1) >? TX_MAX_REJECT);
         eexists; (split; [reflexivity | left; split; [assumption|reflexivity]])).
  all: assert (Ht : transmits st) by (split; [auto | assumption]).
  all: rewrite tx_isr_send by assumption; cbv zeta.
  all: eexists; split; [reflexivity|]; right; split; [assumption|].
  all: eexists; split; [reflexivity|].
  all: cbn [_txZlpRequired set_txReject set_txZlpRequired].
  all: f_equal; unfold zlength; rewrite length_firstn.
  all: pose proof (MIN_le_l (ringbuf_bytes_used (_txBuffer st))
                            USBUART_MAX_PACKET_SIZE).
  all: pose proof (zlength_nonneg (rb_bytes (_txBuffer st))).
  all: assert (0 <= MIN (ringbuf_bytes_used (_txBuffer st))
                        USBUART_MAX_PACKET_SIZE)
         by (apply MIN_nonneg; [assumption | unfold USBUART_MAX_PACKET_SIZE; lia]).
  all: unfold ringbuf_bytes_used, zlength in *; lia.
Qed.

Section Servicer.

Variable MSG_FIRST_BYTE : byte.
Variable MSG_LAST_BYTE : byte.

Local Abbreviation sys_step := (step MSG_FIRST_BYTE MSG_LAST_BYTE).
Local Abbreviation sys_reachable := (reachable MSG_FIRST_BYTE MSG_LAST_BYTE).

(** Every step either leaves flag and log alone or is a tick that appended
    one transfer and set the flag by its length. *)
Lemma step_flag (st st' : state) :
  sys_step st st' ->
  (_txZlpRequired st' = _txZlpRequired st /\
   usb_in_sent (USBUART st') = usb_in_sent (USBUART st)) \/
  (int_usbuart_isr st = Done (tt, st') /\
   exists pkt,
     usb_in_sent (USBUART st') = usb_in_sent (USBUART st) ++ [pkt] /\
     _txZlpRequired st' = (zlength pkt =? USBUART_MAX_PACKET_SIZE)).
Proof.
  intros [c Hcall | Htick | (u & -> & Hsent)].
  - apply run_call_keeps in Hcall. destruct Hcall as (Hz & _ & Hs). now left.
  - pose proof Htick as Htick'. rewrite isr_unfold in Htick.
    destruct (rx_isr_total st) as (st1 & Hrx & _ & Hz1 & _ & Hs1 & _).
    rewrite Hrx in Htick.
    destruct (tx_isr_flag st1) as (st2 & Htx & Hcases).
    rewrite Htx in Htick. injection Htick as <-.
    destruct Hcases as [[Hz Hs] | (_ & pkt & Hs & Hz)].
    + left. split; congruence.
    + right. split; [assumption|]. exists pkt. split; congruence.
  - left. split; [reflexivity | exact Hsent].
Qed.

Lemma last_transfer_full_snoc (st : state) (sent : list (list byte))
      (pkt : list byte) :
  usb_in_sent (USBUART st) = sent ++ [pkt] ->
  (last_transfer_full st <-> zlength pkt = USBUART_MAX_PACKET_SIZE).
Proof.
  intros Hs. unfold last_transfer_full. split.
  - intros (older & pkt' & Hs' & Hlen). rewrite Hs in Hs'.
    apply app_inj_tail in Hs'. destruct Hs' as [_ ->]. exact Hlen.
  - intros Hlen. now exists sent, pkt.
Qed.

(** C1 -- the ZLP-required flag.  In every state reachable from power-on
    through calls of the public interface, ticks and host actions: the flag
    is true exactly when the most recent IN transfer handed to the USB layer
    carried [USBUART_MAX_PACKET_SIZE] bytes; a transmit pump that transmits
    (IN endpoint ready, TX ring non-empty or flag set) hands over
    [N = MIN(bytes_used, 64)] bytes and sets the flag to [N == 64]; and any
    step from the state either leaves flag and log of transfers unchanged or
    is a tick that handed over one transfer and set the flag by its size. *)
Theorem zlp_flag_tracks_last_transfer (st : state) :
  sys_reachable st ->
  (_txZlpRequired st = true <-> last_transfer_full st) /\
  (transmits st ->
   exists st',
     _usbuart_tx_isr st = Done (tt, st') /\
     usb_in_sent (USBUART st') =
       usb_in_sent (USBUART st)
       ++ [firstn (Z.to_nat (MIN (ringbuf_bytes_used (_txBuffer st))
                                 USBUART_MAX_PACKET_SIZE))
                  (rb_bytes (_txBuffer st))] /\
     _txZlpRequired st' =
       (MIN (ringbuf_bytes_used (_txBuffer st)) USBUART_MAX_PACKET_SIZE
        =? USBUART_MAX_PACKET_SIZE)) /\
  (forall st',
      sys_step st st' ->
      (_txZlpRequired st' = _txZlpRequired st /\
       usb_in_sent (USBUART st') = usb_in_sent (USBUART st)) \/
      (int_usbuart_isr st = Done (tt, st') /\
       exists pkt,
         usb_in_sent (USBUART st') = usb_in_sent (USBUART st) ++ [pkt] /\
         _txZlpRequired st' = (zlength pkt =? USBUART_MAX_PACKET_SIZE))).
Proof.
  intros Hreach. split; [|split].
  - induction Hreach as [u Hsent | st st' Hreach IH Hstep].
    + unfold last_transfer_full. cbn [power_on _txZlpRequired USBUART].
      rewrite Hsent. split; [discriminate|].
      intros (older & pkt & Habs & _). now apply app_cons_not_nil in Habs.
    + destruct (step_flag st st' Hstep)
        as [[Hz Hs] | (_ & pkt & Hs & Hz)].
      * rewrite Hz. unfold last_transfer_full in *. rewrite Hs. exact IH.
      * rewrite (last_transfer_full_snoc st' _ pkt Hs), Hz.
        apply Z.eqb_eq.
  - intros Ht. rewrite tx_isr_send by assumption. cbv zeta.
    eexists. split; [reflexivity|]. split; reflexivity.
  - intros st'. apply step_flag.
Qed.

End Servicer.

(** One tick with the IN endpoint not ready and work pending in the
    transmit pump. *)
Lemma stalled_tick (st st' : state) :
  ringbuf_is_empty (_txBuffer st) = false \/ _txZlpRequired st = true ->
  USBUART_CDCIsReady (USBUART st) = false ->
  int_usbuart_isr st = Done (tt, st') ->
  let reject := to_uint8 (_txReject st + 1) in
  _txReject st' = (if reject >? TX_MAX_REJECT then 0 else reject) /\
  _txBuffer st' = (if reject >? TX_MAX_REJECT
                   then ringbuf_reset (_txBuffer st) else _txBuffer st) /\
  _txZlpRequired st' = _txZlpRequired st /\
  usb_in_sent (USBUART st') = usb_in_sent (USBUART st).
Proof.
  intros Hwork Hready Htick. rewrite isr_unfold in Htick.
  destruct (rx_isr_total st) as (st1 & Hrx & Ht1 & Hz1 & Hr1 & Hs1 & Hi1).
  rewrite Hrx in Htick.
  rewrite tx_isr_reject in Htick
    by (rewrite ?Ht1, ?Hz1; unfold USBUART_CDCIsReady in *; congruence).
  cbv zeta in *. injection Htick as <-. rewrite Hr1, Ht1.
  destruct (to_uint8 (_txReject st + 1) >? TX_MAX_REJECT);
    cbn [_txReject _txBuffer _txZlpRequired USBUART set_txReject set_txBuffer];
    repeat split; assumption.
Qed.

(** While the endpoint stays not ready, each of the first 8 ticks adds one
    to the reject counter and changes nothing else on the transmit side. *)
Lemma stalled_ticks_count (st : state) :
  ringbuf_is_empty (_txBuffer st) = false ->
  _txReject st = 0 ->
  forall (n : nat) (st' : state),
    (n <= 8)%nat ->
    stalled_ticks n st st' ->
    _txReject st' = Z.of_nat n /\
    _txBuffer st' = _txBuffer st /\
    _txZlpRequired st' = _txZlpRequired st /\
    usb_in_sent (USBUART st') = usb_in_sent (USBUART st).
Proof.
  intros Hne Hzero n st' Hn Hrun.
  induction Hrun as [st | n st st1 st2 st3 Hrun IH (u & -> & Hsent) Hready Htick].
  - repeat split. exact Hzero.
  - destruct (IH Hne Hzero ltac:(lia)) as (Hr & Ht & Hz & Hs).
    pose proof (stalled_tick (set_USBUART u st1) st3) as Hstep.
    cbn [_txBuffer _txZlpRequired _txReject USBUART set_USBUART] in Hstep.
    rewrite Ht, Hr in Hstep.
    specialize (Hstep (or_introl Hne) Hready Htick). cbv zeta in Hstep.
    unfold to_uint8, TX_MAX_REJECT in Hstep.
    rewrite Z.mod_small in Hstep by lia.
    destruct (Z.gtb_spec (Z.of_nat n + 1) 8) as [Hgt|_]; [lia|].
    destruct Hstep as (Hr3 & Ht3 & Hz3 & Hs3).
    repeat split; try congruence. lia.
Qed.

(** C2 -- stall recovery.  From any state with a non-empty TX ring and a
    reject counter of 0, over consecutive ticks at which the IN endpoint is
    not ready (the host acting in between): after [n <= 8] ticks the counter
    is [n], the TX ring unchanged and nothing handed to the USB layer; after
    the 9th the TX ring is empty, the counter 0, and still nothing has been
    handed to the USB layer.  Every tick finishes. *)
Theorem stall_recovery (st : state) :
  ringbuf_is_empty (_txBuffer st) = false ->
  _txReject st = 0 ->
  (forall (n : nat) (st' : state),
      (n <= 8)%nat ->
      stalled_ticks n st st' ->
      _txReject st' = Z.of_nat n /\
      _txBuffer st' = _txBuffer st /\
      usb_in_sent (USBUART st') = usb_in_sent (USBUART st)) /\
  (forall st',
      stalled_ticks 9 st st' ->
      rb_bytes (_txBuffer st') = [] /\
      ringbuf_is_empty (_txBuffer st') = true /\
      _txReject st' = 0 /\
      usb_in_sent (USBUART st') = usb_in_sent (USBUART st)) /\
  (forall st1, exists st2, int_usbuart_isr st1 = Done (tt, st2)).
Proof.
  intros Hne Hzero. split; [|split].
  - intros n st' Hn Hrun.
    destruct (stalled_ticks_count st Hne Hzero n st' Hn Hrun)
      as (Hr & Ht & _ & Hs).
    repeat split; assumption.
  - intros st' Hrun.
    inversion Hrun as [| n st0 st1 st2 st3 Hrun8 (u & -> & Hsent) Hready Htick];
      subst.
    destruct (stalled_ticks_count st Hne Hzero 8 st1 ltac:(lia) Hrun8)
      as (Hr & Ht & _ & Hs).
    pose proof (stalled_tick (set_USBUART u st1) st') as Hstep.
    cbn [_txBuffer _txZlpRequired _txReject USBUART set_USBUART] in Hstep.
    rewrite Ht, Hr in Hstep.
    specialize (Hstep (or_introl Hne) Hready Htick). cbv zeta in Hstep.
    change (to_uint8 (Z.of_nat 8 + 1) >? TX_MAX_REJECT) with true in Hstep.
    destruct Hstep as (Hr3 & Ht3 & _ & Hs3).
    rewrite Ht3. repeat split; congruence.
  - apply isr_total.
Qed.

(** Storing at most as many bytes as the array holds keeps its size. *)
Lemma zlength_store (mem src : list byte) :
  zlength src <= zlength mem -> zlength (store mem src) = zlength mem.
Proof.
  unfold store, zlength. intros H. rewrite length_app, length_skipn. lia.
Qed.

(** The transmit pump stages at most 64 bytes: it writes inside
    [_tempBuffer]. *)
Lemma tx_isr_scratch (st st' : state) :
  zlength (_tempBuffer st) = USBUART_MAX_PACKET_SIZE ->
  _usbuart_tx_isr st = Done (tt, st') ->
  zlength (_tempBuffer st') = USBUART_MAX_PACKET_SIZE.
Proof.
  intros Htemp.
  destruct (ringbuf_is_empty (_txBuffer st)) eqn:He,
           (_txZlpRequired st) eqn:Hz,
           (USBUART_CDCIsReady (USBUART st)) eqn:Hr;
    try (rewrite tx_isr_idle by assumption; intros H; injection H as <-;
         exact Htemp);
    try (rewrite tx_isr_reject by auto; cbv zeta;
         destruct (to_uint8 (_txReject st + 1) >? TX_MAX_REJECT);
         intros H; injection H as <-; exact Htemp).
  all: rewrite tx_isr_send by (split; [auto | assumption]); cbv zeta.
  all: intros H; injection H as <-.
  all: cbn [_tempBuffer set_txReject set_txZlpRequired set_USBUART
            set_tempBuffer set_txBuffer].
  all: rewrite zlength_store; [exact Htemp|].
  all: rewrite Htemp; unfold zlength; rewrite length_firstn.
  all: pose proof (MIN_le_r (ringbuf_bytes_used (_txBuffer st))
                            USBUART_MAX_PACKET_SIZE).
  all: unfold USBUART_MAX_PACKET_SIZE in *; lia.
Qed.

(** With at most one packet at the OUT endpoint the receive pump writes
    inside [_tempBuffer] too. *)
Lemma rx_isr_scratch (st st' : state) :
  packet_sized (USBUART st) ->
  zlength (_tempBuffer st) = USBUART_MAX_PACKET_SIZE ->
  _usbuart_rx_isr st = Done (tt, st') ->
  zlength (_tempBuffer st') = USBUART_MAX_PACKET_SIZE.
Proof.
  intros Hpk Htemp. unfold packet_sized in Hpk.
  destruct (USBUART_DataIsReady (USBUART st)) eqn:Hready.
  - destruct (Z.le_gt_cases (USBUART_GetCount (USBUART st))
                            (ringbuf_bytes_free (_rxBuffer st)))
      as [Hfits|Hover].
    + rewrite rx_isr_drain
        by (try assumption; unfold USBUART_MAX_PACKET_SIZE in Hpk; lia).
      intros H. injection H as <-.
      cbn [_tempBuffer set_rxBuffer set_tempBuffer].
      rewrite zlength_store; [exact Htemp|].
      rewrite Htemp. exact Hpk.
    + rewrite rx_isr_idle by (right; lia).
      intros H. injection H as <-. exact Htemp.
  - rewrite rx_isr_idle by (now left).
    intros H. injection H as <-. exact Htemp.
Qed.

Lemma isr_scratch (st st' : state) :
  packet_sized (USBUART st) ->
  zlength (_tempBuffer st) = USBUART_MAX_PACKET_SIZE ->
  int_usbuart_isr st = Done (tt, st') ->
  zlength (_tempBuffer st') = USBUART_MAX_PACKET_SIZE.
Proof.
  intros Hpk Htemp. rewrite isr_unfold.
  destruct (_usbuart_rx_isr st) as [[[] st1]| |] eqn:Hrx; try discriminate.
  intros Htx.
  apply (tx_isr_scratch st1 st'); [|exact Htx].
  now apply (rx_isr_scratch st st1).
Qed.

(** C3 -- all-or-nothing drain.  In a well-formed state, with at most one
    packet (64 bytes, the size of [_tempBuffer]) reported by the OUT
    endpoint, every tick finishes, stages its bytes inside [_tempBuffer],
    and: when the OUT endpoint has data ready and the number of bytes it
    reports is at most the free space of the RX ring, all of them are
    appended to the RX ring and the endpoint is left drained; when the
    reported number exceeds the free space, the RX ring is unchanged and the
    endpoint still holds its data, marked ready or not as before. *)
Theorem rx_pump_all_or_nothing (st : state) :
  state_ok st ->
  packet_sized (USBUART st) ->
  zlength (_tempBuffer st) = USBUART_MAX_PACKET_SIZE ->
  exists st',
    int_usbuart_isr st = Done (tt, st') /\
    zlength (_tempBuffer st') = USBUART_MAX_PACKET_SIZE /\
    (USBUART_DataIsReady (USBUART st) = true ->
     USBUART_GetCount (USBUART st) <= ringbuf_bytes_free (_rxBuffer st) ->
     rb_bytes (_rxBuffer st')
     = rb_bytes (_rxBuffer st) ++ usb_out_fifo (USBUART st) /\
     rb_capacity (_rxBuffer st') = rb_capacity (_rxBuffer st) /\
     usb_out_fifo (USBUART st') = [] /\
     USBUART_DataIsReady (USBUART st') = false) /\
    (ringbuf_bytes_free (_rxBuffer st) < USBUART_GetCount (USBUART st) ->
     _rxBuffer st' = _rxBuffer st /\
     usb_out_fifo (USBUART st') = usb_out_fifo (USBUART st) /\
     USBUART_DataIsReady (USBUART st') = USBUART_DataIsReady (USBUART st)).
Proof.
  intros [[Hcap Hused] _] Hpk Htemp.
  destruct (isr_total st) as (st' & Htick).
  pose proof (isr_scratch st st' Hpk Htemp Htick) as Htemp'.
  revert Htick. rewrite isr_unfold.
  destruct (rx_isr_total st) as (st1 & Hrx & _).
  destruct (tx_isr_total st1) as (st2 & Htx & Hrx2 & Hor2 & Hof2).
  rewrite Hrx, Htx. intros Htick. injection Htick as <-.
  exists st2. split; [reflexivity|]. split; [exact Htemp'|].
  unfold USBUART_DataIsReady. rewrite Hrx2, Hor2, Hof2. split.
  - intros Hready Hfits.
    rewrite rx_isr_drain in Hrx; try assumption.
    + injection Hrx as <-. repeat split.
    + unfold ringbuf_bytes_free, ringbuf_bytes_used, RX_BUFFER_SIZE in *.
      pose proof (zlength_nonneg (rb_bytes (_rxBuffer st))). lia.
  - intros Hover. rewrite rx_isr_idle in Hrx by (now right).
    injection Hrx as <-. repeat split.
Qed.

Section Purge.

Variable MSG_FIRST_BYTE : byte.
Variable MSG_LAST_BYTE : byte.

Local Abbreviation sys_quiet := (quiet_steps MSG_FIRST_BYTE MSG_LAST_BYTE).

(** Steps that hand over no transfer do not touch the flag. *)
Lemma quiet_steps_flag (st st' : state) :
  sys_quiet st st' -> _txZlpRequired st' = _txZlpRequired st.
Proof.
  induction 1 as [| st1 st2 _ IH Hstep Hsent]; [reflexivity|].
  destruct (step_flag MSG_FIRST_BYTE MSG_LAST_BYTE st1 st2 Hstep)
    as [[Hz _] | (_ & pkt & Hs & _)]; [congruence|].
  rewrite Hs in Hsent. apply (f_equal (@length _)) in Hsent.
  rewrite length_app in Hsent. simpl in Hsent. lia.
Qed.

(** C10 -- the purge keeps the ZLP obligation.  When the transmit pump has
    work pending, the IN endpoint is not ready and the incremented reject
    counter exceeds [TX_MAX_REJECT], the tick resets the TX ring and the
    counter, hands nothing to the USB layer and leaves the flag as it was.
    If the flag was set, then after any further steps that hand over no
    transfer, the next tick that finds the IN endpoint ready hands over one
    transfer: the first [MIN(bytes_used, 64)] bytes queued meanwhile, the
    zero-length packet when there are none. *)
Theorem purge_keeps_zlp_obligation (st : state) :
  ringbuf_is_empty (_txBuffer st) = false \/ _txZlpRequired st = true ->
  USBUART_CDCIsReady (USBUART st) = false ->
  to_uint8 (_txReject st + 1) > TX_MAX_REJECT ->
  exists st1,
    int_usbuart_isr st = Done (tt, st1) /\
    rb_bytes (_txBuffer st1) = [] /\
    _txReject st1 = 0 /\
    _txZlpRequired st1 = _txZlpRequired st /\
    usb_in_sent (USBUART st1) = usb_in_sent (USBUART st) /\
    (_txZlpRequired st = true ->
     forall st2,
       sys_quiet st1 st2 ->
       USBUART_CDCIsReady (USBUART st2) = true ->
       exists st3,
         int_usbuart_isr st2 = Done (tt, st3) /\
         usb_in_sent (USBUART st3) =
           usb_in_sent (USBUART st2)
           ++ [firstn (Z.to_nat (MIN (ringbuf_bytes_used (_txBuffer st2))
                                     USBUART_MAX_PACKET_SIZE))
                      (rb_bytes (_txBuffer st2))] /\
         (rb_bytes (_txBuffer st2) = [] ->
          usb_in_sent (USBUART st3) = usb_in_sent (USBUART st2) ++ [[]])).
Proof.
  intros Hwork Hready Hover.
  destruct (isr_total st) as (st1 & Htick). exists st1.
  split; [exact Htick|].
  destruct (stalled_tick st st1 Hwork Hready Htick) as (Hr & Ht & Hz & Hs).
  cbv zeta in Hr, Ht.
  destruct (Z.gtb_spec (to_uint8 (_txReject st + 1)) TX_MAX_REJECT); [|lia].
  split; [now rewrite Ht|]. split; [exact Hr|]. split; [exact Hz|].
  split; [exact Hs|].
  intros Hflag st2 Hquiet Hready2.
  pose proof (quiet_steps_flag st1 st2 Hquiet) as Hz2.
  rewrite isr_unfold.
  destruct (rx_isr_total st2) as (st2' & -> & Ht2 & Hz2' & _ & Hs2 & Hi2).
  assert (Htrans : transmits st2').
  { split; [right; congruence|].
    unfold USBUART_CDCIsReady in *. congruence. }
  rewrite tx_isr_send by assumption. cbv zeta.
  eexists. split; [reflexivity|].
  cbn [USBUART set_txReject set_txZlpRequired set_USBUART USBUART_PutData
       usb_in_sent].
  rewrite Hs2, Ht2. split; [reflexivity|].
  intros ->. now rewrite firstn_nil.
Qed.

End Purge.

(** ** The round trip through the servicer *)

Lemma firstn_MIN_packet (l : list byte) :
  firstn (Z.to_nat (MIN (zlength l) USBUART_MAX_PACKET_SIZE)) l = firstn 64 l.
Proof.
  unfold MIN, USBUART_MAX_PACKET_SIZE, zlength.
  destruct (Z.ltb_spec (Z.of_nat (length l)) 64).
  - rewrite Nat2Z.id, firstn_all, firstn_all2 by lia. reflexivity.
  - reflexivity.
Qed.

Lemma skipn_MIN_packet (l : list byte) :
  skipn (Z.to_nat (MIN (zlength l) USBUART_MAX_PACKET_SIZE)) l = skipn 64 l.
Proof.
  unfold MIN, USBUART_MAX_PACKET_SIZE, zlength.
  destruct (Z.ltb_spec (Z.of_nat (length l)) 64).
  - rewrite Nat2Z.id, skipn_all, skipn_all2 by lia. reflexivity.
  - reflexivity.
Qed.

(** The receive pump during a loopback: what waits at the OUT endpoint
    moves into the RX ring. *)
Lemma in_flight_rx_isr (content : list byte) (st : state) :
  in_flight content st ->
  exists st1,
    _usbuart_rx_isr st = Done (tt, st1) /\
    rb_bytes (_rxBuffer st1)
    = rb_bytes (_rxBuffer st) ++ usb_out_fifo (USBUART st) /\
    rb_capacity (_rxBuffer st1) = rb_capacity (_rxBuffer st) /\
    usb_out_fifo (USBUART st1) = [] /\
    _txBuffer st1 = _txBuffer st /\
    usb_in_ready (USBUART st1) = usb_in_ready (USBUART st) /\
    usb_config_changed (USBUART st1) = usb_config_changed (USBUART st) /\
    usb_in_sent (USBUART st1) = usb_in_sent (USBUART st).
Proof.
  intros ([[Hrcap Hrused] _] & Hcontent & Hready & _ & _ & Hlen & _).
  destruct (usb_out_fifo (USBUART st)) as [|b fifo] eqn:Efifo.
  - rewrite rx_isr_idle by (left; exact Hready).
    exists st. rewrite app_nil_r. repeat split; assumption.
  - assert (Hfits : USBUART_GetCount (USBUART st)
                    <= ringbuf_bytes_free (_rxBuffer st)).
    { unfold USBUART_GetCount, ringbuf_bytes_free, ringbuf_bytes_used.
      rewrite Efifo, Hrcap. rewrite <- Hcontent in Hlen.
      rewrite !zlength_app in Hlen.
      pose proof (zlength_nonneg (rb_bytes (_txBuffer st))). lia. }
    rewrite rx_isr_drain; try assumption.
    + eexists. split; [reflexivity|]. rewrite Efifo. repeat split.
    + unfold ringbuf_bytes_free, ringbuf_bytes_used, RX_BUFFER_SIZE in *.
      pose proof (zlength_nonneg (rb_bytes (_rxBuffer st))). lia.
Qed.

(** One tick and its echo: the OUT endpoint is drained into the RX ring and
    the next packet of the TX ring takes its place. *)
Lemma in_flight_echo_tick (content : list byte) (st : state) :
  in_flight content st ->
  exists st',
    echo_tick st = Done (tt, st') /\
    in_flight content st' /\
    rb_bytes (_txBuffer st') = skipn 64 (rb_bytes (_txBuffer st)) /\
    usb_out_fifo (USBUART st') = firstn 64 (rb_bytes (_txBuffer st)).
Proof.
  intros Hin.
  destruct (in_flight_rx_isr content st Hin)
    as (st1 & Hrx & Hr1 & Hc1 & Hf1 & Ht1 & Hi1 & Hg1 & Hs1).
  destruct Hin as ([[Hrcap Hrused] [Htcap Htused]] & Hcontent & Hready
                   & Hin_ready & Hchg & Hlen & _).
  assert (Hsize : zlength (rb_bytes (_rxBuffer st))
                  + zlength (usb_out_fifo (USBUART st))
                  + zlength (rb_bytes (_txBuffer st)) <= 256).
  { rewrite <- Hcontent in Hlen. rewrite !zlength_app in Hlen.
    unfold RX_BUFFER_SIZE in Hlen. lia. }
  unfold echo_tick. rewrite isr_unfold, Hrx.
  destruct (ringbuf_is_empty (_txBuffer st1)) eqn:He,
           (_txZlpRequired st1) eqn:Hz.
  2:{ (* nothing queued, nothing owed *)
      rewrite tx_isr_idle by assumption.
      assert (Hempty : rb_bytes (_txBuffer st) = []).
      { rewrite Ht1 in He. unfold ringbuf_is_empty, ringbuf_bytes_used in He.
        apply Z.eqb_eq in He. unfold zlength in He.
        destruct (rb_bytes (_txBuffer st)); [reflexivity | simpl in He; lia]. }
      eexists. split; [reflexivity|].
      unfold echo_host, in_flight, state_ok, ring_ok, ringbuf_bytes_used,
        packet_sized, USBUART_GetCount.
      cbn [USBUART _rxBuffer _txBuffer set_USBUART usb_out_fifo usb_out_ready
           usb_in_ready usb_config_changed usb_in_sent].
      rewrite Hs1, skipn_all, Hf1, Hr1, Hc1, Ht1, Hg1, Hempty.
      cbn [concat app skipn firstn].
      rewrite Hempty, app_nil_r in Hcontent.
      repeat split; try assumption.
      - now rewrite Hcontent.
      - discriminate.
      - now rewrite app_nil_r.
      - discriminate. }
  all: assert (Htrans : transmits st1)
         by (split; [auto | unfold USBUART_CDCIsReady; congruence]).
  all: rewrite tx_isr_send by assumption; cbv zeta.
  all: eexists; split; [reflexivity|].
  all: unfold echo_host, in_flight, state_ok, ring_ok, ringbuf_bytes_used,
         packet_sized, USBUART_GetCount.
  all: cbn [USBUART _rxBuffer _txBuffer set_USBUART set_txReject
            set_txZlpRequired set_tempBuffer set_txBuffer USBUART_PutData
            usb_out_fifo usb_out_ready usb_in_ready usb_config_changed
            usb_in_sent rb_bytes rb_capacity].
  all: rewrite Hs1, skipn_app, Nat.sub_diag, skipn_all, Hf1, Hr1, Hc1, Ht1, Hg1.
  all: cbn [concat app skipn].
  all: fold (zlength (rb_bytes (_txBuffer st))).
  all: rewrite firstn_MIN_packet, skipn_MIN_packet, app_nil_r.
  all: pose proof (firstn_skipn 64 (rb_bytes (_txBuffer st))) as Hsplit.
  all: assert (Hpkt : zlength (firstn 64 (rb_bytes (_txBuffer st)))
                      + zlength (skipn 64 (rb_bytes (_txBuffer st)))
                      = zlength (rb_bytes (_txBuffer st)))
         by (rewrite <- zlength_app, Hsplit; reflexivity).
  all: pose proof (zlength_nonneg (firstn 64 (rb_bytes (_txBuffer st)))).
  all: assert (Hfirst : zlength (firstn 64 (rb_bytes (_txBuffer st))) <= 64)
         by (unfold zlength; rewrite length_firstn; lia).
  all: pose proof (zlength_nonneg (skipn 64 (rb_bytes (_txBuffer st)))).
  all: pose proof (zlength_nonneg (rb_bytes (_rxBuffer st))).
  all: pose proof (zlength_nonneg (usb_out_fifo (USBUART st))).
  all: unfold ringbuf_bytes_used, RX_BUFFER_SIZE, TX_BUFFER_SIZE,
         USBUART_MAX_PACKET_SIZE in *.
  all: repeat split; try assumption; try reflexivity.
  all: try (rewrite ?zlength_app; lia).
  all: rewrite Hsplit, <- app_assoc; exact Hcontent.
Qed.

Lemma times_unfold (n : nat) (m : M unit) (st : state) :
  times (S n) m st =
  match m st with
  | Done (_, st') => times n m st'
  | Waiting => Waiting
  | Fault f => Fault f
  end.
Proof. reflexivity. Qed.

(** [n] ticks with their echoes: 64 bytes leave the TX ring at each, and what
    waits at the OUT endpoint is what the last of them has sent. *)
Lemma in_flight_times (content : list byte) (n : nat) :
  forall st : state,
    in_flight content st ->
    exists st',
      times n echo_tick st = Done (tt, st') /\
      in_flight content st' /\
      (length (rb_bytes (_txBuffer st'))
       = length (rb_bytes (_txBuffer st)) - 64 * n)%nat /\
      (n = O \/
       (length (usb_out_fifo (USBUART st'))
        <= length (rb_bytes (_txBuffer st)) - 64 * (n - 1))%nat).
Proof.
  induction n as [|n IH]; intros st Hin.
  - exists st. split; [reflexivity|]. split; [assumption|].
    split; [lia | now left].
  - destruct (in_flight_echo_tick content st Hin)
      as (st1 & Hstep & Hin1 & Htx1 & Hfifo1).
    destruct (IH st1 Hin1) as (st' & Hrun & Hin' & Htx' & Hfifo').
    exists st'. rewrite times_unfold, Hstep.
    split; [exact Hrun|]. split; [exact Hin'|].
    rewrite Htx1, length_skipn in Htx', Hfifo'.
    split; [lia|]. right.
    destruct Hfifo' as [-> | Hfifo'].
    + injection Hrun as <-. rewrite Hfifo1, length_firstn. lia.
    + lia.
Qed.

(** The round trip of a line through the servicer, from idle: the line is
    queued, five ticks with a host that echoes every IN transfer carry it and
    its terminator (in up to four packets, and a zero-length one after a full
    packet) into the RX ring, and [usbuart_getline] delivers it. *)
Lemma line_roundtrip_through_servicer (s mem : list byte) (st : state) :
  state_ok st ->
  rb_bytes (_rxBuffer st) = [] ->
  rb_bytes (_txBuffer st) = [] ->
  usb_out_fifo (USBUART st) = [] ->
  usb_out_ready (USBUART st) = false ->
  usb_in_ready (USBUART st) = true ->
  usb_config_changed (USBUART st) = false ->
  1 <= zlength s <= 255 ->
  ~ In USBUART_LINE_TERMINATOR s ->
  exists st1 st2 st3,
    usbuart_putline (Buf s) (zlength s) st = Done (tt, st1) /\
    times 5 echo_tick st1 = Done (tt, st2) /\
    rb_bytes (_txBuffer st2) = [] /\
    usbuart_getline (Buf mem) st2
    = Done ((zlength s, Buf (s ++ skipn (length s) mem)), st3) /\
    rb_bytes (_rxBuffer st3) = [].
Proof.
  intros Hok Hrx Htx Hfifo Hout Hin Hchg Hlen Hnot.
  pose proof Hok as [[Hrcap Hrused] [Htcap Htused]].
  assert (Hcdc : cdc_ready st) by (now left).
  pose proof (putline_enqueues s [] st Hcdc ltac:(lia)) as Hput.
  rewrite app_nil_r, Htx in Hput. cbn [app] in Hput.
  specialize (Hput ltac:(unfold ringbuf_bytes_free, ringbuf_bytes_used;
                         rewrite Htx, Htcap; unfold TX_BUFFER_SIZE;
                         rewrite zlength_nil; lia)).
  set (st1 := set_txBuffer _ _) in Hput.
  assert (Hflight : in_flight (s ++ [USBUART_LINE_TERMINATOR]) st1).
  { unfold in_flight, state_ok, ring_ok, ringbuf_bytes_used, packet_sized,
      USBUART_GetCount. subst st1.
    unfold cdc_checked. rewrite Hchg.
    cbn [USBUART _rxBuffer _txBuffer set_USBUART set_txBuffer
         USBUART_IsConfigurationChanged snd usb_out_fifo usb_out_ready
         usb_in_ready usb_config_changed rb_bytes rb_capacity].
    rewrite Hrx, Hfifo. cbn [app]. rewrite zlength_app.
    change (zlength [USBUART_LINE_TERMINATOR]) with 1.
    unfold RX_BUFFER_SIZE, TX_BUFFER_SIZE, USBUART_MAX_PACKET_SIZE in *.
    repeat split; try assumption; try lia.
    all: rewrite zlength_nil; lia. }
  destruct (in_flight_times (s ++ [USBUART_LINE_TERMINATOR]) 5 st1 Hflight)
    as (st2 & Hrun & Hflight2 & Htx2 & Hfifo2).
  assert (Hsize : (length (rb_bytes (_txBuffer st1)) <= 256)%nat).
  { subst st1. cbn [_txBuffer set_txBuffer rb_bytes].
    rewrite length_app. simpl length. unfold zlength in Hlen. lia. }
  assert (Htx2' : rb_bytes (_txBuffer st2) = []).
  { apply length_zero_iff_nil. lia. }
  assert (Hfifo2' : usb_out_fifo (USBUART st2) = []).
  { destruct Hfifo2 as [Habs | Hfifo2]; [discriminate|].
    apply length_zero_iff_nil. lia. }
  destruct Hflight2 as (Hok2 & Hcontent & _ & _ & Hchg2 & _).
  rewrite Htx2', Hfifo2', !app_nil_r in Hcontent.
  exists st1, st2. eexists.
  split; [exact Hput|]. split; [exact Hrun|]. split; [exact Htx2'|].
  rewrite (getline_first_line mem s [] st2 Hok2 (or_introl Hchg2) Hcontent Hnot).
  split; reflexivity.
Qed.

(** ** The scenarios of the specification *)

Ltac scenario_ok :=
  repeat split; vm_compute; first [reflexivity | discriminate].

(** S1: the first tick sends the 64 bytes and sets the flag, the second
    sends the zero-length packet and clears it. *)
Example s1_packet_boundary :
  exists st1 st2,
    usbuart_putline (Buf line63) 63 (scenario usb_idle [] [] false 0)
    = Done (tt, st1) /\
    int_usbuart_isr st1 = Done (tt, st2) /\
    _txZlpRequired st2 = true /\
    usb_in_sent (USBUART st2) = [line63 ++ [x0a]] /\
    exists st3,
      int_usbuart_isr st2 = Done (tt, st3) /\
      _txZlpRequired st3 = false /\
      usb_in_sent (USBUART st3) = [line63 ++ [x0a]; []] /\
      rb_bytes (_txBuffer st3) = [].
Proof.
  eexists. eexists. split; [vm_compute; reflexivity|].
  split; [vm_compute; reflexivity|].
  split; [reflexivity|]. split; [reflexivity|].
  eexists. split; [vm_compute; reflexivity|].
  repeat split.
Qed.

(** S2: the first call returns [Hello] and leaves [W]; the second returns
    0. *)
Example s2_line_framing :
  exists st1,
    usbuart_getline (Buf []) s2_line
    = Done ((5, Buf [x48; x65; x6c; x6c; x6f]), st1) /\
    rb_bytes (_rxBuffer st1) = [x57] /\
    usbuart_getline (Buf []) st1 = Done ((0, Buf []), st1).
Proof.
  eexists. split; [vm_compute; reflexivity|]. split; reflexivity.
Qed.

(** S3: the garbage is dropped and [ABC] delivered. *)
Example s3_preamble_garbage :
  exists st1,
    usbuart_getmsg x02 x03 (Buf []) s3_garbage
    = Done ((3, Buf [x41; x42; x43]), st1) /\
    rb_bytes (_rxBuffer st1) = [].
Proof.
  eexists. split; [vm_compute; reflexivity | reflexivity].
Qed.

(** S4: the false first byte is passed over and [AB] delivered. *)
Example s4_false_first_byte :
  exists st1,
    usbuart_getmsg x02 x03 (Buf []) s4_false_first
    = Done ((2, Buf [x41; x42]), st1) /\
    rb_bytes (_rxBuffer st1) = [].
Proof.
  eexists. split; [vm_compute; reflexivity | reflexivity].
Qed.

(** A run of stalled ticks can be built from its first tick. *)
Lemma stalled_ticks_first (n : nat) (st st1 st2 st' : state) :
  host_step st st1 ->
  USBUART_CDCIsReady (USBUART st1) = false ->
  int_usbuart_isr st1 = Done (tt, st2) ->
  stalled_ticks n st2 st' ->
  stalled_ticks (S n) st st'.
Proof.
  intros Hhost Hready Htick Hrun.
  induction Hrun as [st2 | n st2 sa sb sc Hrun IH Hh Hr Ht].
  - eapply stalled_more; [apply stalled_none | eassumption..].
  - eapply stalled_more; [apply IH; assumption | eassumption..].
Qed.

Lemma host_step_refl (st : state) : host_step st st.
Proof. destruct st as [u t r x z j]. exists u. split; reflexivity. Qed.

(** S5: nine ticks with the endpoint not ready do run, and end with the TX
    ring purged. *)
Example s5_nine_ticks :
  stalled_ticks 9 s5_stalled (scenario usb_stalled [] [] false 0).
Proof.
  do 9 (eapply stalled_ticks_first;
        [ apply host_step_refl | reflexivity | vm_compute; reflexivity | ]).
  apply stalled_none.
Qed.

(** S6: the tick leaves the full RX ring and the OUT endpoint as they are. *)
Example s6_backpressure :
  int_usbuart_isr s6_full = Done (tt, s6_full).
Proof. vm_compute. reflexivity. Qed.

(** S1 continued: the 63-byte line comes back through the servicer. *)
Example s1_line_comes_back :
  exists st1 st2 st3,
    usbuart_putline (Buf line63) 63 (scenario usb_idle [] [] false 0)
    = Done (tt, st1) /\
    times 5 echo_tick st1 = Done (tt, st2) /\
    usb_in_sent (USBUART st2) = [line63 ++ [x0a]; []] /\
    usbuart_getline (Buf []) st2 = Done ((63, Buf line63), st3).
Proof.
  eexists. eexists. eexists. split; [vm_compute; reflexivity|].
  split; [vm_compute; reflexivity|].
  split; [reflexivity | vm_compute; reflexivity].
Qed.

(** A message goes out framed and comes back through the servicer. *)
Example message_comes_back :
  exists st1 st2 st3,
    usbuart_putmsg x02 x03 (Buf [x41; x42; x43]) 3
                   (scenario usb_idle [] [] false 0)
    = Done (tt, st1) /\
    rb_bytes (_txBuffer st1) = [x02; x06; x41; x42; x43; x03] /\
    times 2 echo_tick st1 = Done (tt, st2) /\
    usbuart_getmsg x02 x03 (Buf []) st2 = Done ((3, Buf [x41; x42; x43]), st3).
Proof.
  eexists. eexists. eexists. split; [vm_compute; reflexivity|].
  split; [reflexivity|].
  split; vm_compute; reflexivity.
Qed.

(** ** The theorems at the scenarios *)

(** The state of S1 after the first tick is reachable, and there the flag is
    set with a full packet as the last transfer. *)
Lemma zlp_flag_tracks_last_transfer_witness :
  reachable x02 x03 s1_sent /\
  (_txZlpRequired s1_sent = true <-> last_transfer_full s1_sent).
Proof.
  assert (Hreach : reachable x02 x03 s1_sent).
  { eapply reach_step;
      [ eapply reach_step;
        [ eapply reach_step;
          [ apply (reach_power_on x02 x03 usb_idle); reflexivity
          | apply step_call with (c := Call_init); vm_compute; reflexivity ]
        | apply step_call with (c := Call_putline (Buf line63) 63);
          vm_compute; reflexivity ]
      | apply step_tick; vm_compute; reflexivity ]. }
  split; [exact Hreach|].
  exact (proj1 (zlp_flag_tracks_last_transfer x02 x03 s1_sent Hreach)).
Defined.

(** S5 through the stall-recovery theorem. *)
Lemma stall_recovery_witness :
  ringbuf_is_empty (_txBuffer s5_stalled) = false /\
  _txReject s5_stalled = 0 /\
  forall st',
    stalled_ticks 9 s5_stalled st' ->
    rb_bytes (_txBuffer st') = [] /\
    ringbuf_is_empty (_txBuffer st') = true /\
    _txReject st' = 0 /\
    usb_in_sent (USBUART st') = usb_in_sent (USBUART s5_stalled).
Proof.
  split; [reflexivity|]. split; [reflexivity|].
  exact (proj1 (proj2 (stall_recovery s5_stalled eq_refl eq_refl))).
Defined.

(** S6 through the all-or-nothing theorem. *)
Lemma rx_pump_all_or_nothing_witness :
  state_ok s6_full /\
  packet_sized (USBUART s6_full) /\
  zlength (_tempBuffer s6_full) = USBUART_MAX_PACKET_SIZE /\
  exists st',
    int_usbuart_isr s6_full = Done (tt, st') /\
    zlength (_tempBuffer st') = USBUART_MAX_PACKET_SIZE /\
    _rxBuffer st' = _rxBuffer s6_full /\
    usb_out_fifo (USBUART st') = usb_out_fifo (USBUART s6_full) /\
    USBUART_DataIsReady (USBUART st') = USBUART_DataIsReady (USBUART s6_full).
Proof.
  assert (Hok : state_ok s6_full) by scenario_ok.
  assert (Hpk : packet_sized (USBUART s6_full))
    by (vm_compute; discriminate).
  assert (Htemp : zlength (_tempBuffer s6_full) = USBUART_MAX_PACKET_SIZE)
    by reflexivity.
  split; [exact Hok|]. split; [exact Hpk|]. split; [exact Htemp|].
  destruct (rx_pump_all_or_nothing s6_full Hok Hpk Htemp)
    as (st' & Htick & Htemp' & _ & Hover).
  exists st'. split; [exact Htick|]. split; [exact Htemp'|].
  apply Hover. reflexivity.
Defined.

(** C5, as stated, fails: with the line [A] and its terminator already in
    the TX ring, the preconditions of the claim hold for the line [B], and
    after [usbuart_putline], the loopback and [usbuart_getline] the line
    delivered is [A]. *)
Lemma roundtrip_behind_queued_line :
  state_ok queued_line /\
  cdc_ready queued_line /\
  1 <= zlength [x42] /\
  zlength [x42] + 1 <= ringbuf_bytes_free (_txBuffer queued_line) /\
  ~ In USBUART_LINE_TERMINATOR [x42] /\
  exists st1 st2 st3,
    usbuart_putline (Buf [x42]) (zlength [x42]) queued_line = Done (tt, st1) /\
    loopback st1 = Done (tt, st2) /\
    usbuart_getline (Buf [x00]) st2 = Done ((1, Buf [x41]), st3) /\
    Buf [x41] <> Buf [x42].
Proof.
  split; [scenario_ok|]. split; [left; reflexivity|].
  split; [vm_compute; discriminate|]. split; [vm_compute; discriminate|].
  split; [simpl; intuition discriminate|].
  eexists. eexists. eexists.
  split; [vm_compute; reflexivity|].
  split; [vm_compute; reflexivity|].
  split; [vm_compute; reflexivity | discriminate].
Qed.

(** The line [Hi] through the round trip, from an empty TX ring. *)
Lemma putline_getline_roundtrip_witness :
  exists st1 st2 st3,
    usbuart_putline (Buf [x48; x69]) 2 (scenario usb_idle [] [] false 0)
    = Done (tt, st1) /\
    rb_bytes (_txBuffer st1) = [x48; x69; x0a] /\
    loopback st1 = Done (tt, st2) /\
    usbuart_getline (Buf []) st2 = Done ((2, Buf [x48; x69]), st3) /\
    rb_bytes (_rxBuffer st3) = [].
Proof.
  assert (Hlen : 1 <= zlength [x48; x69]) by (vm_compute; discriminate).
  assert (Hfree : zlength [x48; x69] + 1
                  <= ringbuf_bytes_free
                       (_txBuffer (scenario usb_idle [] [] false 0)))
    by (vm_compute; discriminate).
  assert (Hnot : ~ In USBUART_LINE_TERMINATOR [x48; x69])
    by (simpl; intuition discriminate).
  assert (Hok : state_ok (scenario usb_idle [] [] false 0)) by scenario_ok.
  destruct (putline_getline_roundtrip [x48; x69] []
              (scenario usb_idle [] [] false 0)
              Hok (or_introl eq_refl) Hlen Hfree Hnot)
    as (st1 & st2 & Hput & Htx1 & Hloop & _ & _ & Hempty & _).
  destruct (Hempty eq_refl) as (st3 & Hget & Hrx3).
  exists st1, st2, st3. repeat split; assumption.
Defined.




(** A header with the length byte 1: the count wraps to 254 and the copy is
    asked for with it, with one byte left in the ring. *)
Lemma getmsg_short_length_byte_witness :
  state_ok short_length /\
  cdc_ready short_length /\
  rb_bytes (_rxBuffer short_length) = x02 :: x01 :: [x41] /\
  byte_val x01 < MSG_STRUCTURE_LENGTH /\
  to_uint8 (byte_val x01 - MSG_STRUCTURE_LENGTH) = 254 /\
  usbuart_getmsg x02 x02 (Buf []) short_length = Fault (CopyFromShort 254 1).
Proof.
  assert (Hok : state_ok short_length) by scenario_ok.
  assert (Hcdc : cdc_ready short_length) by (left; reflexivity).
  assert (Hsmall : byte_val x01 < MSG_STRUCTURE_LENGTH) by reflexivity.
  split; [exact Hok|]. split; [exact Hcdc|]. split; [reflexivity|].
  split; [exact Hsmall|].
  destruct (getmsg_short_length_byte x02 x02 [] short_length x01 [x41]
              Hok Hcdc eq_refl Hsmall) as (Hwrap & _ & Hcopy).
  split; [exact Hwrap|].
  destruct Hcopy as (_ & Hrun & _).
  - vm_compute. discriminate.
  - reflexivity.
  - exact Hrun.
Defined.

(** An empty line: 0 is returned and the terminator is gone. *)
Lemma usbuart_getline_empty_line_witness :
  state_ok empty_line /\
  cdc_ready empty_line /\
  rb_bytes (_rxBuffer empty_line) = USBUART_LINE_TERMINATOR :: [x57] /\
  exists st',
    usbuart_getline (Buf []) empty_line = Done ((0, Buf []), st') /\
    rb_bytes (_rxBuffer st') = [x57] /\
    ringbuf_bytes_used (_rxBuffer st')
    = ringbuf_bytes_used (_rxBuffer empty_line) - 1 /\
    st' <> empty_line.
Proof.
  assert (Hok : state_ok empty_line) by scenario_ok.
  assert (Hcdc : cdc_ready empty_line) by (left; reflexivity).
  split; [exact Hok|]. split; [exact Hcdc|]. split; [reflexivity|].
  exact (usbuart_getline_empty_line [] [x57] empty_line Hok Hcdc eq_refl).
Defined.

(** The purge with a zero-length packet owed: the ring and the counter are
    reset, the flag stays set. *)
Lemma purge_keeps_zlp_obligation_witness :
  (ringbuf_is_empty (_txBuffer zlp_owed_stalled) = false \/
   _txZlpRequired zlp_owed_stalled = true) /\
  USBUART_CDCIsReady (USBUART zlp_owed_stalled) = false /\
  to_uint8 (_txReject zlp_owed_stalled + 1) > TX_MAX_REJECT /\
  exists st1,
    int_usbuart_isr zlp_owed_stalled = Done (tt, st1) /\
    rb_bytes (_txBuffer st1) = [] /\
    _txReject st1 = 0 /\
    _txZlpRequired st1 = true.
Proof.
  assert (Hwork : ringbuf_is_empty (_txBuffer zlp_owed_stalled) = false \/
                  _txZlpRequired zlp_owed_stalled = true)
    by (right; reflexivity).
  assert (Hover : to_uint8 (_txReject zlp_owed_stalled + 1) > TX_MAX_REJECT)
    by reflexivity.
  split; [exact Hwork|]. split; [reflexivity|]. split; [exact Hover|].
  destruct (purge_keeps_zlp_obligation x02 x03 zlp_owed_stalled
              Hwork eq_refl Hover)
    as (st1 & Htick & Hbytes & Hreject & Hflag & _).
  exists st1. repeat split; assumption.
Defined.

(** * Further properties of the driver *)

(** ** Single bytes *)

Lemma getch_outcomes (mem : list byte) (st : state) :
  cdc_ready st ->
  usbuart_getch (Buf mem) st =
  match rb_bytes (_rxBuffer st) with
  | [] => Done ((0, Buf mem), st)
  | b :: rest =>
    Done ((1, Buf (b :: skipn 1 mem)),
          set_rxBuffer (mkRing (rb_capacity (_rxBuffer st)) rest)
            (set_USBUART (cdc_checked (USBUART st)) st))
  end.
Proof.
  intros Hcdc. unfold usbuart_getch. unfold_monad.
  unfold ringbuf_is_empty, ringbuf_bytes_used.
  destruct (rb_bytes (_rxBuffer st)) as [|b rest] eqn:Eb.
  - reflexivity.
  - rewrite zlength_cons. pose proof (zlength_nonneg rest).
    destruct (Z.eqb_spec (zlength rest + 1) 0); [lia|].
    rewrite init_cdc_checked by assumption.
    cbn [_rxBuffer set_USBUART].
    rewrite memcpy_from_ok
      by (unfold ringbuf_bytes_used; rewrite Eb, zlength_cons; lia).
    rewrite Eb. reflexivity.
Qed.

(** [usbuart_getch] on a non-null [data], when its configuration check
    returns: from an empty RX ring it returns 0 and changes nothing;
    otherwise it returns 1, writes the oldest byte of the ring to the start
    of [data] and removes that byte alone, the bytes behind it keeping their
    order. *)
Theorem usbuart_getch_oldest_byte (mem : list byte) (st : state) :
  cdc_ready st ->
  usbuart_getch (Buf mem) st =
  match rb_bytes (_rxBuffer st) with
  | [] => Done ((0, Buf mem), st)
  | b :: rest =>
    Done ((1, Buf (b :: skipn 1 mem)),
          set_rxBuffer (mkRing (rb_capacity (_rxBuffer st)) rest)
            (set_USBUART (cdc_checked (USBUART st)) st))
  end.
Proof. apply getch_outcomes. Qed.

Lemma putch_outcomes (b : byte) (more : list byte) (st : state) :
  cdc_ready st ->
  usbuart_putch (Buf (b :: more)) st =
  if 1 <=? ringbuf_bytes_free (_txBuffer st)
  then Done (tt,
             set_txBuffer
               (mkRing (rb_capacity (_txBuffer st))
                       (rb_bytes (_txBuffer st) ++ [b]))
               (set_USBUART (cdc_checked (USBUART st)) st))
  else Waiting.
Proof.
  intros Hcdc. unfold usbuart_putch, wait_tx_free. unfold_monad.
  rewrite init_cdc_checked by assumption. cbn [_txBuffer set_USBUART].
  destruct (Z.leb_spec 1 (ringbuf_bytes_free (_txBuffer st))) as [Hroom|Hfull].
  - destruct (Z.geb_spec (ringbuf_bytes_free (_txBuffer st)) 1); [|lia].
    rewrite load_ok
      by (rewrite zlength_cons; pose proof (zlength_nonneg more); lia).
    cbn [_txBuffer set_USBUART].
    change (firstn (Z.to_nat 1) (b :: more)) with [b].
    rewrite memcpy_into_ok by (change (zlength [b]) with 1; lia).
    reflexivity.
  - destruct (Z.geb_spec (ringbuf_bytes_free (_txBuffer st)) 1); [lia|].
    reflexivity.
Qed.

(** [usbuart_putch] on a non-null [data] pointing to the byte [b], when its
    configuration check returns: with at least one byte free in the TX ring
    the byte is queued behind the bytes already there; with none free the
    call keeps waiting.  It never writes into a full ring. *)
Theorem usbuart_putch_appends_or_waits (b : byte) (more : list byte)
        (st : state) :
  cdc_ready st ->
  usbuart_putch (Buf (b :: more)) st =
  if 1 <=? ringbuf_bytes_free (_txBuffer st)
  then Done (tt,
             set_txBuffer
               (mkRing (rb_capacity (_txBuffer st))
                       (rb_bytes (_txBuffer st) ++ [b]))
               (set_USBUART (cdc_checked (USBUART st)) st))
  else Waiting.
Proof. apply putch_outcomes. Qed.

(** ** Lines: every outcome of [usbuart_putline] *)

(** [usbuart_putline] on a non-null [data], when its configuration check
    returns, with [c] the count as the [uint8] parameter receives it: for
    [c = 0] nothing happens; with fewer than [c + 1] bytes free the call
    keeps waiting; otherwise the first [c] bytes of the array and the
    terminator are queued behind the bytes already in the TX ring (reading
    past the end of a shorter array is the caller's error).  No outcome
    writes a part of the line or more than the free space. *)
Theorem usbuart_putline_outcomes (mem : list byte) (count : Z) (st : state) :
  cdc_ready st ->
  usbuart_putline (Buf mem) count st =
  let c := to_uint8 count in
  if c =? 0 then Done (tt, st)
  else if ringbuf_bytes_free (_txBuffer st) <? c + 1 then Waiting
  else if zlength mem <? c then Fault (ReadPastArray c (zlength mem))
  else Done (tt,
             set_txBuffer
               (mkRing (rb_capacity (_txBuffer st))
                       (rb_bytes (_txBuffer st)
                        ++ firstn (Z.to_nat c) mem
                        ++ [USBUART_LINE_TERMINATOR]))
               (set_USBUART (cdc_checked (USBUART st)) st)).
Proof.
  intros Hcdc. unfold usbuart_putline. cbv zeta.
  assert (Hc : 0 <= to_uint8 count < 256)
    by (unfold to_uint8; apply Z.mod_pos_bound; lia).
  set (c := to_uint8 count) in *.
  destruct (Z.eqb_spec c 0) as [Hz|Hnz].
  { destruct (Z.leb_spec c 0); [reflexivity | lia]. }
  destruct (Z.leb_spec c 0); [lia|].
  unfold wait_tx_free. unfold_monad.
  rewrite init_cdc_checked by assumption. cbn [_txBuffer set_USBUART].
  destruct (Z.ltb_spec (ringbuf_bytes_free (_txBuffer st)) (c + 1)) as [Hfull|Hroom].
  { destruct (Z.geb_spec (ringbuf_bytes_free (_txBuffer st)) (c + 1)); [lia|].
    reflexivity. }
  destruct (Z.geb_spec (ringbuf_bytes_free (_txBuffer st)) (c + 1)); [|lia].
  destruct (Z.ltb_spec (zlength mem) c) as [Hshort|Hlong].
  { unfold load.
    destruct (Z.leb_spec c (zlength mem)); [lia|].
    rewrite andb_false_r. reflexivity. }
  rewrite load_ok by lia. cbn [_txBuffer set_USBUART].
  assert (Hsrc : zlength (firstn (Z.to_nat c) mem) = c)
    by (apply zlength_firstn; lia).
  rewrite memcpy_into_ok by lia.
  cbn [_txBuffer set_txBuffer].
  rewrite memcpy_into_ok.
  - cbn [rb_bytes rb_capacity]. rewrite <- app_assoc. reflexivity.
  - unfold ringbuf_bytes_free, ringbuf_bytes_used in *.
    cbn [rb_bytes rb_capacity]. rewrite zlength_app, Hsrc.
    change (zlength [USBUART_LINE_TERMINATOR]) with 1. lia.
Qed.

(** ** Messages: what [usbuart_putmsg] queues *)

Lemma byte_val_byte_of (z : Z) : 0 <= z < 256 -> byte_val (byte_of z) = z.
Proof.
  intros Hz. unfold byte_of, byte_val. rewrite to_uint8_small by assumption.
  destruct (Byte.of_N (Z.to_N z)) as [b|] eqn:E.
  - apply Byte.to_of_N in E. rewrite E. lia.
  - apply Byte.of_N_None_iff in E. lia.
Qed.

Lemma free_after_append (rb : ringbuf_t) (src : list byte) :
  ringbuf_bytes_free (mkRing (rb_capacity rb) (rb_bytes rb ++ src))
  = ringbuf_bytes_free rb - zlength src.
Proof.
  unfold ringbuf_bytes_free, ringbuf_bytes_used. cbn [rb_bytes rb_capacity].
  rewrite zlength_app. lia.
Qed.

Section PutMessage.

Variable MSG_FIRST_BYTE : byte.
Variable MSG_LAST_BYTE : byte.

Local Abbreviation putmsg := (usbuart_putmsg MSG_FIRST_BYTE MSG_LAST_BYTE).

(** Every outcome of [usbuart_putmsg] for a non-zero count [c] and an array
    that holds [c] bytes: the room check asks for [uint8 (c + 3)] bytes, the
    three copies need 2, [c] and 1. *)
Lemma putmsg_outcomes (mem : list byte) (count : Z) (st : state) :
  cdc_ready st ->
  1 <= to_uint8 count <= zlength mem ->
  putmsg (Buf mem) count st =
  let c := to_uint8 count in
  let free := ringbuf_bytes_free (_txBuffer st) in
  if free <? to_uint8 (c + MSG_STRUCTURE_LENGTH) then Waiting
  else if free <? 2 then Fault (CopyIntoOverflow 2 free)
  else if free - 2 <? c then Fault (CopyIntoOverflow c (free - 2))
  else if free - 2 - c <? 1 then Fault (CopyIntoOverflow 1 (free - 2 - c))
  else Done (tt,
             set_txBuffer
               (mkRing (rb_capacity (_txBuffer st))
                       (rb_bytes (_txBuffer st)
                        ++ MSG_FIRST_BYTE
                        :: byte_of (to_uint8 (c + MSG_STRUCTURE_LENGTH))
                        :: firstn (Z.to_nat c) mem ++ [MSG_LAST_BYTE]))
               (set_USBUART (cdc_checked (USBUART st)) st)).
Proof.
  intros Hcdc Hc. unfold usbuart_putmsg. cbv zeta.
  set (c := to_uint8 count) in *.
  set (len := to_uint8 (c + MSG_STRUCTURE_LENGTH)).
  destruct (Z.leb_spec c 0); [lia|].
  unfold wait_tx_free. unfold_monad.
  rewrite init_cdc_checked by assumption. cbn [_txBuffer set_USBUART].
  set (free := ringbuf_bytes_free (_txBuffer st)).
  destruct (Z.ltb_spec free len) as [Hwait|Hroom].
  { destruct (Z.geb_spec free len); [lia | reflexivity]. }
  destruct (Z.geb_spec free len); [|lia].
  cbn [_txBuffer set_USBUART].
  unfold ringbuf_memcpy_into at 1. fold free.
  change (zlength [MSG_FIRST_BYTE; byte_of len]) with 2.
  destruct (Z.ltb_spec free 2) as [Hh|Hh].
  { destruct (Z.leb_spec 2 free); [lia | reflexivity]. }
  destruct (Z.leb_spec 2 free); [|lia].
  rewrite load_ok by lia.
  assert (Hsrc : zlength (firstn (Z.to_nat c) mem) = c)
    by (apply zlength_firstn; lia).
  cbn [_txBuffer set_txBuffer].
  unfold ringbuf_memcpy_into at 1.
  rewrite free_after_append, Hsrc. fold free.
  change (zlength [MSG_FIRST_BYTE; byte_of len]) with 2.
  destruct (Z.ltb_spec (free - 2) c) as [Hp|Hp].
  { destruct (Z.leb_spec c (free - 2)); [lia | reflexivity]. }
  destruct (Z.leb_spec c (free - 2)); [|lia].
  cbn [_txBuffer set_txBuffer rb_bytes rb_capacity].
  unfold ringbuf_memcpy_into at 1.
  cbn [rb_bytes rb_capacity].
  replace (ringbuf_bytes_free
             (mkRing (rb_capacity (_txBuffer st))
                ((rb_bytes (_txBuffer st) ++ [MSG_FIRST_BYTE; byte_of len])
                 ++ firstn (Z.to_nat c) mem)))
    with (free - 2 - c)
    by (unfold free, ringbuf_bytes_free, ringbuf_bytes_used;
        cbn [rb_bytes rb_capacity]; rewrite !zlength_app, Hsrc;
        change (zlength [MSG_FIRST_BYTE; byte_of len]) with 2; lia).
  change (zlength [MSG_FIRST_BYTE; byte_of len]) with 2.
  change (zlength [MSG_LAST_BYTE]) with 1.
  destruct (Z.ltb_spec (free - 2 - c) 1) as [Hf|Hf].
  { destruct (Z.leb_spec 1 (free - 2 - c)); [lia | reflexivity]. }
  destruct (Z.leb_spec 1 (free - 2 - c)); [|lia].
  cbn [set_txBuffer _txBuffer USBUART _tempBuffer _rxBuffer _txZlpRequired
       _txReject set_USBUART].
  rewrite <- !app_assoc. reflexivity.
Qed.

Lemma putmsg_fitting_frame (mem : list byte) (count : Z) (st : state) :
  cdc_ready st ->
  1 <= to_uint8 count <= 252 ->
  to_uint8 count <= zlength mem ->
  let c := to_uint8 count in
  byte_val (byte_of (c + MSG_STRUCTURE_LENGTH)) = c + MSG_STRUCTURE_LENGTH /\
  putmsg (Buf mem) count st =
  if ringbuf_bytes_free (_txBuffer st) <? c + MSG_STRUCTURE_LENGTH then Waiting
  else Done (tt,
             set_txBuffer
               (mkRing (rb_capacity (_txBuffer st))
                       (rb_bytes (_txBuffer st)
                        ++ MSG_FIRST_BYTE
                        :: byte_of (c + MSG_STRUCTURE_LENGTH)
                        :: firstn (Z.to_nat c) mem ++ [MSG_LAST_BYTE]))
               (set_USBUART (cdc_checked (USBUART st)) st)).
Proof.
  intros Hcdc Hc Hmem c.
  unfold MSG_STRUCTURE_LENGTH, MSG_HEADER_LENGTH, MSG_FOOTER_LENGTH.
  split; [apply byte_val_byte_of; subst c; lia|].
  rewrite putmsg_outcomes by (assumption || lia). cbv zeta. fold c.
  unfold MSG_STRUCTURE_LENGTH, MSG_HEADER_LENGTH, MSG_FOOTER_LENGTH.
  rewrite (to_uint8_small (c + (2 + 1))) by (subst c; lia).
  destruct (Z.ltb_spec (ringbuf_bytes_free (_txBuffer st)) (c + (2 + 1)));
    [reflexivity|].
  destruct (Z.ltb_spec (ringbuf_bytes_free (_txBuffer st)) 2); [lia|].
  destruct (Z.ltb_spec (ringbuf_bytes_free (_txBuffer st) - 2) c); [lia|].
  destruct (Z.ltb_spec (ringbuf_bytes_free (_txBuffer st) - 2 - c) 1); [lia|].
  reflexivity.
Qed.

(** [usbuart_putmsg] with a payload of [c] bytes, [1 <= c <= 252], on a
    non-null [data] holding them, when its configuration check returns: with
    fewer than [c + 3] bytes free in the TX ring the call keeps waiting;
    otherwise it queues, behind what is there, the first byte, a length byte
    of value [c + 3] (the whole frame), the [c] payload bytes and the last
    byte. *)
Theorem usbuart_putmsg_frame (mem : list byte) (count : Z) (st : state) :
  cdc_ready st ->
  1 <= to_uint8 count <= 252 ->
  to_uint8 count <= zlength mem ->
  let c := to_uint8 count in
  byte_val (byte_of (c + MSG_STRUCTURE_LENGTH)) = c + MSG_STRUCTURE_LENGTH /\
  putmsg (Buf mem) count st =
  if ringbuf_bytes_free (_txBuffer st) <? c + MSG_STRUCTURE_LENGTH then Waiting
  else Done (tt,
             set_txBuffer
               (mkRing (rb_capacity (_txBuffer st))
                       (rb_bytes (_txBuffer st)
                        ++ MSG_FIRST_BYTE
                        :: byte_of (c + MSG_STRUCTURE_LENGTH)
                        :: firstn (Z.to_nat c) mem ++ [MSG_LAST_BYTE]))
               (set_USBUART (cdc_checked (USBUART st)) st)).
Proof. apply putmsg_fitting_frame. Qed.

(** [usbuart_putmsg] with a payload of [c >= 253] bytes: the frame length
    [c + 3] does not fit the [uint8] it is computed in and wraps to
    [c - 253], so the room check is passed with that few bytes free.  In a
    well-formed state the call then asks the ring for more room than it has,
    except for [c = 253] on an empty ring, where a frame of 256 bytes is
    queued whose length byte is 0. *)
Theorem usbuart_putmsg_length_wraps (mem : list byte) (count : Z)
        (st : state) :
  state_ok st ->
  cdc_ready st ->
  253 <= to_uint8 count <= zlength mem ->
  let c := to_uint8 count in
  let free := ringbuf_bytes_free (_txBuffer st) in
  to_uint8 (c + MSG_STRUCTURE_LENGTH) = c - 253 /\
  (free < c - 253 -> putmsg (Buf mem) count st = Waiting) /\
  (c - 253 <= free ->
   (c = 253 /\ rb_bytes (_txBuffer st) = [] ->
    putmsg (Buf mem) count st =
    Done (tt,
          set_txBuffer
            (mkRing (rb_capacity (_txBuffer st))
                    (MSG_FIRST_BYTE :: x00
                     :: firstn 253 mem ++ [MSG_LAST_BYTE]))
            (set_USBUART (cdc_checked (USBUART st)) st))) /\
   (~ (c = 253 /\ rb_bytes (_txBuffer st) = []) ->
    exists asked room,
      putmsg (Buf mem) count st = Fault (CopyIntoOverflow asked room) /\
      room < asked)).
Proof.
  intros [_ [Htcap Htused]] Hcdc Hc c free.
  assert (Hrange : 0 <= to_uint8 count < 256)
    by (unfold to_uint8; apply Z.mod_pos_bound; lia).
  fold c in Hc, Hrange.
  assert (Hwrap : to_uint8 (c + MSG_STRUCTURE_LENGTH) = c - 253).
  { unfold MSG_STRUCTURE_LENGTH, MSG_HEADER_LENGTH, MSG_FOOTER_LENGTH, to_uint8.
    replace (c + (2 + 1)) with (c - 253 + 1 * 256) by lia.
    rewrite Z.mod_add by lia. apply Z.mod_small. lia. }
  pose proof (putmsg_outcomes mem count st Hcdc ltac:(fold c; lia)) as Hout.
  cbv zeta in Hout. fold c free in Hout. rewrite Hwrap in Hout.
  assert (Hfree : free = 256 - zlength (rb_bytes (_txBuffer st)))
    by (unfold free, ringbuf_bytes_free, ringbuf_bytes_used;
        rewrite Htcap; reflexivity).
  pose proof (zlength_nonneg (rb_bytes (_txBuffer st))) as Hused.
  split; [exact Hwrap|]. split.
  - intros Hlt. rewrite Hout.
    destruct (Z.ltb_spec free (c - 253)); [reflexivity | lia].
  - intros Hge. rewrite Hout.
    destruct (Z.ltb_spec free (c - 253)); [lia|]. split.
    + intros [Hc253 Hempty]. rewrite Hempty in *.
      rewrite zlength_nil in Hfree.
      destruct (Z.ltb_spec free 2); [lia|].
      destruct (Z.ltb_spec (free - 2) c); [lia|].
      destruct (Z.ltb_spec (free - 2 - c) 1); [lia|].
      rewrite Hc253. reflexivity.
    + intros Hnot.
      destruct (Z.ltb_spec free 2); [now exists 2, free|].
      destruct (Z.ltb_spec (free - 2) c); [now exists c, (free - 2)|].
      destruct (Z.ltb_spec (free - 2 - c) 1); [now exists 1, (free - 2 - c)|].
      exfalso. apply Hnot. split; [lia|].
      apply length_zero_iff_nil. unfold zlength in *. lia.
Qed.

End PutMessage.

(** ** Messages: what [usbuart_getmsg] delivers *)

Section GetMessage.

Variable MSG_FIRST_BYTE : byte.
Variable MSG_LAST_BYTE : byte.

Local Abbreviation scan_pass := (getmsg_scan MSG_FIRST_BYTE MSG_LAST_BYTE).
Local Abbreviation search := (getmsg_search MSG_FIRST_BYTE MSG_LAST_BYTE).
Local Abbreviation getmsg := (usbuart_getmsg MSG_FIRST_BYTE MSG_LAST_BYTE).

Lemma nonempty_ring (st : state) (b : byte) (l : list byte) :
  rb_bytes (_rxBuffer st) = b :: l ->
  ringbuf_is_empty (_rxBuffer st) = false.
Proof.
  intros Hb. unfold ringbuf_is_empty, ringbuf_bytes_used.
  rewrite Hb, zlength_cons. pose proof (zlength_nonneg l).
  apply Z.eqb_neq. lia.
Qed.

Lemma nonempty_ring_app (st : state) (junk : list byte) (b : byte)
      (l : list byte) :
  rb_bytes (_rxBuffer st) = junk ++ b :: l ->
  ringbuf_is_empty (_rxBuffer st) = false.
Proof.
  intros Hb. unfold ringbuf_is_empty, ringbuf_bytes_used.
  rewrite Hb, zlength_app, zlength_cons.
  pose proof (zlength_nonneg l). pose proof (zlength_nonneg junk).
  apply Z.eqb_neq. lia.
Qed.

Lemma getmsg_frame_behind_junk
      (mem junk payload rest : list byte) (length_byte : byte) (st : state) :
  state_ok st ->
  cdc_ready st ->
  rb_bytes (_rxBuffer st)
  = junk ++ MSG_FIRST_BYTE :: length_byte :: payload
         ++ MSG_LAST_BYTE :: rest ->
  ~ In MSG_FIRST_BYTE junk ->
  byte_val length_byte = zlength payload + MSG_STRUCTURE_LENGTH ->
  getmsg (Buf mem) st =
  Done ((zlength payload, Buf (payload ++ skipn (length payload) mem)),
        set_rxBuffer (mkRing (rb_capacity (_rxBuffer st)) rest)
          (set_USBUART (cdc_checked (USBUART st)) st)).
Proof.
  intros Hok Hcdc Hb Hjunk Hlen.
  unfold MSG_STRUCTURE_LENGTH, MSG_HEADER_LENGTH, MSG_FOOTER_LENGTH in Hlen.
  pose proof (byte_val_range length_byte) as Hrange.
  pose proof (zlength_nonneg payload) as Hpay.
  pose proof (zlength_nonneg rest) as Hrest.
  rewrite getmsg_unfold, (nonempty_ring_app st junk _ _ Hb), search_unfold.
  rewrite (scan_skips_junk MSG_FIRST_BYTE MSG_LAST_BYTE junk _ st Hok Hb Hjunk).
  set (st1 := set_rxBuffer _ st).
  assert (Hb1 : rb_bytes (_rxBuffer st1)
                = MSG_FIRST_BYTE :: length_byte
                  :: (payload ++ MSG_LAST_BYTE :: rest)) by reflexivity.
  pose proof (front_used MSG_FIRST_BYTE length_byte _ st1 Hb1) as Hused1.
  rewrite zlength_app, zlength_cons in Hused1.
  assert (Hlast : nth (Z.to_nat (byte_val length_byte - 1))
                      (rb_bytes (_rxBuffer st1)) x00 = MSG_LAST_BYTE).
  { rewrite Hb1, Hlen.
    replace (Z.to_nat (zlength payload + (2 + 1) - 1))
      with (S (S (length payload))) by (unfold zlength; lia).
    cbn [nth]. apply nth_middle. }
  rewrite (scan_front_found MSG_FIRST_BYTE MSG_LAST_BYTE length_byte _ st1 Hb1)
    by (assumption || lia).
  assert (Hcdc1 : cdc_ready st1) by exact Hcdc.
  rewrite (extract_frame mem (byte_val length_byte) MSG_FIRST_BYTE length_byte
             (payload ++ MSG_LAST_BYTE :: rest) st1 Hcdc1 Hb1)
    by (unfold MSG_STRUCTURE_LENGTH, MSG_HEADER_LENGTH, MSG_FOOTER_LENGTH;
        rewrite ?zlength_app, ?zlength_cons; lia).
  unfold MSG_STRUCTURE_LENGTH, MSG_HEADER_LENGTH, MSG_FOOTER_LENGTH.
  rewrite Hlen.
  replace (zlength payload + (2 + 1) - (2 + 1)) with (zlength payload) by lia.
  rewrite firstn_zlength_app, skipn_zlength_app.
  reflexivity.
Qed.

(** A well-formed frame behind bytes that are not the first byte: the bytes
    before it are dropped, the payload is written to [data], header, payload
    and footer leave the ring, what follows the frame stays, and the payload
    length is returned -- 0 for a frame without payload. *)
Theorem usbuart_getmsg_delivers_frame
        (mem junk payload rest : list byte) (length_byte : byte) (st : state) :
  state_ok st ->
  cdc_ready st ->
  rb_bytes (_rxBuffer st)
  = junk ++ MSG_FIRST_BYTE :: length_byte :: payload
         ++ MSG_LAST_BYTE :: rest ->
  ~ In MSG_FIRST_BYTE junk ->
  byte_val length_byte = zlength payload + MSG_STRUCTURE_LENGTH ->
  getmsg (Buf mem) st =
  Done ((zlength payload, Buf (payload ++ skipn (length payload) mem)),
        set_rxBuffer (mkRing (rb_capacity (_rxBuffer st)) rest)
          (set_USBUART (cdc_checked (USBUART st)) st)).
Proof. apply getmsg_frame_behind_junk. Qed.

(** The start of a frame that is not complete yet -- the first byte alone,
    or a header announcing more bytes than the ring holds: the call returns
    0, drops the bytes before the first byte and keeps the frame start at
    the front of the ring; a second call changes nothing more. *)
Theorem usbuart_getmsg_keeps_partial_frame
        (mem junk partial : list byte) (st : state) :
  state_ok st ->
  rb_bytes (_rxBuffer st) = junk ++ MSG_FIRST_BYTE :: partial ->
  ~ In MSG_FIRST_BYTE junk ->
  (partial = [] \/
   exists length_byte body,
     partial = length_byte :: body /\
     zlength body + MSG_HEADER_LENGTH < byte_val length_byte) ->
  let st' := set_rxBuffer (mkRing (rb_capacity (_rxBuffer st))
                                  (MSG_FIRST_BYTE :: partial)) st in
  getmsg (Buf mem) st = Done ((0, Buf mem), st') /\
  getmsg (Buf mem) st' = Done ((0, Buf mem), st').
Proof.
  intros Hok Hb Hjunk Hpartial st'.
  assert (Hok' : state_ok st').
  { apply state_ok_shrink; [assumption|].
    unfold ringbuf_bytes_used. rewrite Hb, zlength_app.
    pose proof (zlength_nonneg junk). lia. }
  assert (Hb' : rb_bytes (_rxBuffer st') = MSG_FIRST_BYTE :: partial)
    by reflexivity.
  assert (Hscan' : scan_pass st' = Done (ScanReturn0, st')).
  { destruct Hpartial as [-> | (length_byte & body & -> & Hshort)].
    - now apply scan_front_short.
    - apply (scan_front_incomplete MSG_FIRST_BYTE MSG_LAST_BYTE
               length_byte body st' Hb').
      rewrite (front_used MSG_FIRST_BYTE length_byte body st' Hb').
      unfold MSG_HEADER_LENGTH in Hshort. lia. }
  split.
  - rewrite getmsg_unfold, (nonempty_ring_app st junk _ _ Hb), search_unfold.
    rewrite (scan_skips_junk MSG_FIRST_BYTE MSG_LAST_BYTE junk _ st Hok Hb Hjunk).
    fold st'. rewrite Hscan'. reflexivity.
  - rewrite getmsg_unfold, (nonempty_ring st' _ _ Hb'), search_unfold, Hscan'.
    reflexivity.
Qed.

End GetMessage.

(** ** The servicer as a byte stream *)

Lemma in_flight_arrives (content : list byte) (st : state) :
  in_flight content st ->
  exists st',
    times 5 echo_tick st = Done (tt, st') /\
    rb_bytes (_rxBuffer st') = content /\
    rb_bytes (_txBuffer st') = [] /\
    usb_out_fifo (USBUART st') = [] /\
    state_ok st' /\
    usb_config_changed (USBUART st') = false.
Proof.
  intros Hin.
  destruct (in_flight_times content 5 st Hin)
    as (st' & Hrun & Hin' & Htx & Hfifo).
  destruct Hin as ([_ [_ Htused]] & _).
  unfold ringbuf_bytes_used, zlength, TX_BUFFER_SIZE in Htused.
  assert (Htx' : rb_bytes (_txBuffer st') = [])
    by (apply length_zero_iff_nil; lia).
  assert (Hfifo' : usb_out_fifo (USBUART st') = []).
  { destruct Hfifo as [Habs | Hfifo]; [discriminate|].
    apply length_zero_iff_nil. lia. }
  destruct Hin' as (Hok' & Hcontent & _ & _ & Hchg' & _).
  rewrite Htx', Hfifo', !app_nil_r in Hcontent.
  exists st'. repeat split; assumption || apply Hok'.
Qed.

(** With a host that echoes every IN transfer and bytes spread over the RX
    ring, the OUT endpoint and the TX ring (at most 256 in all): five ticks
    bring all of them into the RX ring, in their order, none lost and none
    twice, and leave the TX ring and the OUT endpoint empty. *)
Theorem servicer_carries_stream_in_order (content : list byte) (st : state) :
  in_flight content st ->
  exists st',
    times 5 echo_tick st = Done (tt, st') /\
    rb_bytes (_rxBuffer st') = content /\
    rb_bytes (_txBuffer st') = [] /\
    usb_out_fifo (USBUART st') = [] /\
    state_ok st' /\
    usb_config_changed (USBUART st') = false.
Proof. apply in_flight_arrives. Qed.

(** A state from which a loopback starts: both rings and the OUT endpoint
    empty, the IN endpoint ready, no configuration change pending. *)
Lemma idle_put_in_flight (st : state) (queued : list byte) :
  state_ok st ->
  rb_bytes (_rxBuffer st) = [] ->
  usb_out_fifo (USBUART st) = [] ->
  usb_out_ready (USBUART st) = false ->
  usb_in_ready (USBUART st) = true ->
  usb_config_changed (USBUART st) = false ->
  zlength queued <= 256 ->
  in_flight queued
    (set_txBuffer (mkRing (rb_capacity (_txBuffer st)) queued)
                  (set_USBUART (cdc_checked (USBUART st)) st)).
Proof.
  intros [[Hrcap Hrused] [Htcap Htused]] Hrx Hfifo Hout Hin Hchg Hlen.
  unfold in_flight, state_ok, ring_ok, ringbuf_bytes_used, cdc_checked,
    packet_sized, USBUART_GetCount.
  rewrite Hchg.
  cbn [USBUART _rxBuffer _txBuffer set_USBUART set_txBuffer
       USBUART_IsConfigurationChanged snd usb_out_fifo usb_out_ready
       usb_in_ready usb_config_changed rb_bytes rb_capacity].
  rewrite Hrx, Hfifo. cbn [app].
  unfold RX_BUFFER_SIZE, TX_BUFFER_SIZE, USBUART_MAX_PACKET_SIZE in *.
  repeat split; try assumption; try lia.
  all: rewrite zlength_nil; lia.
Qed.

Section MessageRoundTrip.

Variable MSG_FIRST_BYTE : byte.
Variable MSG_LAST_BYTE : byte.

(** The round trip of a message through the servicer, from idle: for a
    payload of 1 to 252 bytes, whatever bytes it holds, [usbuart_putmsg]
    queues the frame, five ticks with a host that echoes every IN transfer
    carry it into the RX ring, and [usbuart_getmsg] delivers the payload and
    returns its length, leaving the RX ring empty. *)
Theorem message_roundtrip_through_servicer (payload mem : list byte)
        (st : state) :
  state_ok st ->
  rb_bytes (_rxBuffer st) = [] ->
  rb_bytes (_txBuffer st) = [] ->
  usb_out_fifo (USBUART st) = [] ->
  usb_out_ready (USBUART st) = false ->
  usb_in_ready (USBUART st) = true ->
  usb_config_changed (USBUART st) = false ->
  1 <= zlength payload <= 252 ->
  exists st1 st2 st3,
    usbuart_putmsg MSG_FIRST_BYTE MSG_LAST_BYTE (Buf payload)
                   (zlength payload) st = Done (tt, st1) /\
    times 5 echo_tick st1 = Done (tt, st2) /\
    usbuart_getmsg MSG_FIRST_BYTE MSG_LAST_BYTE (Buf mem) st2
    = Done ((zlength payload, Buf (payload ++ skipn (length payload) mem)),
            st3) /\
    rb_bytes (_rxBuffer st3) = [] /\
    rb_bytes (_txBuffer st3) = [].
Proof.
  intros Hok Hrx Htx Hfifo Hout Hin Hchg Hlen.
  pose proof Hok as [[Hrcap Hrused] [Htcap Htused]].
  assert (Hcdc : cdc_ready st) by (now left).
  assert (Hc : to_uint8 (zlength payload) = zlength payload)
    by (apply to_uint8_small; lia).
  destruct (putmsg_fitting_frame MSG_FIRST_BYTE MSG_LAST_BYTE payload
              (zlength payload) st Hcdc ltac:(lia) ltac:(lia))
    as [Hbyte Hput].
  cbv zeta in Hbyte, Hput. rewrite Hc in Hbyte, Hput.
  unfold MSG_STRUCTURE_LENGTH, MSG_HEADER_LENGTH, MSG_FOOTER_LENGTH in *.
  assert (Hfree : ringbuf_bytes_free (_txBuffer st) = 256)
    by (unfold ringbuf_bytes_free, ringbuf_bytes_used;
        rewrite Htx, Htcap; reflexivity).
  rewrite Hfree in Hput.
  destruct (Z.ltb_spec 256 (zlength payload + (2 + 1))); [lia|].
  rewrite Htx, to_nat_zlength, firstn_all in Hput. cbn [app] in Hput.
  set (frame := MSG_FIRST_BYTE :: byte_of (zlength payload + (2 + 1))
                :: payload ++ [MSG_LAST_BYTE]) in *.
  assert (Hframe : zlength frame <= 256).
  { unfold frame. rewrite !zlength_cons, zlength_app.
    change (zlength [MSG_LAST_BYTE]) with 1. lia. }
  pose proof (idle_put_in_flight st frame
                Hok Hrx Hfifo Hout Hin Hchg Hframe) as Hflight.
  destruct (in_flight_arrives frame _ Hflight)
    as (st2 & Hrun & Hrx2 & Htx2 & _ & Hok2 & Hchg2).
  eexists. exists st2. eexists.
  split; [exact Hput|]. split; [exact Hrun|].
  rewrite (getmsg_frame_behind_junk MSG_FIRST_BYTE MSG_LAST_BYTE mem []
             payload [] (byte_of (zlength payload + (2 + 1))) st2 Hok2
             (or_introl Hchg2) Hrx2)
    by (intros [] || exact Hbyte).
  split; [reflexivity|]. split; [reflexivity|]. exact Htx2.
Qed.

End MessageRoundTrip.

(** ** What a tick does to the transmit side *)

(** The three ways of a tick: the transmit pump idles, transmits or is
    rejected. *)
Lemma tick_tx_cases (st : state) :
  exists st',
    int_usbuart_isr st = Done (tt, st') /\
    ((ringbuf_is_empty (_txBuffer st) = true /\
      _txZlpRequired st = false /\
      _txBuffer st' = _txBuffer st /\
      _txZlpRequired st' = _txZlpRequired st /\
      _txReject st' = _txReject st /\
      usb_in_sent (USBUART st') = usb_in_sent (USBUART st)) \/
     (transmits st /\
      let count := MIN (ringbuf_bytes_used (_txBuffer st))
                       USBUART_MAX_PACKET_SIZE in
      let pkt := firstn (Z.to_nat count) (rb_bytes (_txBuffer st)) in
      zlength pkt = count /\
      0 <= count <= USBUART_MAX_PACKET_SIZE /\
      rb_bytes (_txBuffer st')
      = skipn (Z.to_nat count) (rb_bytes (_txBuffer st)) /\
      rb_capacity (_txBuffer st') = rb_capacity (_txBuffer st) /\
      usb_in_sent (USBUART st') = usb_in_sent (USBUART st) ++ [pkt] /\
      _txZlpRequired st' = (count =? USBUART_MAX_PACKET_SIZE) /\
      _txReject st' = 0) \/
     ((ringbuf_is_empty (_txBuffer st) = false \/ _txZlpRequired st = true) /\
      USBUART_CDCIsReady (USBUART st) = false /\
      let reject := to_uint8 (_txReject st + 1) in
      _txReject st' = (if reject >? TX_MAX_REJECT then 0 else reject) /\
      _txBuffer st' = (if reject >? TX_MAX_REJECT
                       then ringbuf_reset (_txBuffer st) else _txBuffer st) /\
      _txZlpRequired st' = _txZlpRequired st /\
      usb_in_sent (USBUART st') = usb_in_sent (USBUART st))).
Proof.
  rewrite isr_unfold.
  destruct (rx_isr_total st) as (st1 & -> & Ht1 & Hz1 & Hr1 & Hs1 & Hi1).
  destruct (ringbuf_is_empty (_txBuffer st)) eqn:He,
           (_txZlpRequired st) eqn:Hz,
           (USBUART_CDCIsReady (USBUART st)) eqn:Hr.
  3,4: (rewrite tx_isr_idle by congruence;
        exists st1; split; [reflexivity|]; left;
        repeat split; congruence).
  1,3,5: (assert (Htrans1 : transmits st1)
            by (split; [rewrite Ht1, Hz1; auto
                       | unfold USBUART_CDCIsReady in *; congruence]);
          rewrite tx_isr_send by assumption; cbv zeta;
          eexists; split; [reflexivity|]; right; left;
          split; [split; [auto | assumption]|];
          cbn [_txBuffer _txZlpRequired _txReject USBUART set_txReject
               set_txZlpRequired set_USBUART set_tempBuffer set_txBuffer
               USBUART_PutData usb_in_sent rb_bytes rb_capacity];
          rewrite Ht1, Hs1;
          pose proof (MIN_le_l (ringbuf_bytes_used (_txBuffer st))
                               USBUART_MAX_PACKET_SIZE);
          pose proof (MIN_le_r (ringbuf_bytes_used (_txBuffer st))
                               USBUART_MAX_PACKET_SIZE);
          pose proof (zlength_nonneg (rb_bytes (_txBuffer st)));
          assert (0 <= MIN (ringbuf_bytes_used (_txBuffer st))
                           USBUART_MAX_PACKET_SIZE)
            by (apply MIN_nonneg;
                [assumption | unfold USBUART_MAX_PACKET_SIZE; lia]);
          repeat split; try reflexivity; try assumption;
          apply zlength_firstn; unfold ringbuf_bytes_used in *; lia).
  all: rewrite tx_isr_reject
         by (rewrite ?Ht1, ?Hz1; unfold USBUART_CDCIsReady in *;
             auto || congruence).
  all: cbv zeta; rewrite Hr1, Ht1.
  all: eexists; split; [reflexivity|]; right; right.
  all: split; [auto|]; split; [reflexivity|].
  all: destruct (to_uint8 (_txReject st + 1) >? TX_MAX_REJECT);
       cbn [_txReject _txBuffer _txZlpRequired USBUART set_txReject
            set_txBuffer];
       repeat split; congruence.
Qed.

(** One tick never reorders, duplicates or invents bytes on the way out:
    either the transfers handed over so far followed by the content of the TX
    ring spell the same byte sequence as before the tick, with at most one
    transfer added, of at most 64 bytes; or the tick is a purge -- IN
    endpoint not ready, incremented reject counter above [TX_MAX_REJECT] --
    which hands over nothing and empties the ring. *)
Theorem tick_keeps_outgoing_stream (st : state) :
  exists st',
    int_usbuart_isr st = Done (tt, st') /\
    (usb_in_sent (USBUART st') = usb_in_sent (USBUART st) \/
     exists pkt,
       usb_in_sent (USBUART st') = usb_in_sent (USBUART st) ++ [pkt] /\
       zlength pkt <= USBUART_MAX_PACKET_SIZE) /\
    (concat (usb_in_sent (USBUART st')) ++ rb_bytes (_txBuffer st')
     = concat (usb_in_sent (USBUART st)) ++ rb_bytes (_txBuffer st) \/
     (USBUART_CDCIsReady (USBUART st) = false /\
      to_uint8 (_txReject st + 1) > TX_MAX_REJECT /\
      rb_bytes (_txBuffer st') = [] /\
      usb_in_sent (USBUART st') = usb_in_sent (USBUART st))).
Proof.
  destruct (tick_tx_cases st) as (st' & Htick & Hcases).
  exists st'. split; [exact Htick|].
  destruct Hcases
    as [(_ & _ & Ht & _ & _ & Hs)
       | [(_ & Hpkt & Hcount & Ht & _ & Hs & _)
         | (_ & Hready & Hr & Ht & _ & Hs)]]; cbv zeta in *.
  - split; [now left|]. left. now rewrite Ht, Hs.
  - split; [right; eexists; split; [exact Hs | lia]|].
    left. rewrite Hs, Ht, concat_app. cbn [concat].
    rewrite app_nil_r, <- app_assoc, firstn_skipn. reflexivity.
  - split; [now left|].
    destruct (Z.gtb_spec (to_uint8 (_txReject st + 1)) TX_MAX_REJECT).
    + right. rewrite Ht. repeat split; try assumption. lia.
    + left. now rewrite Ht, Hs.
Qed.

Section Reachable.

Variable MSG_FIRST_BYTE : byte.
Variable MSG_LAST_BYTE : byte.

Local Abbreviation sys_step := (step MSG_FIRST_BYTE MSG_LAST_BYTE).
Local Abbreviation sys_reachable := (reachable MSG_FIRST_BYTE MSG_LAST_BYTE).

(** In every reachable state the reject counter is between 0 and
    [TX_MAX_REJECT]: only a tick changes it, by one upwards while the IN
    endpoint rejects the pump, back to 0 on a transmission or when it would
    pass the bound. *)
Theorem reject_counter_bounded (st : state) :
  sys_reachable st ->
  0 <= _txReject st <= TX_MAX_REJECT.
Proof.
  unfold TX_MAX_REJECT.
  induction 1 as [u Hsent | st st' Hreach IH Hstep].
  - cbn. lia.
  - destruct Hstep as [c Hcall | Htick | (u & -> & _)].
    + apply run_call_keeps in Hcall. destruct Hcall as (_ & Hr & _).
      now rewrite Hr.
    + destruct (tick_tx_cases st) as (st2 & Htick2 & Hcases).
      rewrite Htick in Htick2. injection Htick2 as <-.
      destruct Hcases
        as [(_ & _ & _ & _ & Hr & _)
           | [(_ & _ & _ & _ & _ & _ & _ & Hr)
             | (_ & _ & Hr & _)]]; cbv zeta in *.
      * now rewrite Hr.
      * rewrite Hr. lia.
      * rewrite Hr. unfold to_uint8, TX_MAX_REJECT.
        rewrite Z.mod_small by lia.
        destruct (Z.gtb_spec (_txReject st + 1) 8); lia.
    + exact IH.
Qed.

Lemma snoc_split (sent older newer : list (list byte)) (pkt p : list byte) :
  sent ++ [pkt] = older ++ p :: newer ->
  (newer = [] /\ older = sent /\ p = pkt) \/
  exists newer', newer = newer' ++ [pkt] /\ sent = older ++ p :: newer'.
Proof.
  intros H. destruct (exists_last (l := p :: newer)) as (init & x & E);
    [discriminate|].
  destruct newer as [|q newer].
  - left. change (older ++ [p]) with (older ++ [p]) in H.
    apply app_inj_tail in H. destruct H as [-> ->]. auto.
  - right.
    destruct (exists_last (l := q :: newer)) as (newer' & y & E');
      [discriminate|].
    rewrite E' in H.
    change (older ++ p :: newer' ++ [y])
      with (older ++ (p :: newer') ++ [y]) in H.
    rewrite app_assoc in H. apply app_inj_tail in H.
    destruct H as [-> ->]. exists newer'. now rewrite E'.
Qed.

Lemma log_ok_snoc (sent : list (list byte)) (pkt : list byte) :
  log_ok sent ->
  zlength pkt <= USBUART_MAX_PACKET_SIZE ->
  (pkt = [] ->
   exists before full,
     sent = before ++ [full] /\ zlength full = USBUART_MAX_PACKET_SIZE) ->
  log_ok (sent ++ [pkt]).
Proof.
  intros Hlog Hlen Hzlp older p newer Hsplit.
  destruct (snoc_split sent older newer pkt p Hsplit)
    as [(_ & -> & ->) | (newer' & _ & Hsent)].
  - split; assumption.
  - exact (Hlog older p newer' Hsent).
Qed.

(** The flag and the log together, in every reachable state. *)
Lemma reachable_flag_and_log (st : state) :
  sys_reachable st ->
  (_txZlpRequired st = true <-> last_transfer_full st) /\
  log_ok (usb_in_sent (USBUART st)).
Proof.
  induction 1 as [u Hsent | st st' Hreach [IHflag IHlog] Hstep].
  - cbn [power_on USBUART _txZlpRequired]. unfold last_transfer_full.
    cbn [power_on USBUART]. rewrite Hsent. split.
    + split; [discriminate|].
      intros (older & pkt & Habs & _). now apply app_cons_not_nil in Habs.
    + intros older pkt newer Habs. now apply app_cons_not_nil in Habs.
  - assert (Hsame :
      _txZlpRequired st' = _txZlpRequired st ->
      usb_in_sent (USBUART st') = usb_in_sent (USBUART st) ->
      (_txZlpRequired st' = true <-> last_transfer_full st') /\
      log_ok (usb_in_sent (USBUART st'))).
    { intros Hz Hs. unfold last_transfer_full in *. rewrite Hz, Hs. now split. }
    destruct Hstep as [c Hcall | Htick | (u & -> & Hs)].
    + apply run_call_keeps in Hcall. destruct Hcall as (Hz & _ & Hs). auto.
    + destruct (tick_tx_cases st) as (st2 & Htick2 & Hcases).
      rewrite Htick in Htick2. injection Htick2 as <-.
      destruct Hcases
        as [(_ & _ & _ & Hz & _ & Hs)
           | [([Hwork _] & Hpkt & Hcount & _ & _ & Hs & Hz & _)
             | (_ & _ & _ & _ & Hz & Hs)]]; cbv zeta in *; auto.
      split.
      * rewrite (last_transfer_full_snoc st' _ _ Hs), Hz, Hpkt.
        apply Z.eqb_eq.
      * rewrite Hs. apply log_ok_snoc; [assumption | lia |].
        intros Hnil. rewrite Hnil in Hpkt. rewrite zlength_nil in Hpkt.
        assert (Hempty : ringbuf_is_empty (_txBuffer st) = true).
        { unfold ringbuf_is_empty. apply Z.eqb_eq.
          unfold MIN, USBUART_MAX_PACKET_SIZE in Hpkt.
          destruct (Z.ltb_spec (ringbuf_bytes_used (_txBuffer st)) 64); lia. }
        destruct Hwork as [Hne | Hflag]; [congruence|].
        apply IHflag in Hflag. exact Hflag.
    + apply Hsame; [reflexivity | exact Hs].
Qed.

(** In every reachable state of the system, no IN transfer handed to the USB
    layer has more than 64 bytes, and every zero-length transfer comes
    directly after a transfer of exactly 64 bytes: the pump sends a
    zero-length packet only to end a message that filled its last packet. *)
Theorem zero_length_packet_only_after_full (st : state) :
  sys_reachable st ->
  log_ok (usb_in_sent (USBUART st)).
Proof. intros Hreach. now apply reachable_flag_and_log. Qed.

End Reachable.

(** ** Start-up and configuration changes *)

(** A configuration check that returns: it has initialised the CDC interface
    exactly once if it was the first check or the configuration had changed
    (which it does only once the device is configured), and not at all
    otherwise; the change flag is clear afterwards; it has touched nothing of
    the driver and nothing else of the component; and a check that follows
    at once finds nothing to do. *)
Theorem init_cdc_settles (first_init : bool) (st st' : state) :
  _init_cdc first_init st = Done (tt, st') ->
  usb_config_changed (USBUART st') = false /\
  usb_cdc_inits (USBUART st')
  = (if first_init || usb_config_changed (USBUART st)
     then S (usb_cdc_inits (USBUART st)) else usb_cdc_inits (USBUART st)) /\
  (first_init || usb_config_changed (USBUART st) = true ->
   usb_configured (USBUART st) = true) /\
  st' = set_USBUART (USBUART st') st /\
  usb_configured (USBUART st') = usb_configured (USBUART st) /\
  usb_out_ready (USBUART st') = usb_out_ready (USBUART st) /\
  usb_out_fifo (USBUART st') = usb_out_fifo (USBUART st) /\
  usb_in_ready (USBUART st') = usb_in_ready (USBUART st) /\
  usb_in_sent (USBUART st') = usb_in_sent (USBUART st) /\
  _init_cdc false st' = Done (tt, st').
Proof.
  unfold _init_cdc.
  destruct st as [[conf chg inits oready fifo iready sent] tmp rx tx z r].
  cbn [USBUART USBUART_IsConfigurationChanged USBUART_GetConfiguration
       USBUART_CDC_Init usb_config_changed usb_configured usb_cdc_inits
       usb_out_ready usb_out_fifo usb_in_ready usb_in_sent fst snd].
  destruct first_init, chg, conf; cbn; intros H; try discriminate;
    injection H as <-; cbn; repeat split; intros; congruence.
Qed.

(** [usbuart_init] waits until the host has configured the device.  Then it
    leaves both rings empty with a capacity of 256 bytes, whatever they held,
    initialises the CDC interface once and clears the change flag; it does
    not write the ZLP flag, the reject counter or the scratch buffer. *)
Theorem usbuart_init_outcome (st : state) :
  usbuart_init st =
  if usb_configured (USBUART st)
  then Done (tt,
             mkState
               (mkUsb true false (S (usb_cdc_inits (USBUART st)))
                      (usb_out_ready (USBUART st)) (usb_out_fifo (USBUART st))
                      (usb_in_ready (USBUART st)) (usb_in_sent (USBUART st)))
               (_tempBuffer st)
               (mkRing RX_BUFFER_SIZE []) (mkRing TX_BUFFER_SIZE [])
               (_txZlpRequired st) (_txReject st))
  else Waiting.
Proof.
  destruct st as [[conf chg inits oready fifo iready sent] tmp rx tx z r].
  destruct conf; reflexivity.
Qed.

(** ** Liveness of a blocked put *)

(** A put blocked on a full TX ring gets through after the purge: with the
    TX ring full, [usbuart_putch] keeps waiting; after nine consecutive ticks
    at which the IN endpoint is not ready the queued bytes are gone, and the
    same call returns with its byte alone in the ring. *)
Theorem purge_unblocks_put (b : byte) (more : list byte) (st st' : state) :
  state_ok st ->
  ringbuf_bytes_free (_txBuffer st) = 0 ->
  _txReject st = 0 ->
  cdc_ready st ->
  stalled_ticks 9 st st' ->
  cdc_ready st' ->
  usbuart_putch (Buf (b :: more)) st = Waiting /\
  exists st'',
    usbuart_putch (Buf (b :: more)) st' = Done (tt, st'') /\
    rb_bytes (_txBuffer st'') = [b] /\
    usb_in_sent (USBUART st'') = usb_in_sent (USBUART st).
Proof.
  intros [_ [Htcap Htused]] Hfull Hzero Hcdc Hrun Hcdc'.
  assert (Hne : ringbuf_is_empty (_txBuffer st) = false).
  { unfold ringbuf_is_empty. apply Z.eqb_neq.
    unfold ringbuf_bytes_free, TX_BUFFER_SIZE in *. lia. }
  split.
  { rewrite putch_outcomes by assumption. now rewrite Hfull. }
  inversion Hrun as [| n st0 st1 st2 st3 Hrun8 (u & -> & Hsent) Hready Htick];
    subst.
  destruct (stalled_ticks_count st Hne Hzero 8 st1 ltac:(lia) Hrun8)
    as (Hr & Ht & _ & Hs).
  pose proof (stalled_tick (set_USBUART u st1) st') as Hstep.
  cbn [_txBuffer _txZlpRequired _txReject USBUART set_USBUART] in Hstep.
  rewrite Ht, Hr in Hstep.
  specialize (Hstep (or_introl Hne) Hready Htick). cbv zeta in Hstep.
  change (to_uint8 (Z.of_nat 8 + 1) >? TX_MAX_REJECT) with true in Hstep.
  destruct Hstep as (_ & Ht' & _ & Hs').
  rewrite putch_outcomes by assumption.
  assert (Hfree' : ringbuf_bytes_free (_txBuffer st') = 256).
  { rewrite Ht'. unfold ringbuf_bytes_free, ringbuf_bytes_used, ringbuf_reset.
    cbn [rb_bytes rb_capacity]. rewrite Htcap. reflexivity. }
  rewrite Hfree'. cbn [Z.leb Z.compare Pos.compare Pos.compare_cont].
  eexists. split; [reflexivity|].
  cbn [_txBuffer set_txBuffer rb_bytes USBUART set_USBUART].
  rewrite Ht', cdc_checked_in_sent. split; [reflexivity|]. congruence.
Qed.

(** ** Single bytes through the servicer *)

(** Bytes put while a loopback is under way join the end of the stream. *)
Lemma put_bytes_in_flight (bs : list byte) :
  forall (content : list byte) (st : state),
    in_flight content st ->
    zlength content + zlength bs <= 256 ->
    exists st',
      put_bytes bs st = Done (tt, st') /\
      in_flight (content ++ bs) st' /\
      rb_bytes (_rxBuffer st') = rb_bytes (_rxBuffer st) /\
      usb_out_fifo (USBUART st') = usb_out_fifo (USBUART st).
Proof.
  induction bs as [|b bs IH]; intros content st Hin Hlen.
  - exists st. rewrite app_nil_r.
    split; [reflexivity|]. split; [assumption|]. split; reflexivity.
  - rewrite zlength_cons in Hlen. pose proof (zlength_nonneg bs) as Hbs.
    destruct Hin as ([[Hrcap Hrused] [Htcap Htused]] & Hcontent & Hready
                     & Hin_ready & Hchg & Hsize & Hpk).
    assert (Hsplit : zlength (rb_bytes (_rxBuffer st))
                     + zlength (usb_out_fifo (USBUART st))
                     + zlength (rb_bytes (_txBuffer st)) = zlength content)
      by (rewrite <- Hcontent, !zlength_app; lia).
    pose proof (zlength_nonneg (rb_bytes (_rxBuffer st))).
    pose proof (zlength_nonneg (usb_out_fifo (USBUART st))).
    cbn [put_bytes]. unfold bind at 1.
    rewrite putch_outcomes by (now left).
    assert (Hfree : 1 <= ringbuf_bytes_free (_txBuffer st))
      by (unfold ringbuf_bytes_free, ringbuf_bytes_used, TX_BUFFER_SIZE in *;
          lia).
    destruct (Z.leb_spec 1 (ringbuf_bytes_free (_txBuffer st))); [|lia].
    set (st1 := set_txBuffer _ _).
    assert (Hin1 : in_flight (content ++ [b]) st1).
    { unfold in_flight, state_ok, ring_ok, ringbuf_bytes_used, packet_sized,
        USBUART_GetCount in *. subst st1.
      unfold cdc_checked. rewrite Hchg.
      cbn [USBUART _rxBuffer _txBuffer set_USBUART set_txBuffer
           USBUART_IsConfigurationChanged snd usb_out_fifo usb_out_ready
           usb_in_ready usb_config_changed rb_bytes rb_capacity].
      rewrite !zlength_app. change (zlength [b]) with 1.
      unfold ringbuf_bytes_used, RX_BUFFER_SIZE, TX_BUFFER_SIZE in *.
      repeat split; try assumption; try lia.
      rewrite <- Hcontent, <- !app_assoc. reflexivity. }
    destruct (IH (content ++ [b]) st1 Hin1) as (st' & Hrun & Hin' & Hr & Hf).
    { rewrite zlength_app. change (zlength [b]) with 1. lia. }
    exists st'. split; [exact Hrun|].
    rewrite <- app_assoc in Hin'. split; [exact Hin'|].
    rewrite Hr, Hf. subst st1. unfold cdc_checked. rewrite Hchg.
    split; reflexivity.
Qed.

(** Reading the front of the RX ring byte by byte. *)
Lemma get_bytes_front (bs : list byte) :
  forall (rest : list byte) (st : state),
    rb_bytes (_rxBuffer st) = bs ++ rest ->
    usb_config_changed (USBUART st) = false ->
    exists st',
      get_bytes (length bs) st = Done (bs, st') /\
      rb_bytes (_rxBuffer st') = rest /\
      _txBuffer st' = _txBuffer st /\
      usb_config_changed (USBUART st') = false.
Proof.
  induction bs as [|b bs IH]; intros rest st Hb Hchg.
  - exists st. repeat split; assumption.
  - cbn [length get_bytes]. unfold bind at 1.
    rewrite getch_outcomes by (now left).
    rewrite Hb. cbn [app skipn]. cbn [Z.eqb].
    set (st1 := set_rxBuffer _ _).
    destruct (IH rest st1) as (st' & Hrun & Hrest & Htx & Hchg').
    + reflexivity.
    + subst st1. unfold cdc_checked. rewrite Hchg. reflexivity.
    + exists st'. unfold bind at 1. rewrite Hrun.
      repeat split; assumption.
Qed.

(** Bytes come back in the order they were put: from idle, [usbuart_putch]
    for each of up to 256 bytes, then five ticks with a host that echoes
    every IN transfer, then as many calls of [usbuart_getch] deliver exactly
    these bytes in their order; the RX ring is empty afterwards and one more
    [usbuart_getch] returns 0. *)
Theorem bytes_come_back_in_order (bs : list byte) (st : state) :
  state_ok st ->
  rb_bytes (_rxBuffer st) = [] ->
  rb_bytes (_txBuffer st) = [] ->
  usb_out_fifo (USBUART st) = [] ->
  usb_out_ready (USBUART st) = false ->
  usb_in_ready (USBUART st) = true ->
  usb_config_changed (USBUART st) = false ->
  zlength bs <= 256 ->
  exists st1 st2 st3,
    put_bytes bs st = Done (tt, st1) /\
    rb_bytes (_txBuffer st1) = bs /\
    times 5 echo_tick st1 = Done (tt, st2) /\
    get_bytes (length bs) st2 = Done (bs, st3) /\
    rb_bytes (_rxBuffer st3) = [] /\
    usbuart_getch (Buf [x00]) st3 = Done ((0, Buf [x00]), st3).
Proof.
  intros Hok Hrx Htx Hfifo Hout Hin Hchg Hlen.
  assert (Hidle : in_flight [] st).
  { unfold in_flight, packet_sized, USBUART_GetCount.
    rewrite Hrx, Hfifo, Htx, Hout.
    repeat split; try assumption; try apply Hok; discriminate. }
  destruct (put_bytes_in_flight bs [] st Hidle)
    as (st1 & Hput & Hin1 & Hr1 & Hf1).
  { rewrite zlength_nil. lia. }
  cbn [app] in Hin1.
  assert (Htx1 : rb_bytes (_txBuffer st1) = bs).
  { destruct Hin1 as (_ & Hcontent & _).
    rewrite Hr1, Hf1, Hrx, Hfifo in Hcontent. exact Hcontent. }
  destruct (in_flight_arrives bs st1 Hin1)
    as (st2 & Hrun & Hrx2 & Htx2 & _ & Hok2 & Hchg2).
  destruct (get_bytes_front bs [] st2) as (st3 & Hget & Hrx3 & _ & Hchg3).
  { now rewrite app_nil_r. }
  { assumption. }
  exists st1, st2, st3. repeat split; try assumption.
  rewrite getch_outcomes by (now left). now rewrite Hrx3.
Qed.

(** ** Packets on the wire *)

(** One tick with the IN endpoint ready: what it hands over, what it leaves
    in the TX ring and what it does to the flag. *)
Lemma ready_tick_log (st st' : state) :
  USBUART_CDCIsReady (USBUART st) = true ->
  int_usbuart_isr st = Done (tt, st') ->
  rb_bytes (_txBuffer st') = skipn 64 (rb_bytes (_txBuffer st)) /\
  usb_in_sent (USBUART st')
  = usb_in_sent (USBUART st)
    ++ pump_packets 1 (_txZlpRequired st) (rb_bytes (_txBuffer st)) /\
  _txZlpRequired st'
  = match rb_bytes (_txBuffer st), _txZlpRequired st with
    | [], false => false
    | _, _ => (64 <=? length (rb_bytes (_txBuffer st)))%nat
    end.
Proof.
  intros Hready Htick.
  destruct (tick_tx_cases st) as (st1 & Htick1 & Hcases).
  rewrite Htick in Htick1. injection Htick1 as <-.
  cbn [pump_packets].
  destruct Hcases
    as [(He & Hz & Ht & Hz1 & _ & Hs)
       | [(Htrans & Hpkt & Hcount & Ht & _ & Hs & Hz1 & _)
         | (_ & Hnot & _)]]; cbv zeta in *.
  - unfold ringbuf_is_empty, ringbuf_bytes_used, zlength in He.
    apply Z.eqb_eq in He.
    assert (Hnil : rb_bytes (_txBuffer st) = [])
      by (apply length_zero_iff_nil; lia).
    rewrite Ht, Hnil, Hz, Hs, Hz1, Hz, app_nil_r. repeat split.
  - rewrite Hs, Hz1, Ht. unfold ringbuf_bytes_used.
    rewrite firstn_MIN_packet, skipn_MIN_packet.
    assert (Hfull : (MIN (zlength (rb_bytes (_txBuffer st)))
                         USBUART_MAX_PACKET_SIZE =? USBUART_MAX_PACKET_SIZE)
                    = (64 <=? length (rb_bytes (_txBuffer st)))%nat).
    { unfold MIN, USBUART_MAX_PACKET_SIZE, zlength.
      destruct (Z.ltb_spec (Z.of_nat (length (rb_bytes (_txBuffer st)))) 64),
               (Nat.leb_spec 64 (length (rb_bytes (_txBuffer st)))); try lia;
        first [reflexivity | apply Z.eqb_neq; lia]. }
    rewrite Hfull.
    destruct Htrans as [[Hne | Hflag] _].
    + destruct (rb_bytes (_txBuffer st)) as [|b l] eqn:Eb.
      * unfold ringbuf_is_empty, ringbuf_bytes_used in Hne.
        rewrite Eb in Hne. discriminate.
      * repeat split.
    + rewrite Hflag.
      destruct (rb_bytes (_txBuffer st)); repeat split.
  - unfold USBUART_CDCIsReady in *. congruence.
Qed.

Lemma pump_packets_idle (n : nat) : pump_packets n false [] = [].
Proof. induction n as [|n IH]; [reflexivity | exact IH]. Qed.

Lemma pump_packets_step (n : nat) (zlp : bool) (tx : list byte) :
  pump_packets (S n) zlp tx
  = pump_packets 1 zlp tx
    ++ pump_packets n
         (match tx, zlp with
          | [], false => false
          | _, _ => (64 <=? length tx)%nat
          end)
         (skipn 64 tx).
Proof.
  destruct tx as [|b l], zlp; cbn [pump_packets app]; reflexivity.
Qed.

(** The log and the TX ring after [n] ready ticks. *)
Lemma ready_ticks_log (n : nat) (st st' : state) :
  ready_ticks n st st' ->
  rb_bytes (_txBuffer st') = skipn (64 * n) (rb_bytes (_txBuffer st)) /\
  usb_in_sent (USBUART st')
  = usb_in_sent (USBUART st)
    ++ pump_packets n (_txZlpRequired st) (rb_bytes (_txBuffer st)).
Proof.
  induction 1 as [st | n st st1 st2 st3 (u & -> & Hsent) Hready _ Htick _ IH].
  - rewrite Nat.mul_0_r, app_nil_r. split; reflexivity.
  - destruct (ready_tick_log _ st2 Hready Htick) as (Ht2 & Hs2 & Hz2).
    cbn [USBUART _txBuffer _txZlpRequired set_USBUART] in Ht2, Hs2, Hz2.
    destruct IH as [Ht3 Hs3]. split.
    + rewrite Ht3, Ht2, skipn_skipn. f_equal. lia.
    + rewrite Hs3, Hs2, Ht2, Hz2, Hsent, <- app_assoc, <- pump_packets_step.
      reflexivity.
Qed.

(** A run of ready ticks exists from every state: the host may make the IN
    endpoint ready and leave the OUT endpoint empty before each tick. *)
Lemma ready_ticks_exist (n : nat) :
  forall st : state, exists st', ready_ticks n st st'.
Proof.
  induction n as [|n IH]; intros st.
  - exists st. constructor.
  - set (u := mkUsb (usb_configured (USBUART st))
                    (usb_config_changed (USBUART st))
                    (usb_cdc_inits (USBUART st)) false [] true
                    (usb_in_sent (USBUART st))).
    destruct (isr_total (set_USBUART u st)) as (st2 & Htick).
    destruct (IH st2) as (st3 & Hrun).
    exists st3. eapply ready_more; [| | | exact Htick | exact Hrun].
    + exists u. split; reflexivity.
    + reflexivity.
    + unfold packet_sized. cbn. discriminate.
Qed.

(** The packets the transmit pump puts on the wire.  Over [n] consecutive
    ticks with no call in between, the host acting before each, the IN
    endpoint ready at each and the OUT endpoint holding at most one packet
    (such runs exist from every state), the transfers handed to the USB
    layer are the content of the TX ring cut into packets of 64 bytes, the
    last one shorter; when the content ends on a packet boundary a
    zero-length transfer follows the last full packet, once; an empty ring
    with no zero-length packet owed sends nothing; and what is left in the
    TX ring is its content without the first [64 * n] bytes. *)
Theorem pump_sends_packets (n : nat) (st : state) :
  (exists st', ready_ticks n st st') /\
  (forall st',
      ready_ticks n st st' ->
      usb_in_sent (USBUART st')
      = usb_in_sent (USBUART st)
        ++ pump_packets n (_txZlpRequired st) (rb_bytes (_txBuffer st)) /\
      rb_bytes (_txBuffer st') = skipn (64 * n) (rb_bytes (_txBuffer st))).
Proof.
  split; [apply ready_ticks_exist|].
  intros st' Hrun. destruct (ready_ticks_log n st st' Hrun) as [Ht Hs].
  now split.
Qed.

(** The reference cutting itself ends a run of full packets with exactly one
    zero-length packet: [k >= 1] full packets and nothing more in the ring
    give [k] packets of 64 bytes and one empty one, however many ticks
    follow. *)
Lemma pump_packets_boundary (k extra : nat) (tx : list byte) :
  length tx = (64 * S k)%nat ->
  exists full,
    pump_packets (S k + 1 + extra) false tx = full ++ [[]] /\
    length full = S k /\
    concat full = tx /\
    Forall (fun pkt => length pkt = 64%nat) full.
Proof.
  revert tx. induction k as [|k IH]; intros tx Hlen.
  - exists [tx].
    destruct tx as [|b l]; [discriminate|].
    cbn [Nat.add pump_packets].
    rewrite firstn_all2 by lia. rewrite skipn_all2 by lia.
    replace (64 <=? length (b :: l))%nat with true
      by (symmetry; apply Nat.leb_le; lia).
    cbn [firstn]. rewrite pump_packets_idle.
    repeat split; try (cbn; now rewrite app_nil_r).
    constructor; [lia | constructor].
  - destruct tx as [|b l] eqn:Etx; [discriminate|]. rewrite <- Etx in *.
    destruct (IH (skipn 64 tx)) as (full & Hrun & Hfull & Hcat & Hall).
    { rewrite length_skipn. lia. }
    exists (firstn 64 tx :: full).
    replace (S (S k) + 1 + extra)%nat with (S (S k + 1 + extra)) by lia.
    rewrite pump_packets_step.
    replace (pump_packets 1 false tx) with [firstn 64 tx]
      by (rewrite Etx; reflexivity).
    replace (match tx with
             | [] => false
             | _ :: _ => (64 <=? length tx)%nat
             end) with true
      by (rewrite Etx; symmetry; apply Nat.leb_le; rewrite <- Etx; lia).
    assert (Hnext : pump_packets (S k + 1 + extra) true (skipn 64 tx)
                    = pump_packets (S k + 1 + extra) false (skipn 64 tx)).
    { destruct (skipn 64 tx) as [|c m] eqn:Es.
      - apply (f_equal (@length _)) in Es. rewrite length_skipn in Es.
        simpl in Es. lia.
      - reflexivity. }
    rewrite Hnext, Hrun. cbn [app].
    repeat split.
    + cbn [length]. now rewrite Hfull.
    + cbn [concat]. rewrite Hcat. apply firstn_skipn.
    + constructor; [|exact Hall]. rewrite length_firstn. lia.
Qed.

(** Content that ends on a packet boundary is closed by one zero-length
    transfer: with [64 * k] bytes ([k >= 1]) in the TX ring and no
    zero-length packet owed, [k + 1] consecutive ready ticks (no call in
    between, at most one packet at the OUT endpoint) send [k] packets of 64
    bytes, whose concatenation is the content, and then one empty transfer,
    leaving the ring empty; any number of further ready ticks send nothing
    more. *)
Theorem full_packets_then_one_zlp (k extra : nat) (st st' : state) :
  ready_ticks (S k + 1 + extra) st st' ->
  _txZlpRequired st = false ->
  length (rb_bytes (_txBuffer st)) = (64 * S k)%nat ->
  exists full,
    usb_in_sent (USBUART st') = usb_in_sent (USBUART st) ++ full ++ [[]] /\
    length full = S k /\
    concat full = rb_bytes (_txBuffer st) /\
    Forall (fun pkt => length pkt = 64%nat) full /\
    rb_bytes (_txBuffer st') = [].
Proof.
  intros Hrun Hflag Hlen.
  destruct (ready_ticks_log _ st st' Hrun) as [Ht Hs].
  destruct (pump_packets_boundary k extra _ Hlen)
    as (full & Hpk & Hfull & Hcat & Hall).
  exists full. rewrite Hs, Hflag, Hpk. repeat split; try assumption.
  rewrite Ht. apply skipn_all2. lia.
Qed.

(** A line that holds the terminator does not survive the round trip:
    [usbuart_putline] queues it whole, the servicer and an echoing host carry
    it into the RX ring, and [usbuart_getline] delivers only what precedes
    the first terminator; the remainder and the terminator that
    [usbuart_putline] appended stay in the RX ring as a second line. *)
Theorem line_with_terminator_is_split (pre post mem : list byte)
    (st : state) :
  state_ok st ->
  rb_bytes (_rxBuffer st) = [] ->
  rb_bytes (_txBuffer st) = [] ->
  usb_out_fifo (USBUART st) = [] ->
  usb_out_ready (USBUART st) = false ->
  usb_in_ready (USBUART st) = true ->
  usb_config_changed (USBUART st) = false ->
  zlength (pre ++ USBUART_LINE_TERMINATOR :: post) <= 255 ->
  ~ In USBUART_LINE_TERMINATOR pre ->
  exists st1 st2 st3,
    usbuart_putline (Buf (pre ++ USBUART_LINE_TERMINATOR :: post))
                    (zlength (pre ++ USBUART_LINE_TERMINATOR :: post)) st
    = Done (tt, st1) /\
    times 5 echo_tick st1 = Done (tt, st2) /\
    usbuart_getline (Buf mem) st2
    = Done ((zlength pre, Buf (store mem pre)), st3) /\
    rb_bytes (_rxBuffer st3) = post ++ [USBUART_LINE_TERMINATOR].
Proof.
  intros Hok Hrx Htx Hfifo Hout Hin Hchg Hlen Hnot.
  set (s := pre ++ USBUART_LINE_TERMINATOR :: post) in *.
  pose proof Hok as [[Hrcap Hrused] [Htcap Htused]].
  assert (Hcdc : cdc_ready st) by (now left).
  assert (Hpos : 1 <= zlength s).
  { subst s. unfold zlength. rewrite length_app. cbn [length]. lia. }
  pose proof (putline_enqueues s [] st Hcdc ltac:(lia)) as Hput.
  rewrite app_nil_r, Htx in Hput. cbn [app] in Hput.
  specialize (Hput ltac:(unfold ringbuf_bytes_free, ringbuf_bytes_used;
                         rewrite Htx, Htcap; unfold TX_BUFFER_SIZE;
                         rewrite zlength_nil; lia)).
  pose proof (idle_put_in_flight st (s ++ [USBUART_LINE_TERMINATOR])
                Hok Hrx Hfifo Hout Hin Hchg) as Hflight.
  specialize (Hflight ltac:(rewrite zlength_app;
                            change (zlength [USBUART_LINE_TERMINATOR]) with 1;
                            lia)).
  destruct (in_flight_arrives _ _ Hflight)
    as (st2 & Hrun & Hrx2 & _ & _ & Hok2 & Hchg2).
  assert (Hrx2' : rb_bytes (_rxBuffer st2)
                  = pre ++ USBUART_LINE_TERMINATOR
                        :: (post ++ [USBUART_LINE_TERMINATOR])).
  { rewrite Hrx2. subst s. now rewrite <- app_assoc. }
  eexists. exists st2. eexists.
  split; [exact Hput|]. split; [exact Hrun|].
  rewrite (getline_first_line mem pre _ st2 Hok2 (or_introl Hchg2) Hrx2' Hnot).
  split; reflexivity.
Qed.

(** ** The further theorems at concrete states *)

Lemma s1_sent_reachable : reachable x02 x03 s1_sent.
Proof.
  eapply reach_step;
    [ eapply reach_step;
      [ eapply reach_step;
        [ apply (reach_power_on x02 x03 usb_idle); reflexivity
        | apply step_call with (c := Call_init); vm_compute; reflexivity ]
      | apply step_call with (c := Call_putline (Buf line63) 63);
        vm_compute; reflexivity ]
    | apply step_tick; vm_compute; reflexivity ].
Qed.

Lemma s1_closed_reachable : reachable x02 x03 s1_closed.
Proof.
  eapply reach_step;
    [ apply s1_sent_reachable | apply step_tick; vm_compute; reflexivity ].
Qed.

Lemma idle_ok : state_ok (scenario usb_idle [] [] false 0).
Proof. scenario_ok. Qed.

(** [H] comes out of S2, [ello\nW] stays. *)
Lemma usbuart_getch_oldest_byte_witness :
  usbuart_getch (Buf [x00]) s2_line
  = Done ((1, Buf [x48]),
          scenario usb_idle [x65; x6c; x6c; x6f; x0a; x57] [] false 0).
Proof.
  exact (usbuart_getch_oldest_byte [x00] s2_line (or_introl eq_refl)).
Defined.

(** One byte into the empty TX ring. *)
Lemma usbuart_putch_appends_or_waits_witness :
  usbuart_putch (Buf [x41]) (scenario usb_idle [] [] false 0)
  = Done (tt, scenario usb_idle [] [x41] false 0).
Proof.
  exact (usbuart_putch_appends_or_waits x41 []
           (scenario usb_idle [] [] false 0) (or_introl eq_refl)).
Defined.

(** [Hi] is queued with its terminator. *)
Lemma usbuart_putline_outcomes_witness :
  usbuart_putline (Buf [x48; x69]) 2 (scenario usb_idle [] [] false 0)
  = Done (tt, scenario usb_idle [] [x48; x69; x0a] false 0).
Proof.
  exact (usbuart_putline_outcomes [x48; x69] 2
           (scenario usb_idle [] [] false 0) (or_introl eq_refl)).
Defined.

(** [ABC] is framed as [0x02 0x06 A B C 0x03]. *)
Lemma usbuart_putmsg_frame_witness :
  usbuart_putmsg x02 x03 (Buf [x41; x42; x43]) 3
                 (scenario usb_idle [] [] false 0)
  = Done (tt, scenario usb_idle [] [x02; x06; x41; x42; x43; x03] false 0).
Proof.
  assert (Hrange : 1 <= to_uint8 3 <= 252)
    by (split; vm_compute; discriminate).
  assert (Hmem : to_uint8 3 <= zlength [x41; x42; x43])
    by (vm_compute; discriminate).
  exact (proj2 (usbuart_putmsg_frame x02 x03 [x41; x42; x43] 3
                  (scenario usb_idle [] [] false 0)
                  (or_introl eq_refl) Hrange Hmem)).
Defined.

(** A payload of 253 bytes into the empty TX ring: the frame fills the
    ring and its length byte is 0. *)
Lemma usbuart_putmsg_length_wraps_witness :
  to_uint8 (253 + MSG_STRUCTURE_LENGTH) = 0 /\
  usbuart_putmsg x02 x03 (Buf (repeat x41 253)) 253
                 (scenario usb_idle [] [] false 0)
  = Done (tt,
          scenario usb_idle []
                   (x02 :: x00 :: repeat x41 253 ++ [x03]) false 0).
Proof.
  assert (Hrange : 253 <= to_uint8 253 <= zlength (repeat x41 253))
    by (split; vm_compute; discriminate).
  assert (Hfree : to_uint8 253 - 253
                  <= ringbuf_bytes_free
                       (_txBuffer (scenario usb_idle [] [] false 0)))
    by (vm_compute; discriminate).
  pose proof (usbuart_putmsg_length_wraps x02 x03 (repeat x41 253) 253
                (scenario usb_idle [] [] false 0)
                idle_ok (or_introl eq_refl) Hrange) as H.
  cbv zeta in H. destruct H as (Hwrap & _ & Hrun).
  split; [exact Hwrap|].
  exact (proj1 (Hrun Hfree) (conj eq_refl eq_refl)).
Defined.

(** S3: the frame behind two bytes of garbage is delivered. *)
Lemma usbuart_getmsg_delivers_frame_witness :
  usbuart_getmsg x02 x03 (Buf []) s3_garbage
  = Done ((3, Buf [x41; x42; x43]), scenario usb_idle [] [] false 0).
Proof.
  assert (Hok : state_ok s3_garbage) by scenario_ok.
  assert (Hnot : ~ In x02 [xff; xff]) by (simpl; intuition discriminate).
  exact (usbuart_getmsg_delivers_frame x02 x03 [] [xff; xff] [x41; x42; x43]
           [] x06 s3_garbage Hok (or_introl eq_refl) eq_refl Hnot eq_refl).
Defined.

(** A first byte alone behind one byte of garbage: the garbage goes, the
    first byte stays. *)
Lemma usbuart_getmsg_keeps_partial_frame_witness :
  usbuart_getmsg x02 x03 (Buf []) garbage_then_first
  = Done ((0, Buf []), scenario usb_idle [x02] [] false 0) /\
  usbuart_getmsg x02 x03 (Buf []) (scenario usb_idle [x02] [] false 0)
  = Done ((0, Buf []), scenario usb_idle [x02] [] false 0).
Proof.
  assert (Hok : state_ok garbage_then_first) by scenario_ok.
  assert (Hnot : ~ In x02 [x41]) by (simpl; intuition discriminate).
  exact (usbuart_getmsg_keeps_partial_frame x02 x03 [] [x41] []
           garbage_then_first Hok eq_refl Hnot (or_introl eq_refl)).
Defined.

Lemma two_packets_in_flight : in_flight (repeat x61 128) two_packets.
Proof. scenario_ok. Qed.

(** Two packets of content arrive in the RX ring. *)
Lemma servicer_carries_stream_in_order_witness :
  exists st',
    times 5 echo_tick two_packets = Done (tt, st') /\
    rb_bytes (_rxBuffer st') = repeat x61 128 /\
    rb_bytes (_txBuffer st') = [].
Proof.
  destruct (servicer_carries_stream_in_order (repeat x61 128) two_packets
              two_packets_in_flight)
    as (st' & Hrun & Hrx & Htx & _).
  exists st'. repeat split; assumption.
Defined.

(** [ABC] goes out framed and comes back. *)
Lemma message_roundtrip_through_servicer_witness :
  exists st1 st2 st3,
    usbuart_putmsg x02 x03 (Buf [x41; x42; x43]) 3
                   (scenario usb_idle [] [] false 0) = Done (tt, st1) /\
    times 5 echo_tick st1 = Done (tt, st2) /\
    usbuart_getmsg x02 x03 (Buf []) st2
    = Done ((3, Buf [x41; x42; x43]), st3) /\
    rb_bytes (_rxBuffer st3) = [].
Proof.
  assert (Hlen : 1 <= zlength [x41; x42; x43] <= 252)
    by (split; vm_compute; discriminate).
  destruct (message_roundtrip_through_servicer x02 x03 [x41; x42; x43] []
              (scenario usb_idle [] [] false 0)
              idle_ok eq_refl eq_refl eq_refl eq_refl eq_refl eq_refl Hlen)
    as (st1 & st2 & st3 & Hput & Hrun & Hget & Hrx & _).
  exists st1, st2, st3. repeat split; assumption.
Defined.

(** The counter at S1 after the first tick. *)
Lemma reject_counter_bounded_witness :
  0 <= _txReject s1_sent <= TX_MAX_REJECT.
Proof.
  exact (reject_counter_bounded x02 x03 s1_sent s1_sent_reachable).
Defined.

(** The log of S1 after the second tick: a full packet, then the
    zero-length packet. *)
Lemma zero_length_packet_only_after_full_witness :
  usb_in_sent (USBUART s1_closed) = [line63 ++ [x0a]; []] /\
  log_ok (usb_in_sent (USBUART s1_closed)).
Proof.
  split; [reflexivity|].
  exact (zero_length_packet_only_after_full x02 x03 s1_closed
           s1_closed_reachable).
Defined.

(** After a change of configuration the next check initialises CDC once
    more and leaves the rings alone. *)
Lemma init_cdc_settles_witness :
  usb_config_changed
    (USBUART (scenario (mkUsb true false 2 false [] true [])
                       [x41] [] false 0)) = false /\
  usb_cdc_inits
    (USBUART (scenario (mkUsb true false 2 false [] true [])
                       [x41] [] false 0)) = 2%nat /\
  _init_cdc false (scenario (mkUsb true false 2 false [] true [])
                            [x41] [] false 0)
  = Done (tt, scenario (mkUsb true false 2 false [] true [])
                       [x41] [] false 0).
Proof.
  assert (Hrun : _init_cdc false reconfigured
                 = Done (tt, scenario (mkUsb true false 2 false [] true [])
                                      [x41] [] false 0))
    by (vm_compute; reflexivity).
  destruct (init_cdc_settles false reconfigured _ Hrun)
    as (Hchg & Hinits & _ & _ & _ & _ & _ & _ & _ & Hagain).
  split; [exact Hchg|]. split; [exact Hinits | exact Hagain].
Defined.

Lemma tx_full_nine_ticks :
  stalled_ticks 9 tx_full_stalled (scenario usb_stalled [] [] false 0).
Proof.
  do 9 (eapply stalled_ticks_first;
        [ apply host_step_refl | reflexivity | vm_compute; reflexivity | ]).
  apply stalled_none.
Qed.

(** A full TX ring refuses a byte; nine stalled ticks later it takes it. *)
Lemma purge_unblocks_put_witness :
  usbuart_putch (Buf [x41]) tx_full_stalled = Waiting /\
  exists st'',
    usbuart_putch (Buf [x41]) (scenario usb_stalled [] [] false 0)
    = Done (tt, st'') /\
    rb_bytes (_txBuffer st'') = [x41].
Proof.
  assert (Hok : state_ok tx_full_stalled) by scenario_ok.
  destruct (purge_unblocks_put x41 [] tx_full_stalled
              (scenario usb_stalled [] [] false 0)
              Hok eq_refl eq_refl (or_introl eq_refl)
              tx_full_nine_ticks (or_introl eq_refl))
    as (Hwait & st'' & Hput & Htx & _).
  split; [exact Hwait|]. exists st''. split; assumption.
Defined.

(** Three bytes, one call each way per byte. *)
Lemma bytes_come_back_in_order_witness :
  exists st1 st2 st3,
    put_bytes [x41; x42; x43] (scenario usb_idle [] [] false 0)
    = Done (tt, st1) /\
    times 5 echo_tick st1 = Done (tt, st2) /\
    get_bytes 3 st2 = Done ([x41; x42; x43], st3) /\
    rb_bytes (_rxBuffer st3) = [].
Proof.
  assert (Hlen : zlength [x41; x42; x43] <= 256)
    by (vm_compute; discriminate).
  destruct (bytes_come_back_in_order [x41; x42; x43]
              (scenario usb_idle [] [] false 0)
              idle_ok eq_refl eq_refl eq_refl eq_refl eq_refl eq_refl Hlen)
    as (st1 & st2 & st3 & Hput & _ & Hrun & Hget & Hrx & _).
  exists st1, st2, st3. repeat split; assumption.
Defined.

(** [Hi] through the servicer. *)
Lemma line_roundtrip_through_servicer_witness :
  exists st1 st2 st3,
    usbuart_putline (Buf [x48; x69]) 2 (scenario usb_idle [] [] false 0)
    = Done (tt, st1) /\
    times 5 echo_tick st1 = Done (tt, st2) /\
    usbuart_getline (Buf []) st2 = Done ((2, Buf [x48; x69]), st3) /\
    rb_bytes (_rxBuffer st3) = [].
Proof.
  assert (Hlen : 1 <= zlength [x48; x69] <= 255)
    by (split; vm_compute; discriminate).
  assert (Hnot : ~ In USBUART_LINE_TERMINATOR [x48; x69])
    by (simpl; intuition discriminate).
  destruct (line_roundtrip_through_servicer [x48; x69] []
              (scenario usb_idle [] [] false 0)
              idle_ok eq_refl eq_refl eq_refl eq_refl eq_refl eq_refl
              Hlen Hnot)
    as (st1 & st2 & st3 & Hput & Hrun & _ & Hget & Hrx).
  exists st1, st2, st3. repeat split; assumption.
Defined.

(** 128 bytes: two full packets, then the zero-length packet. *)
Lemma pump_sends_packets_witness :
  exists st',
    ready_ticks 3 two_packets st' /\
    usb_in_sent (USBUART st') = [repeat x61 64; repeat x61 64; []] /\
    rb_bytes (_txBuffer st') = [].
Proof.
  destruct (proj1 (pump_sends_packets 3 two_packets)) as [st' Hrun].
  exists st'. split; [exact Hrun|].
  exact (proj2 (pump_sends_packets 3 two_packets) st' Hrun).
Defined.

(** The same 128 bytes through the boundary theorem. *)
Lemma full_packets_then_one_zlp_witness :
  exists st' full,
    ready_ticks 3 two_packets st' /\
    usb_in_sent (USBUART st') = full ++ [[]] /\
    length full = 2%nat /\
    concat full = repeat x61 128.
Proof.
  destruct (ready_ticks_exist 3 two_packets) as [st' Hrun].
  destruct (full_packets_then_one_zlp 1 0 two_packets st' Hrun
              eq_refl eq_refl)
    as (full & Hsent & Hfull & Hcat & _).
  exists st', full. repeat split; assumption.
Defined.

(** [A\nB] comes back as the line [A]; [B\n] stays behind. *)
Lemma line_with_terminator_is_split_witness :
  exists st1 st2 st3,
    usbuart_putline (Buf [x41; x0a; x42]) 3
                    (scenario usb_idle [] [] false 0) = Done (tt, st1) /\
    times 5 echo_tick st1 = Done (tt, st2) /\
    usbuart_getline (Buf []) st2 = Done ((1, Buf [x41]), st3) /\
    rb_bytes (_rxBuffer st3) = [x42; x0a].
Proof.
  assert (Hlen : zlength ([x41] ++ USBUART_LINE_TERMINATOR :: [x42]) <= 255)
    by (vm_compute; discriminate).
  assert (Hnot : ~ In USBUART_LINE_TERMINATOR [x41])
    by (simpl; intuition discriminate).
  destruct (line_with_terminator_is_split [x41] [x42] []
              (scenario usb_idle [] [] false 0)
              idle_ok eq_refl eq_refl eq_refl eq_refl eq_refl eq_refl
              Hlen Hnot)
    as (st1 & st2 & st3 & Hput & Hrun & Hget & Hrx).
  exists st1, st2, st3. repeat split; assumption.
Defined.

(** * Calls with the interrupt enabled *)

(** ** Windows *)

(** Without events the call is the call above. *)
Lemma getline_irq_quiet (data : uint8_ptr) (st : state) :
  usbuart_getline_irq quiet data st = usbuart_getline data st.
Proof.
  destruct data as [|mem]; [reflexivity|].
  unfold usbuart_getline_irq, usbuart_getline, quiet.
  cbv [serve bind ret get].
  destruct (ringbuf_is_empty (_rxBuffer st)); reflexivity.
Qed.

(** The transmit pump keeps the rings well formed and the RX ring as it
    is. *)
Lemma tx_isr_ok (st st' : state) :
  state_ok st ->
  _usbuart_tx_isr st = Done (tt, st') ->
  state_ok st' /\ _rxBuffer st' = _rxBuffer st.
Proof.
  intros [[Hrcap Hrused] [Htcap Htused]].
  destruct (ringbuf_is_empty (_txBuffer st)) eqn:He,
           (_txZlpRequired st) eqn:Hz,
           (USBUART_CDCIsReady (USBUART st)) eqn:Hr;
    try (rewrite tx_isr_idle by assumption; intros H; injection H as <-;
         repeat split; assumption).
  all: try (rewrite tx_isr_reject by auto; cbv zeta;
            destruct (to_uint8 (_txReject st + 1) >? TX_MAX_REJECT);
            intros H; injection H as <-;
            repeat split; try assumption;
            unfold ringbuf_bytes_used, TX_BUFFER_SIZE; cbn; lia).
  all: rewrite tx_isr_send by (split; [auto | assumption]); cbv zeta.
  all: intros H; injection H as <-.
  all: repeat split; try assumption.
  all: unfold ringbuf_bytes_used, zlength in *.
  all: cbn [_txBuffer set_txReject set_txZlpRequired set_USBUART
            set_tempBuffer set_txBuffer rb_bytes].
  all: rewrite length_skipn; lia.
Qed.

(** The receive pump only appends to the RX ring. *)
Lemma rx_isr_appends (st : state) :
  state_ok st ->
  exists st' arrived,
    _usbuart_rx_isr st = Done (tt, st') /\
    rb_bytes (_rxBuffer st') = rb_bytes (_rxBuffer st) ++ arrived /\
    state_ok st'.
Proof.
  intros Hok. pose proof Hok as [[Hrcap Hrused] Htx].
  destruct (USBUART_DataIsReady (USBUART st)) eqn:Hready.
  - destruct (Z.le_gt_cases (USBUART_GetCount (USBUART st))
                            (ringbuf_bytes_free (_rxBuffer st)))
      as [Hfits|Hover].
    + rewrite rx_isr_drain; try assumption.
      * eexists. exists (usb_out_fifo (USBUART st)).
        split; [reflexivity|]. split; [reflexivity|].
        split; [split|exact Htx]; [exact Hrcap|].
        unfold USBUART_GetCount, ringbuf_bytes_free, ringbuf_bytes_used in *.
        cbn [_rxBuffer set_rxBuffer rb_bytes]. rewrite zlength_app.
        rewrite Hrcap in Hfits. lia.
      * unfold ringbuf_bytes_free, ringbuf_bytes_used, RX_BUFFER_SIZE in *.
        pose proof (zlength_nonneg (rb_bytes (_rxBuffer st))). lia.
    + rewrite rx_isr_idle by (right; lia).
      exists st, []. rewrite app_nil_r.
      split; [reflexivity|]. split; [reflexivity | exact Hok].
  - rewrite rx_isr_idle by (now left).
    exists st, []. rewrite app_nil_r.
    split; [reflexivity|]. split; [reflexivity | exact Hok].
Qed.

Lemma serve_event_appends (e : irq_event) (st : state) :
  state_ok st ->
  exists st' arrived,
    serve_event e st = Done (tt, st') /\
    rb_bytes (_rxBuffer st') = rb_bytes (_rxBuffer st) ++ arrived /\
    state_ok st'.
Proof.
  intros Hok. destruct e as [u|]; cbn [serve_event].
  - exists (host_sets u st), []. rewrite app_nil_r.
    split; [reflexivity|]. split; [reflexivity | exact Hok].
  - rewrite isr_unfold.
    destruct (rx_isr_appends st Hok) as (st1 & arrived & Hrx & Hb & Hok1).
    rewrite Hrx.
    destruct (tx_isr_total st1) as (st2 & Htx & _).
    destruct (tx_isr_ok st1 st2 Hok1 Htx) as [Hok2 Hsame].
    exists st2, arrived. rewrite Hsame.
    split; [exact Htx|]. split; [exact Hb | exact Hok2].
Qed.

(** Whatever is served in a window, the RX ring only grows at its end. *)
Lemma serve_appends (w : list irq_event) :
  forall st : state,
    state_ok st ->
    exists st' arrived,
      serve w st = Done (tt, st') /\
      rb_bytes (_rxBuffer st') = rb_bytes (_rxBuffer st) ++ arrived /\
      state_ok st'.
Proof.
  induction w as [|e w IH]; intros st Hok.
  - exists st, []. rewrite app_nil_r.
    split; [reflexivity|]. split; [reflexivity | exact Hok].
  - destruct (serve_event_appends e st Hok) as (st1 & a1 & He & Hb1 & Hok1).
    destruct (IH st1 Hok1) as (st2 & a2 & Hw & Hb2 & Hok2).
    exists st2, (a1 ++ a2). cbn [serve]. unfold bind. rewrite He.
    split; [exact Hw|]. split; [|exact Hok2].
    rewrite Hb2, Hb1, app_assoc. reflexivity.
Qed.

(** ** Reading a line with the interrupt enabled *)

(** The critical section of [usbuart_getline] with the offset [zlength pre]:
    [pre] is delivered, and [pre] and the byte behind it leave the ring. *)
Lemma getline_extract_front (mem pre post : list byte) (c : byte)
      (st : state) :
  state_ok st ->
  cdc_ready st ->
  rb_bytes (_rxBuffer st) = pre ++ c :: post ->
  getline_extract mem (zlength pre) st =
  Done ((zlength pre, Buf (store mem pre)),
        set_rxBuffer (mkRing (rb_capacity (_rxBuffer st)) post)
          (set_USBUART (cdc_checked (USBUART st)) st)).
Proof.
  intros [[Hcap Hused] _] Hcdc Hbytes.
  unfold getline_extract. unfold_monad.
  destruct (_rxBuffer st) as [cap bytes] eqn:Erx.
  cbn [rb_bytes rb_capacity] in *. subst bytes.
  rewrite used_app_cons in Hused. unfold RX_BUFFER_SIZE in *.
  pose proof (zlength_nonneg pre) as Hpre.
  pose proof (zlength_nonneg post) as Hpost.
  rewrite init_cdc_checked by assumption.
  cbn [_rxBuffer set_USBUART]. rewrite Erx.
  rewrite memcpy_from_ok by (rewrite used_app_cons; lia).
  cbn [rb_bytes rb_capacity]. rewrite firstn_zlength_app, skipn_zlength_app.
  cbn [_rxBuffer set_rxBuffer].
  rewrite remove_from_tail_ok
    by (unfold ringbuf_bytes_used; cbn [rb_bytes]; rewrite zlength_cons; lia).
  cbn [rb_bytes rb_capacity skipn Z.to_nat Pos.to_nat Pos.iter_op Nat.add].
  rewrite to_uint8_small by lia. reflexivity.
Qed.

Lemma getline_extract_waits (mem : list byte) (offs : Z) (st : state) :
  ~ cdc_ready st -> getline_extract mem offs st = Waiting.
Proof.
  intros Hcdc. unfold getline_extract, bind, _init_cdc, cdc_ready in *.
  destruct (USBUART st) as [conf chg inits oready fifo iready sent].
  cbn in *. destruct chg; [|tauto]. destruct conf; [tauto|]. reflexivity.
Qed.

(** The call with a non-empty ring: the three windows, the search and the
    test. *)
Lemma getline_irq_run (mem : list byte) (w : nat -> list irq_event)
      (st : state) :
  state_ok st ->
  rb_bytes (_rxBuffer st) <> [] ->
  exists s0 s1 s2 a0 a1 a2,
    serve (w 0%nat) st = Done (tt, s0) /\
    serve (w 1%nat) s0 = Done (tt, s1) /\
    serve (w 2%nat) s1 = Done (tt, s2) /\
    rb_bytes (_rxBuffer s0) = rb_bytes (_rxBuffer st) ++ a0 /\
    rb_bytes (_rxBuffer s1) = rb_bytes (_rxBuffer s0) ++ a1 /\
    rb_bytes (_rxBuffer s2) = rb_bytes (_rxBuffer s1) ++ a2 /\
    state_ok s0 /\ state_ok s1 /\ state_ok s2 /\
    usbuart_getline_irq w (Buf mem) st =
    (let offs :=
       to_uint16 (ringbuf_findchr (_rxBuffer s0) USBUART_LINE_TERMINATOR 0) in
     if offs =? ringbuf_bytes_used (_rxBuffer s1)
     then Done ((0, Buf mem), s1)
     else getline_extract mem offs s2).
Proof.
  intros Hok Hne.
  destruct (serve_appends (w 0%nat) st Hok) as (s0 & a0 & Hs0 & Hb0 & Hok0).
  destruct (serve_appends (w 1%nat) s0 Hok0) as (s1 & a1 & Hs1 & Hb1 & Hok1).
  destruct (serve_appends (w 2%nat) s1 Hok1) as (s2 & a2 & Hs2 & Hb2 & Hok2).
  exists s0, s1, s2, a0, a1, a2.
  repeat (split; [assumption|]).
  unfold usbuart_getline_irq, getline_extract.
  unfold bind at 1. unfold get at 1.
  replace (ringbuf_is_empty (_rxBuffer st)) with false.
  2:{ unfold ringbuf_is_empty, ringbuf_bytes_used, zlength.
      destruct (rb_bytes (_rxBuffer st)); [contradiction | reflexivity]. }
  unfold bind at 1. rewrite Hs0.
  unfold bind at 1. unfold get at 1.
  unfold bind at 1. rewrite Hs1.
  unfold bind at 1. unfold get at 1.
  cbv zeta.
  destruct (to_uint16 (ringbuf_findchr (_rxBuffer s0) USBUART_LINE_TERMINATOR 0)
            =? ringbuf_bytes_used (_rxBuffer s1)); [reflexivity|].
  unfold bind at 1. rewrite Hs2. reflexivity.
Qed.

(** C4 -- get-line postcondition, for the call as the source runs it, with
    the interrupt enabled outside the critical section.  For a non-null
    [data], a well-formed state and packets of at most 64 bytes: from an
    empty RX ring the call returns 0 and changes nothing.  Otherwise, with
    [a0] the bytes that arrive before the search, [a1] those that arrive
    between the search and the test of its result, and [a2] those that
    arrive before the critical section: when the ring searched holds a
    terminator, the first at offset [k], the call copies the [k] bytes
    before it to [data], removes them and the terminator and returns [k], as
    the claim says, once the configuration check returns; when it holds
    none and nothing arrives before the test, the call returns 0 and removes
    nothing, as the claim says; but when it holds none and bytes arrive
    before the test, the call takes the offset of the missing terminator
    for that of the first byte arrived: it returns the number of bytes
    searched, copies them all to [data] and removes them and one byte more,
    though the ring never held a terminator.  In every case a non-zero
    return value [r] means that exactly [r + 1] bytes have left the ring. *)
Theorem usbuart_getline_postcondition (mem : list byte)
        (w : nat -> list irq_event) (st : state) :
  state_ok st ->
  packet_sized (USBUART st) ->
  (forall i, window_ok (w i)) ->
  (rb_bytes (_rxBuffer st) = [] ->
   usbuart_getline_irq w (Buf mem) st = Done ((0, Buf mem), st)) /\
  (rb_bytes (_rxBuffer st) <> [] ->
   exists s0 s1 s2 a0 a1 a2,
     serve (w 0%nat) st = Done (tt, s0) /\
     serve (w 1%nat) s0 = Done (tt, s1) /\
     serve (w 2%nat) s1 = Done (tt, s2) /\
     rb_bytes (_rxBuffer s0) = rb_bytes (_rxBuffer st) ++ a0 /\
     rb_bytes (_rxBuffer s1) = rb_bytes (_rxBuffer s0) ++ a1 /\
     rb_bytes (_rxBuffer s2) = rb_bytes (_rxBuffer s1) ++ a2 /\
     (forall pre post,
         rb_bytes (_rxBuffer s0) = pre ++ USBUART_LINE_TERMINATOR :: post ->
         ~ In USBUART_LINE_TERMINATOR pre ->
         cdc_ready s2 ->
         exists st',
           usbuart_getline_irq w (Buf mem) st
           = Done ((zlength pre, Buf (store mem pre)), st') /\
           rb_bytes (_rxBuffer st') = post ++ a1 ++ a2) /\
     (~ In USBUART_LINE_TERMINATOR (rb_bytes (_rxBuffer s0)) ->
      a1 = [] ->
      usbuart_getline_irq w (Buf mem) st = Done ((0, Buf mem), s1)) /\
     (forall b more,
         ~ In USBUART_LINE_TERMINATOR (rb_bytes (_rxBuffer s0)) ->
         a1 = b :: more ->
         cdc_ready s2 ->
         exists st',
           usbuart_getline_irq w (Buf mem) st
           = Done ((zlength (rb_bytes (_rxBuffer s0)),
                    Buf (store mem (rb_bytes (_rxBuffer s0)))), st') /\
           rb_bytes (_rxBuffer st') = more ++ a2) /\
     (forall r out st',
         usbuart_getline_irq w (Buf mem) st = Done ((r, out), st') ->
         r <> 0 ->
         rb_bytes (_rxBuffer st')
         = skipn (Z.to_nat (r + 1)) (rb_bytes (_rxBuffer s2)))).
Proof.
  intros Hok _ _. split.
  - intros Hempty. unfold usbuart_getline_irq. unfold bind at 1, get at 1.
    unfold ringbuf_is_empty, ringbuf_bytes_used. rewrite Hempty. reflexivity.
  - intros Hne.
    destruct (getline_irq_run mem w st Hok Hne)
      as (s0 & s1 & s2 & a0 & a1 & a2 & Hs0 & Hs1 & Hs2 & Hb0 & Hb1 & Hb2
          & Hok0 & Hok1 & Hok2 & Hrun).
    cbv zeta in Hrun.
    exists s0, s1, s2, a0, a1, a2.
    repeat (split; [assumption|]).
    pose proof Hok0 as [[Hcap0 Hused0] _].
    pose proof Hok1 as [[Hcap1 Hused1] _].
    pose proof Hok2 as [[Hcap2 Hused2] _].
    unfold ringbuf_bytes_used, RX_BUFFER_SIZE in *.
    pose proof (zlength_nonneg a1) as Ha1.
    (* a terminator was found *)
    assert (Hfound :
      forall pre post,
        rb_bytes (_rxBuffer s0) = pre ++ USBUART_LINE_TERMINATOR :: post ->
        ~ In USBUART_LINE_TERMINATOR pre ->
        usbuart_getline_irq w (Buf mem) st
        = getline_extract mem (zlength pre) s2 /\
        rb_bytes (_rxBuffer s2)
        = pre ++ USBUART_LINE_TERMINATOR :: (post ++ a1 ++ a2)).
    { intros pre post Hb Hnot. rewrite Hrun.
      pose proof (zlength_nonneg pre). pose proof (zlength_nonneg post).
      replace (ringbuf_findchr (_rxBuffer s0) USBUART_LINE_TERMINATOR 0)
        with (zlength pre).
      2:{ destruct (_rxBuffer s0) as [cap bytes]. cbn [rb_bytes] in Hb.
          subst bytes. now rewrite findchr_first. }
      rewrite Hb1, Hb, !zlength_app, zlength_cons in Hused1.
      rewrite to_uint16_small by lia.
      rewrite Hb1, Hb, !zlength_app, zlength_cons.
      destruct (Z.eqb_spec (zlength pre)
                  (zlength pre + (zlength post + 1) + zlength a1)); [lia|].
      split; [reflexivity|].
      rewrite Hb2, Hb1, Hb, <- !app_assoc. reflexivity. }
    (* no terminator was found *)
    assert (Habsent :
      ~ In USBUART_LINE_TERMINATOR (rb_bytes (_rxBuffer s0)) ->
      (a1 = [] ->
       usbuart_getline_irq w (Buf mem) st = Done ((0, Buf mem), s1)) /\
      (forall b more,
          a1 = b :: more ->
          usbuart_getline_irq w (Buf mem) st
          = getline_extract mem (zlength (rb_bytes (_rxBuffer s0))) s2 /\
          rb_bytes (_rxBuffer s2)
          = rb_bytes (_rxBuffer s0) ++ b :: (more ++ a2))).
    { intros Hnot. rewrite Hrun.
      rewrite findchr_absent by assumption. unfold ringbuf_bytes_used.
      pose proof (zlength_nonneg (rb_bytes (_rxBuffer s0))).
      rewrite Hb1, zlength_app in Hused1.
      rewrite to_uint16_small by lia.
      rewrite Hb1, zlength_app. split.
      - intros ->. rewrite zlength_nil, Z.add_0_r, Z.eqb_refl. reflexivity.
      - intros b more ->. rewrite zlength_cons.
        pose proof (zlength_nonneg more).
        destruct (Z.eqb_spec (zlength (rb_bytes (_rxBuffer s0)))
                    (zlength (rb_bytes (_rxBuffer s0))
                     + (zlength more + 1))); [lia|].
        split; [reflexivity|].
        rewrite Hb2, Hb1, <- app_assoc. reflexivity. }
    split; [|split; [|split]].
    + intros pre post Hb Hnot Hcdc.
      destruct (Hfound pre post Hb Hnot) as [-> Hb2'].
      rewrite (getline_extract_front mem pre _ USBUART_LINE_TERMINATOR s2
                 Hok2 Hcdc Hb2').
      eexists. split; reflexivity.
    + intros Hnot. exact (proj1 (Habsent Hnot)).
    + intros b more Hnot Ha Hcdc.
      destruct (proj2 (Habsent Hnot) b more Ha) as [-> Hb2'].
      rewrite (getline_extract_front mem _ _ b s2 Hok2 Hcdc Hb2').
      eexists. split; reflexivity.
    + intros r out st' Hdone Hr.
      assert (Hextract :
        forall pre c post,
          rb_bytes (_rxBuffer s2) = pre ++ c :: post ->
          usbuart_getline_irq w (Buf mem) st
          = getline_extract mem (zlength pre) s2 ->
          rb_bytes (_rxBuffer st')
          = skipn (Z.to_nat (r + 1)) (rb_bytes (_rxBuffer s2))).
      { intros pre c post Hb2' Heq. rewrite Heq in Hdone.
        destruct (cdc_ready_dec s2) as [Hcdc | Hcdc].
        - rewrite (getline_extract_front mem pre post c s2 Hok2 Hcdc Hb2')
            in Hdone.
          injection Hdone as <- _ <-. cbn [_rxBuffer set_rxBuffer rb_bytes].
          rewrite Hb2'.
          replace (Z.to_nat (zlength pre + 1)) with (length pre + 1)%nat
            by (unfold zlength; lia).
          rewrite skipn_app, skipn_all2 by lia.
          replace (length pre + 1 - length pre)%nat with 1%nat by lia.
          reflexivity.
        - rewrite getline_extract_waits in Hdone by assumption.
          discriminate. }
      destruct (first_occurrence USBUART_LINE_TERMINATOR
                  (rb_bytes (_rxBuffer s0)))
        as [Hnot | (pre & post & Hb & Hnot)].
      * destruct a1 as [|b more].
        -- rewrite (proj1 (Habsent Hnot) eq_refl) in Hdone.
           injection Hdone as <- _ _. contradiction.
        -- destruct (proj2 (Habsent Hnot) b more eq_refl) as [Heq Hb2'].
           exact (Hextract _ b _ Hb2' Heq).
      * destruct (Hfound pre post Hb Hnot) as [Heq Hb2'].
        exact (Hextract _ _ _ Hb2' Heq).
Qed.

(** The defect at [race_line]: 2 is returned, [ab] delivered, and [abc] has
    left a ring that never held a terminator. *)
Lemma usbuart_getline_postcondition_witness :
  rb_bytes (_rxBuffer race_line) = [x61; x62] /\
  ~ In USBUART_LINE_TERMINATOR [x61; x62; x63; x64] /\
  exists st',
    usbuart_getline_irq tick_before_test (Buf [x00; x00]) race_line
    = Done ((2, Buf [x61; x62]), st') /\
    rb_bytes (_rxBuffer st') = [x64].
Proof.
  split; [reflexivity|]. split; [simpl; intuition discriminate|].
  assert (Hok : state_ok race_line) by scenario_ok.
  assert (Hpk : packet_sized (USBUART race_line))
    by (vm_compute; discriminate).
  assert (Hw : forall i, window_ok (tick_before_test i)).
  { intros [|[|i]] u Hin; cbn in Hin;
      [contradiction | destruct Hin as [H | []]; discriminate
       | contradiction]. }
  destruct (proj2 (usbuart_getline_postcondition [x00; x00] tick_before_test
                     race_line Hok Hpk Hw))
    as (s0 & s1 & s2 & a0 & a1 & a2 & Hs0 & Hs1 & Hs2 & Hb0 & Hb1 & Hb2
        & _ & _ & Hrace & _).
  { discriminate. }
  injection Hs0 as <-.
  vm_compute in Hs1. injection Hs1 as <-.
  injection Hs2 as <-.
  assert (Ha1 : a1 = [x63; x64]).
  { vm_compute in Hb1. injection Hb1 as <-. reflexivity. }
  assert (Ha2 : a2 = []).
  { vm_compute in Hb2. subst a1.
    destruct a2; [reflexivity | discriminate]. }
  destruct (Hrace x63 [x64]) as (st' & Hrun & Hrest).
  - simpl; intuition discriminate.
  - exact Ha1.
  - left. reflexivity.
  - exists st'. split; [exact Hrun|]. rewrite Hrest, Ha2. reflexivity.
Defined.

(** The call of [usbuart_getline] when no interrupt is served between its
    search and its test. *)
Lemma getline_irq_cases (mem : list byte) (w : nat -> list irq_event)
      (st : state) :
  state_ok st ->
  w 1%nat = [] ->
  exists arrived,
    getline_outcome mem (rb_bytes (_rxBuffer st) ++ arrived)
                    (usbuart_getline_irq w (Buf mem) st).
Proof.
  intros Hok Hw1.
  destruct (rb_bytes (_rxBuffer st)) as [|b0 R0] eqn:ER.
  { exists []. unfold usbuart_getline_irq. unfold bind at 1, get at 1.
    unfold ringbuf_is_empty, ringbuf_bytes_used. rewrite ER.
    apply line_nothing; [intros [] | exact ER]. }
  destruct (getline_irq_run mem w st Hok)
    as (s0 & s1 & s2 & a0 & a1 & a2 & Hs0 & Hs1 & Hs2 & Hb0 & Hb1 & Hb2
        & Hok0 & Hok1 & Hok2 & Hrun).
  { rewrite ER. discriminate. }
  rewrite Hw1 in Hs1. injection Hs1 as <-.
  rewrite ER in Hb0.
  pose proof Hok0 as [[Hcap0 Hused0] _].
  unfold ringbuf_bytes_used, RX_BUFFER_SIZE in Hused0.
  pose proof (zlength_nonneg (rb_bytes (_rxBuffer s0))) as Hnn.
  rewrite Hrun. cbv zeta.
  destruct (first_occurrence USBUART_LINE_TERMINATOR (rb_bytes (_rxBuffer s0)))
    as [Hnot | (pre & post & Hsplit & Hnot)].
  - exists a0. rewrite findchr_absent by assumption.
    unfold ringbuf_bytes_used. rewrite to_uint16_small by lia.
    rewrite Z.eqb_refl. rewrite <- Hb0.
    apply line_nothing; [exact Hnot | reflexivity].
  - exists (a0 ++ a2).
    replace (ringbuf_findchr (_rxBuffer s0) USBUART_LINE_TERMINATOR 0)
      with (zlength pre).
    2:{ destruct (_rxBuffer s0) as [cap bytes]. cbn [rb_bytes] in Hsplit.
        subst bytes. now rewrite findchr_first. }
    pose proof (zlength_nonneg pre). pose proof (zlength_nonneg post).
    unfold ringbuf_bytes_used.
    rewrite Hsplit, zlength_app, zlength_cons in Hused0.
    rewrite to_uint16_small by lia.
    rewrite Hsplit, zlength_app, zlength_cons.
    destruct (Z.eqb_spec (zlength pre) (zlength pre + (zlength post + 1)));
      [lia|].
    assert (Hb2' : rb_bytes (_rxBuffer s2)
                   = pre ++ USBUART_LINE_TERMINATOR :: (post ++ a2)).
    { rewrite Hb2, Hsplit, <- app_assoc. reflexivity. }
    assert (Hstream : (b0 :: R0) ++ a0 ++ a2
                      = pre ++ USBUART_LINE_TERMINATOR :: (post ++ a2)).
    { rewrite app_assoc, <- Hb0, Hsplit, <- app_assoc. reflexivity. }
    rewrite Hstream.
    destruct (cdc_ready_dec s2) as [Hcdc | Hcdc].
    + rewrite (getline_extract_front mem pre _ USBUART_LINE_TERMINATOR s2
                 Hok2 Hcdc Hb2').
      apply (line_taken _ _ _ pre (post ++ a2)); [reflexivity | exact Hnot
                                                   | reflexivity].
    + rewrite getline_extract_waits by assumption.
      apply (line_waiting _ _ pre (post ++ a2)); [reflexivity | exact Hnot].
Qed.

(** ** Searching a message with the interrupt enabled *)

Section ScanIrq.

Variable MSG_FIRST_BYTE : byte.
Variable MSG_LAST_BYTE : byte.

Local Abbreviation scan_irq := (getmsg_scan_irq MSG_FIRST_BYTE MSG_LAST_BYTE).
Local Abbreviation search_irq :=
  (getmsg_search_irq MSG_FIRST_BYTE MSG_LAST_BYTE).
Local Abbreviation getmsg_irq :=
  (usbuart_getmsg_irq MSG_FIRST_BYTE MSG_LAST_BYTE).
Local Abbreviation getmsg := (usbuart_getmsg MSG_FIRST_BYTE MSG_LAST_BYTE).
Local Abbreviation pass_ends := (pass_outcome MSG_FIRST_BYTE MSG_LAST_BYTE).
Local Abbreviation drops := (discards MSG_FIRST_BYTE MSG_LAST_BYTE).
Local Abbreviation search_ends :=
  (search_outcome MSG_FIRST_BYTE MSG_LAST_BYTE).
Local Abbreviation getmsg_ends :=
  (getmsg_outcome MSG_FIRST_BYTE MSG_LAST_BYTE).

(** A window in terms of the stream: the bytes that arrive join the ring and
    the stream. *)
Lemma window_step (w : list irq_event) (st : state)
      (R junk ring A : list byte) :
  state_ok st ->
  rb_bytes (_rxBuffer st) = ring ->
  R ++ A = junk ++ ring ->
  exists st' a,
    serve w st = Done (tt, st') /\
    rb_bytes (_rxBuffer st') = ring ++ a /\
    R ++ (A ++ a) = junk ++ (ring ++ a) /\
    state_ok st'.
Proof.
  intros Hok Hb Hstream.
  destruct (serve_appends w st Hok) as (st' & a & Hs & Hb' & Hok').
  exists st', a. split; [exact Hs|]. split; [now rewrite Hb', Hb|].
  split; [|exact Hok'].
  now rewrite !app_assoc, Hstream.
Qed.

(** Removing the bytes before the first byte. *)
Lemma drop_junk (junk ring : list byte) (st : state) :
  state_ok st ->
  rb_bytes (_rxBuffer st) = junk ++ ring ->
  exists st',
    (if zlength junk =? 0 then ret tt
     else upd_rx (fun rb => ringbuf_remove_from_tail rb (zlength junk))) st
    = Done (tt, st') /\
    rb_bytes (_rxBuffer st') = ring /\
    state_ok st'.
Proof.
  intros Hok Hb. pose proof Hok as [[Hcap Hused] Htx].
  destruct junk as [|j junk].
  - exists st. split; [reflexivity|]. split; [exact Hb | exact Hok].
  - rewrite zlength_cons. pose proof (zlength_nonneg junk).
    destruct (Z.eqb_spec (zlength junk + 1) 0); [lia|].
    unfold upd_rx.
    rewrite remove_from_tail_ok.
    2:{ unfold ringbuf_bytes_used. rewrite Hb, zlength_app, zlength_cons.
        pose proof (zlength_nonneg ring). lia. }
    eexists. split; [reflexivity|].
    cbn [_rxBuffer set_rxBuffer rb_bytes rb_capacity].
    rewrite Hb.
    replace (zlength junk + 1) with (zlength (j :: junk))
      by (now rewrite zlength_cons).
    rewrite skipn_zlength_app. split; [reflexivity|].
    split; [split|exact Htx]; [exact Hcap|].
    unfold ringbuf_bytes_used in *.
    cbn [_rxBuffer set_rxBuffer rb_bytes].
    rewrite Hb, zlength_app in Hused.
    pose proof (zlength_nonneg (j :: junk)). lia.
Qed.

Ltac run_window H Ho :=
  unfold bind at 1 in Ho; rewrite H in Ho; cbv beta iota in Ho.

Ltac run_get Ho :=
  unfold bind at 1 in Ho; unfold get at 1 in Ho; cbv beta iota in Ho.

Lemma used_cons2 (st : state) (a b : byte) (l : list byte) :
  rb_bytes (_rxBuffer st) = a :: b :: l ->
  ringbuf_bytes_used (_rxBuffer st) = zlength l + 2.
Proof.
  intros H. unfold ringbuf_bytes_used. rewrite H, !zlength_cons. lia.
Qed.

(** One pass when no interrupt is served between the search for the first
    byte and the test of its result, whatever is served in its other
    windows. *)
Lemma scan_irq_cases (w : nat -> list irq_event) (st : state) :
  state_ok st ->
  w 1%nat = [] ->
  exists arrived,
    pass_ends (rb_bytes (_rxBuffer st) ++ arrived) (scan_irq w st).
Proof.
  intros Hok Hw1.
  set (R := rb_bytes (_rxBuffer st)).
  remember (scan_irq w st) as o eqn:Ho.
  unfold getmsg_scan_irq in Ho.
  destruct (serve_appends (w 0%nat) st Hok) as (s0 & a0 & Hs0 & Hb0 & Hok0).
  fold R in Hb0.
  run_window Hs0 Ho. run_get Ho. cbv zeta in Ho.
  rewrite Hw1 in Ho. cbn [serve] in Ho.
  unfold bind at 1 in Ho. unfold ret at 1 in Ho. cbv beta iota in Ho.
  run_get Ho.
  pose proof Hok0 as [[Hcap0 Hused0] _].
  unfold ringbuf_bytes_used, RX_BUFFER_SIZE in Hused0.
  destruct (first_occurrence MSG_FIRST_BYTE (rb_bytes (_rxBuffer s0)))
    as [Habs | (junk & Y & Hsplit & Hjunk)].
  { (* no first byte: return 0 at once *)
    rewrite findchr_absent in Ho by assumption.
    rewrite to_uint16_small in Ho
      by (unfold ringbuf_bytes_used;
          pose proof (zlength_nonneg (rb_bytes (_rxBuffer s0))); lia).
    rewrite Z.eqb_refl in Ho. subst o.
    exists a0. apply pass_absent; [now rewrite <- Hb0 | exact Hb0 | exact Hok0]. }
  assert (Hoffs : ringbuf_findchr (_rxBuffer s0) MSG_FIRST_BYTE 0
                  = zlength junk).
  { destruct (_rxBuffer s0) as [cap bytes]. cbn [rb_bytes] in Hsplit.
    subst bytes. now apply findchr_first. }
  rewrite Hoffs in Ho.
  rewrite Hsplit, zlength_app, zlength_cons in Hused0.
  pose proof (zlength_nonneg junk) as Hjunk0.
  pose proof (zlength_nonneg Y) as HY0.
  rewrite to_uint16_small in Ho by lia.
  replace (zlength junk =? ringbuf_bytes_used (_rxBuffer s0)) with false in Ho
    by (symmetry; apply Z.eqb_neq; unfold ringbuf_bytes_used;
        rewrite Hsplit, zlength_app, zlength_cons; lia).
  (* window 2 and the removal of the junk *)
  assert (Hst0 : R ++ a0 = [] ++ junk ++ MSG_FIRST_BYTE :: Y)
    by (rewrite <- Hb0; exact Hsplit).
  destruct (window_step (w 2%nat) s0 R [] _ a0 Hok0 Hsplit Hst0)
    as (s2 & a2 & Hs2 & Hb2 & Hst2 & Hok2).
  run_window Hs2 Ho.
  cbn [app] in Hst2. rewrite <- app_assoc in Hb2, Hst2.
  rewrite <- app_comm_cons in Hb2, Hst2.
  destruct (drop_junk junk _ s2 Hok2 Hb2) as (s2' & Hdrop & Hb2' & Hok2').
  run_window Hdrop Ho.
  (* window 3 and the header *)
  destruct (window_step (w 3%nat) s2' R junk _ (a0 ++ a2) Hok2' Hb2' Hst2)
    as (s3 & a3 & Hs3 & Hb3 & Hst3 & Hok3).
  run_window Hs3 Ho. run_get Ho.
  cbn [app] in Hb3, Hst3.
  destruct ((Y ++ a2) ++ a3) as [|length_byte Z3] eqn:ET3.
  { replace (ringbuf_bytes_used (_rxBuffer s3) <? MSG_HEADER_LENGTH)
      with true in Ho
      by (unfold ringbuf_bytes_used; rewrite Hb3; reflexivity).
    subst o. exists ((a0 ++ a2) ++ a3).
    apply (pass_header _ _ _ s3 junk); assumption. }
  pose proof (used_cons2 s3 _ _ _ Hb3) as Hused3.
  pose proof (zlength_nonneg Z3) as HZ3.
  replace (ringbuf_bytes_used (_rxBuffer s3) <? MSG_HEADER_LENGTH)
    with false in Ho
    by (symmetry; apply Z.ltb_ge; rewrite Hused3; unfold MSG_HEADER_LENGTH; lia).
  (* window 4 and the length byte *)
  destruct (window_step (w 4%nat) s3 R junk _ _ Hok3 Hb3 Hst3)
    as (s4 & a4 & Hs4 & Hb4 & Hst4 & Hok4).
  run_window Hs4 Ho. run_get Ho.
  cbn [app] in Hb4, Hst4.
  pose proof (used_cons2 s4 _ _ _ Hb4) as Hused4.
  pose proof (zlength_nonneg (Z3 ++ a4)) as HZ4.
  unfold bind at 1 in Ho. unfold lift at 1 in Ho.
  rewrite peek_ok in Ho
    by (rewrite Hused4; unfold MSG_LENGTH_OFFS_FROM_FIRST_BYTE; lia).
  rewrite Hb4 in Ho.
  change (nth (Z.to_nat MSG_LENGTH_OFFS_FROM_FIRST_BYTE)
              (MSG_FIRST_BYTE :: length_byte :: Z3 ++ a4) x00)
    with length_byte in Ho.
  cbv beta iota zeta in Ho.
  (* window 5 and the length of the frame *)
  destruct (window_step (w 5%nat) s4 R junk _ _ Hok4 Hb4 Hst4)
    as (s5 & a5 & Hs5 & Hb5 & Hst5 & Hok5).
  run_window Hs5 Ho. run_get Ho.
  cbn [app] in Hb5, Hst5.
  pose proof (used_cons2 s5 _ _ _ Hb5) as Hused5.
  pose proof (zlength_nonneg ((Z3 ++ a4) ++ a5)) as HZ5.
  pose proof (byte_val_range length_byte) as Hrange.
  destruct (Z.ltb_spec (ringbuf_bytes_used (_rxBuffer s5))
                       (byte_val length_byte)) as [Hshort | Hfits].
  { subst o. exists ((((a0 ++ a2) ++ a3) ++ a4) ++ a5).
    apply (pass_incomplete _ _ _ s5 junk length_byte ((Z3 ++ a4) ++ a5));
      try assumption. lia. }
  (* window 6 and the footer *)
  destruct (window_step (w 6%nat) s5 R junk _ _ Hok5 Hb5 Hst5)
    as (s6 & a6 & Hs6 & Hb6 & Hst6 & Hok6).
  run_window Hs6 Ho. run_get Ho.
  cbn [app] in Hb6, Hst6.
  pose proof (used_cons2 s6 _ _ _ Hb6) as Hused6.
  pose proof (zlength_nonneg a6) as Ha6.
  assert (Hlen6 : zlength (((Z3 ++ a4) ++ a5) ++ a6)
                  = zlength ((Z3 ++ a4) ++ a5) + zlength a6)
    by apply zlength_app.
  unfold bind at 1 in Ho. unfold lift at 1 in Ho.
  destruct (Z.eq_dec (byte_val length_byte) 0) as [Hzero | Hpos].
  { rewrite peek_outside in Ho by lia.
    rewrite Hzero in Ho. change (0 - 1) with (-1) in Ho. subst o.
    exists (((((a0 ++ a2) ++ a3) ++ a4) ++ a5) ++ a6).
    apply (pass_zero _ _ _ junk length_byte _ _ Hst6); assumption. }
  rewrite peek_ok in Ho by lia.
  rewrite Hb6 in Ho. cbv beta iota in Ho.
  destruct (Byte.byte_eq_dec
              (nth (Z.to_nat (byte_val length_byte - 1))
                   (MSG_FIRST_BYTE :: length_byte
                    :: ((Z3 ++ a4) ++ a5) ++ a6) x00)
              MSG_LAST_BYTE) as [Hlast | Hlast].
  { rewrite Hlast, byte_eqb_refl in Ho. subst o.
    exists (((((a0 ++ a2) ++ a3) ++ a4) ++ a5) ++ a6).
    apply (pass_found _ _ _ s6 junk length_byte _ Hst6); try assumption. lia. }
  rewrite byte_eqb_neq in Ho by assumption.
  (* window 7 and the removal of the first byte *)
  destruct (window_step (w 7%nat) s6 R junk _ _ Hok6 Hb6 Hst6)
    as (s7 & a7 & Hs7 & Hb7 & Hst7 & Hok7).
  run_window Hs7 Ho.
  cbn [app] in Hb7, Hst7.
  pose proof (used_cons2 s7 _ _ _ Hb7) as Hused7.
  pose proof (zlength_nonneg a7) as Ha7.
  assert (Hlen7 : zlength ((((Z3 ++ a4) ++ a5) ++ a6) ++ a7)
                  = zlength (((Z3 ++ a4) ++ a5) ++ a6) + zlength a7)
    by apply zlength_app.
  unfold bind at 1 in Ho. unfold upd_rx at 1 in Ho.
  rewrite remove_from_tail_ok in Ho
    by (rewrite Hused7; unfold MSG_LENGTH_OFFS_FROM_FIRST_BYTE; lia).
  cbv beta iota in Ho. unfold ret in Ho. subst o.
  exists ((((((a0 ++ a2) ++ a3) ++ a4) ++ a5) ++ a6) ++ a7).
  apply (pass_again _ _ _ _ junk length_byte _ Hst7); try assumption.
  - lia.
  - rewrite app_comm_cons, app_comm_cons, app_nth1; [exact Hlast|].
    cbn [length]. rewrite length_app. unfold zlength in *. lia.
  - cbn [_rxBuffer set_rxBuffer rb_bytes]. rewrite Hb7. reflexivity.
  - destruct Hok7 as [[Hc7 Hu7] Htx7]. split; [split|exact Htx7].
    + exact Hc7.
    + unfold ringbuf_bytes_used in *.
      cbn [_rxBuffer set_rxBuffer rb_bytes]. rewrite Hb7 in *.
      change (Z.to_nat MSG_LENGTH_OFFS_FROM_FIRST_BYTE) with 1%nat.
      cbn [skipn]. unfold RX_BUFFER_SIZE in *.
      rewrite !zlength_cons in Hu7. rewrite zlength_cons. lia.
Qed.

(** Bytes that arrive later do not change what was discarded. *)
Lemma discards_app (stream kept : list byte) :
  drops stream kept ->
  forall later : list byte, drops (stream ++ later) (kept ++ later).
Proof.
  induction 1 as [stream | junk rest kept Hjunk _ IH
                 | length_byte rest kept Hlen Hlast _ IH]; intros later.
  - constructor.
  - rewrite <- app_assoc, <- app_comm_cons.
    apply discards_junk; [exact Hjunk|].
    rewrite app_comm_cons. apply IH.
  - rewrite <- !app_comm_cons. apply discards_refuted.
    + rewrite zlength_app. pose proof (zlength_nonneg later). lia.
    + rewrite !app_comm_cons, app_nth1; [exact Hlast|].
      cbn [length]. unfold zlength in Hlen. lia.
    + rewrite app_comm_cons. apply IH.
Qed.

(** The outcome of the rest of a search, behind a refuted candidate. *)
Lemma search_behind_refuted (passes : nat) (junk : list byte)
      (length_byte : byte) (rest later : list byte)
      (o : outcome (option Z * state)) :
  ~ In MSG_FIRST_BYTE junk ->
  1 <= byte_val length_byte <= zlength rest + 2 ->
  nth (Z.to_nat (byte_val length_byte - 1))
      (MSG_FIRST_BYTE :: length_byte :: rest) x00 <> MSG_LAST_BYTE ->
  search_ends passes ((length_byte :: rest) ++ later) o ->
  search_ends (S passes)
              ((junk ++ MSG_FIRST_BYTE :: length_byte :: rest) ++ later) o.
Proof.
  intros Hjunk Hlen Hlast Hrest.
  assert (Hdrop : forall kept,
             drops ((length_byte :: rest) ++ later) kept ->
             drops ((junk ++ MSG_FIRST_BYTE :: length_byte :: rest) ++ later)
                   kept).
  { intros kept Hk. rewrite <- app_assoc, <- !app_comm_cons.
    apply discards_junk; [exact Hjunk|].
    apply discards_refuted.
    - rewrite zlength_app. pose proof (zlength_nonneg later). lia.
    - rewrite !app_comm_cons, app_nth1; [exact Hlast|].
      cbn [length]. unfold zlength in Hlen. lia.
    - exact Hk. }
  destruct Hrest as [st' kept Hk Hun Hb Hok'
                    | st' lb rest' Hk Hl Hf Hb Hok'
                    | lb rest' used Hk Hz
                    | kept Hk Hcount].
  - eapply search_none; eauto.
  - eapply search_some; eauto.
  - eapply search_zero; eauto.
  - apply (search_bound _ _ _ _ kept); [now apply Hdrop|].
    rewrite !length_app in *. cbn [length] in *. lia.
Qed.

(** The search when no interrupt is served between a search for the first
    byte and its test. *)
Lemma search_irq_cases (fuel : nat) (sched : nat -> nat -> list irq_event) :
  (forall p, sched p 1%nat = []) ->
  forall (pass : nat) (st : state),
    state_ok st ->
    exists arrived,
      search_ends fuel (rb_bytes (_rxBuffer st) ++ arrived)
                  (search_irq fuel sched pass st).
Proof.
  intros Hquiet.
  induction fuel as [|fuel IH]; intros pass st Hok.
  - exists []. apply (search_bound _ _ _ _ (rb_bytes (_rxBuffer st) ++ []));
      [constructor | lia].
  - cbn [getmsg_search_irq]. unfold bind at 1.
    destruct (scan_irq_cases (sched pass) st Hok (Hquiet pass))
      as (arrived & Hpass).
    inversion Hpass
      as [st' Habs Hb Hok' Ho
         | st' junk Hs Hjunk Hb Hok' Ho
         | st' junk lb rest Hs Hjunk Hshort Hb Hok' Ho
         | junk lb rest used Hs Hjunk Hzero Ho
         | st' junk lb rest Hs Hjunk Hlen Hlast Hb Hok' Ho
         | st' junk lb rest Hs Hjunk Hlen Hlast Hb Hok' Ho].
    + exists arrived. eapply search_none; [constructor | now left | eauto..].
    + exists arrived. rewrite Hs.
      eapply search_none; [| right; left; reflexivity | eauto..].
      apply discards_junk; [exact Hjunk | constructor].
    + exists arrived. rewrite Hs.
      eapply search_none; [| | exact Hb | exact Hok'].
      * apply discards_junk; [exact Hjunk | constructor].
      * right. right. now exists lb, rest.
    + exists arrived. rewrite Hs.
      eapply search_zero; [|exact Hzero].
      apply discards_junk; [exact Hjunk | constructor].
    + exists arrived. rewrite Hs.
      eapply search_some; [| exact Hlen | exact Hlast | exact Hb | exact Hok'].
      apply discards_junk; [exact Hjunk | constructor].
    + destruct (IH (S pass) st' Hok') as (later & Hrest).
      exists (arrived ++ later). rewrite app_assoc, Hs.
      rewrite Hb in Hrest.
      now apply search_behind_refuted.
Qed.

Lemma getmsg_irq_unfold (fuel : nat) (sched : nat -> nat -> list irq_event)
      (enter : list irq_event) (mem : list byte) (st : state) :
  getmsg_irq fuel sched enter (Buf mem) st =
  if ringbuf_is_empty (_rxBuffer st) then Done ((0, Buf mem), st)
  else
    match search_irq fuel sched 0%nat st with
    | Done (None, st') => Done ((0, Buf mem), st')
    | Done (Some msg_length, st') =>
      match serve enter st' with
      | Done (_, st'') => getmsg_extract mem msg_length st''
      | Waiting => Waiting
      | Fault f => Fault f
      end
    | Waiting => Waiting
    | Fault f => Fault f
    end.
Proof.
  unfold usbuart_getmsg_irq. unfold bind at 1. unfold get at 1.
  destruct (ringbuf_is_empty (_rxBuffer st)); [reflexivity|].
  unfold bind at 1.
  destruct (search_irq fuel sched 0%nat st) as [[[l|] st']| |];
    reflexivity.
Qed.

(** The call when no interrupt is served between a search for the first
    byte and its test. *)
Lemma getmsg_irq_cases (fuel : nat) (sched : nat -> nat -> list irq_event)
      (enter : list irq_event) (mem : list byte) (st : state) :
  state_ok st ->
  (forall p, sched p 1%nat = []) ->
  exists arrived,
    getmsg_ends fuel mem (rb_bytes (_rxBuffer st) ++ arrived)
                (getmsg_irq fuel sched enter (Buf mem) st).
Proof.
  intros Hok Hquiet. rewrite getmsg_irq_unfold.
  destruct (ringbuf_is_empty (_rxBuffer st)) eqn:Hempty.
  { exists []. rewrite app_nil_r.
    apply (got_nothing _ _ _ _ _ st (rb_bytes (_rxBuffer st)));
      [constructor | | reflexivity].
    left. unfold ringbuf_is_empty, ringbuf_bytes_used, zlength in Hempty.
    apply Z.eqb_eq in Hempty.
    destruct (rb_bytes (_rxBuffer st)); [intros [] | simpl in Hempty; lia]. }
  destruct (search_irq_cases fuel sched Hquiet 0%nat st Hok)
    as (arrived & Hsearch).
  inversion Hsearch
    as [st' kept Hdrop Hun Hb Hok' Ho
       | st' lb rest Hdrop Hlen Hlast Hb Hok' Ho
       | lb rest used Hdrop Hzero Ho
       | kept Hdrop Hcount Ho].
  - exists arrived. eapply got_nothing; eauto.
  - (* a candidate is located: the window, then the critical section *)
    destruct (serve_appends enter st' Hok') as (s & later & Hs & Hbs & Hoks).
    rewrite Hs. rewrite Hb in Hbs. cbn [app] in Hbs.
    exists (arrived ++ later). rewrite app_assoc.
    pose proof (discards_app _ _ Hdrop later) as Hdrop'.
    cbn [app] in Hdrop'.
    pose proof (byte_val_range lb) as Hrange.
    pose proof (zlength_nonneg rest) as Hrest.
    pose proof (zlength_nonneg later) as Hlater.
    assert (Hlen' : zlength (rest ++ later) = zlength rest + zlength later)
      by apply zlength_app.
    assert (Hlast' :
      nth (Z.to_nat (byte_val lb - 1))
          (MSG_FIRST_BYTE :: lb :: rest ++ later) x00 = MSG_LAST_BYTE).
    { rewrite !app_comm_cons, app_nth1; [exact Hlast|].
      cbn [length]. unfold zlength in Hlen. lia. }
    destruct (cdc_ready_dec s) as [Hcdc | Hcdc].
    2:{ rewrite extract_waits by assumption.
        apply (got_waiting _ _ _ _ _ lb (rest ++ later)); [exact Hdrop' | lia
                                                         | exact Hlast']. }
    destruct (Z_lt_ge_dec (byte_val lb) MSG_STRUCTURE_LENGTH)
      as [Hsmall | Hbig].
    { rewrite (extract_wrapped mem _ MSG_FIRST_BYTE lb _ s Hoks Hcdc Hbs)
        by lia.
      destruct (zlength (rest ++ later) <? byte_val lb + 253);
        (apply (got_short _ _ _ _ _ lb (rest ++ later));
         [exact Hdrop' | exact Hsmall | right; exact Hlast' | discriminate]). }
    rewrite (extract_frame mem _ MSG_FIRST_BYTE lb _ s Hcdc Hbs) by lia.
    unfold MSG_STRUCTURE_LENGTH, MSG_HEADER_LENGTH, MSG_FOOTER_LENGTH in *.
    set (n := Z.to_nat (byte_val lb - (2 + 1))) in *.
    assert (Hnth : nth n (rest ++ later) x00 = MSG_LAST_BYTE).
    { replace (Z.to_nat (byte_val lb - 1)) with (S (S n)) in Hlast'
        by (unfold n; lia).
      exact Hlast'. }
    assert (Hsplit : rest ++ later
                     = firstn n (rest ++ later)
                       ++ MSG_LAST_BYTE :: skipn 1 (skipn n (rest ++ later))).
    { rewrite <- Hnth. apply split_at_nth. unfold n, zlength in *. lia. }
    assert (Hpayload : zlength (firstn n (rest ++ later))
                       = byte_val lb - (2 + 1)).
    { unfold zlength. rewrite length_firstn. unfold n, zlength in *. lia. }
    rewrite <- Hpayload at 1.
    apply (got_frame _ _ _ _ _ _ lb (firstn n (rest ++ later))
                     (skipn 1 (skipn n (rest ++ later)))).
    + rewrite <- Hsplit. exact Hdrop'.
    + unfold MSG_STRUCTURE_LENGTH, MSG_HEADER_LENGTH, MSG_FOOTER_LENGTH. lia.
    + reflexivity.
  - exists arrived.
    apply (got_short _ _ _ _ _ lb rest);
      [exact Hdrop | | now left | discriminate].
    unfold MSG_STRUCTURE_LENGTH, MSG_HEADER_LENGTH, MSG_FOOTER_LENGTH. lia.
  - exists arrived. apply (got_bound _ _ _ _ _ kept); assumption.
Qed.

(** Without interrupts the preemptible pass is the pass. *)
Lemma scan_irq_quiet (st : state) :
  scan_irq quiet st = getmsg_scan MSG_FIRST_BYTE MSG_LAST_BYTE st.
Proof.
  unfold getmsg_scan_irq, getmsg_scan, quiet.
  cbn [serve]. unfold_monad. cbv beta iota zeta.
  repeat (cbv beta iota; cbn [_rxBuffer set_rxBuffer];
          first
            [ reflexivity
            | match goal with
              | |- context [if ?c then _ else _] => destruct c
              | |- context [ringbuf_peek ?rb ?k] =>
                destruct (ringbuf_peek rb k)
              | |- context [ringbuf_remove_from_tail ?rb ?k] =>
                destruct (ringbuf_remove_from_tail rb k)
              end ]).
Qed.

Lemma search_irq_quiet (fuel : nat) :
  forall (pass : nat) (st : state),
    search_irq fuel quiet_search pass st
    = getmsg_search MSG_FIRST_BYTE MSG_LAST_BYTE fuel st.
Proof.
  induction fuel as [|fuel IH]; intros pass st; [reflexivity|].
  cbn [getmsg_search_irq getmsg_search]. unfold bind.
  change (quiet_search pass) with quiet. rewrite scan_irq_quiet.
  destruct (getmsg_scan MSG_FIRST_BYTE MSG_LAST_BYTE st)
    as [[[| |] st']| |]; try reflexivity.
  apply IH.
Qed.

Lemma getmsg_irq_quiet (data : uint8_ptr) (st : state) :
  getmsg_irq (S (length (rb_bytes (_rxBuffer st)))) quiet_search [] data st
  = getmsg data st.
Proof.
  destruct data as [|mem]; [reflexivity|].
  rewrite getmsg_irq_unfold, getmsg_unfold, search_irq_quiet.
  destruct (ringbuf_is_empty (_rxBuffer st)); [reflexivity|].
  destruct (getmsg_search _ _ _ st) as [[[l|] st']| |]; reflexivity.
Qed.


End ScanIrq.

(** The frame [0x02 0x04 B 0x03] whose first byte stands behind [A] in the
    ring and whose other bytes arrive during the search. *)
Example frame_arrives_during_search :
  exists st',
    usbuart_getmsg_irq x02 x03 2 tick_in_search [] (Buf [x00]) frame_arriving
    = Done ((1, Buf [x42]), st') /\
    rb_bytes (_rxBuffer st') = [].
Proof. eexists. split; [vm_compute; reflexivity | reflexivity]. Qed.

(** The search of [usbuart_getmsg] and its test are not atomic either: with
    [A] alone in the ring and [X 0x04 B 0x03] arriving between them, the call
    takes the offset of the missing first byte for that of [X] and delivers
    [B]. *)
Example getmsg_race_delivers_unframed :
  ~ In x02 [x41; x58; x04; x42; x03] /\
  exists st',
    usbuart_getmsg_irq x02 x03 2 tick_before_first_test [] (Buf [x00])
                       unframed_arriving
    = Done ((1, Buf [x42]), st') /\
    rb_bytes (_rxBuffer st') = [].
Proof.
  split; [simpl; intuition discriminate|].
  eexists. split; [vm_compute; reflexivity | reflexivity].
Qed.

